(** * KP chart generator: sign, nakshatra, sub-lord, house and retrograde
      classification ([main.py])

    A shallow embedding of the classification core of [main.py] and the
    properties its specification states about it.

    Numbers.  The Python code computes on [float]s.  The functions are
    embedded twice.  In the first embedding every float is read as the
    rational it denotes and every operation as the exact operation on
    rationals ([Q]); [==] on floats is [Qeq].  Statements proved on it are
    chosen so that the rounding of the doubles does not change them:
    comparisons of values the code has computed, structure of the results,
    and intervals taken with a margin.  The second embedding, [Binary64]
    and [Binary64Chart], computes on IEEE doubles with Python's [%], [//],
    [int] and [round]; it is used where the code on doubles leaves the
    exact reading (an angle normalised to 360.0, a nakshatra boundary
    given to the nakshatra before) and for what holds of the chart
    whatever the rounding.  Python [int]s are [Z].

    Errors.  A Python exception is a [Raise] in the [result] monad; the
    model raises where the source does ([list.index] on a missing value,
    indexing out of range, a missing dictionary key, division by zero,
    [int] of a NaN or of an infinity, the explicit [raise ValueError]).

    The ephemeris ([swe.calc_ut], [swe.houses], [swe.get_ayanamsa_ut]) is
    an external library: the functions that call it are stated in a
    section over it. *)

From Stdlib Require Import QArith Qround Qabs ZArith List Ascii String Bool Lia Lqa.
From Stdlib Require PrimFloat FloatOps SpecFloat.
Import ListNotations.

Local Open Scope Z_scope.
Local Open Scope Q_scope.
Local Open Scope string_scope.

(** ** Exceptions *)

Inductive error : Set :=
| ValueError
| ZeroDivisionError
| IndexError
| KeyError
| OverflowError.

Inductive result (A : Type) : Type :=
| Ok (a : A)
| Raise (e : error).

Arguments Ok {A} a.
Arguments Raise {A} e.

Definition bind {A B : Type} (r : result A) (k : A -> result B) : result B :=
  match r with
  | Ok a => k a
  | Raise e => Raise e
  end.

Notation "x <- c ;; k" := (bind c (fun x => k))
  (at level 61, c at next level, right associativity).
Notation "' p <- c ;; k" := (bind c (fun x => let 'p := x in k))
  (at level 61, p pattern, c at next level, right associativity).

Fixpoint mapM {A B : Type} (f : A -> result B) (l : list A) : result (list B) :=
  match l with
  | [] => Ok []
  | a :: l' => b <- f a ;; bs <- mapM f l' ;; Ok (b :: bs)
  end.

(** ** Python primitives on numbers and lists *)

Definition Qlt_bool (a b : Q) : bool := negb (Qle_bool b a).

(** [a / b] on floats (and true division of ints). *)
Definition py_div (a b : Q) : result Q :=
  if Qeq_bool b 0 then Raise ZeroDivisionError else Ok (a / b).

(** [int(a // b)] for a positive [b]: the floor of the quotient. *)
Definition py_floordiv (a b : Q) : Z := Qfloor (a / b).

(** [a % b] for a positive [b]: the result takes the sign of [b]. *)
Definition py_mod (a b : Q) : Q := a - b * inject_Z (Qfloor (a / b)).

(** [round(x)] to the nearest integer, ties to even. *)
Definition round_half_even (x : Q) : Z :=
  let f := Qfloor x in
  let r := x - inject_Z f in
  if Qlt_bool r (1 # 2) then f
  else if Qlt_bool (1 # 2) r then (f + 1)%Z
  else if Z.even f then f else (f + 1)%Z.

(** [round(x, 6)]. *)
Definition round6 (x : Q) : Q :=
  inject_Z (round_half_even (x * 1000000)) / 1000000.

(** [l[i]] with Python's negative indices. *)
Definition py_getitem {A : Type} (l : list A) (i : Z) : result A :=
  let n := Z.of_nat (List.length l) in
  let j := if (i <? 0)%Z then (i + n)%Z else i in
  if ((j <? 0) || (n <=? j))%Z then Raise IndexError
  else match nth_error l (Z.to_nat j) with
       | Some a => Ok a
       | None => Raise IndexError
       end.

(** [l.index(x)] on a list of strings. *)
Fixpoint py_index (x : string) (l : list string) : result nat :=
  match l with
  | [] => Raise ValueError
  | y :: l' => if String.eqb y x then Ok O
               else i <- py_index x l' ;; Ok (S i)
  end.

(** [l[idx:] + l[:idx]]. *)
Definition rotate {A : Type} (idx : nat) (l : list A) : list A :=
  skipn idx l ++ firstn idx l.

(** [d[k]] on a dictionary with integer keys, kept as an association list. *)
Fixpoint dict_get {A : Type} (d : list (Z * A)) (k : Z) : result A :=
  match d with
  | [] => Raise KeyError
  | (k', v) :: d' => if (k' =? k)%Z then Ok v else dict_get d' k
  end.

(** ** Configuration tables *)

Definition VIMSHOTTARI_ORDER : list string :=
  ["Ketu"; "Venus"; "Sun"; "Moon"; "Mars"; "Rahu"; "Jupiter"; "Saturn"; "Mercury"].

Definition VIM_YEARS : list Z := [7; 20; 6; 10; 7; 18; 16; 19; 17]%Z.

Definition py_sum (l : list Z) : Z := fold_left Z.add l 0%Z.

Definition VIM_TOTAL : Z := py_sum VIM_YEARS.

Definition VIM_PROPORTIONS : list Q :=
  map (fun y => inject_Z y / inject_Z (py_sum VIM_YEARS)) VIM_YEARS.

Definition NAK_SHAPES : list (string * string) :=
  [("Ashwini", "Ketu"); ("Bharani", "Venus"); ("Krittika", "Sun");
   ("Rohini", "Moon"); ("Mrigashira", "Mars"); ("Ardra", "Rahu");
   ("Punarvasu", "Jupiter"); ("Pushya", "Saturn"); ("Ashlesha", "Mercury");
   ("Magha", "Ketu"); ("Purva Phalguni", "Venus"); ("Uttara Phalguni", "Sun");
   ("Hasta", "Moon"); ("Chitra", "Mars"); ("Swati", "Rahu");
   ("Vishakha", "Jupiter"); ("Anuradha", "Saturn"); ("Jyeshtha", "Mercury");
   ("Mula", "Ketu"); ("Purva Ashadha", "Venus"); ("Uttara Ashadha", "Sun");
   ("Shravana", "Moon"); ("Dhanishta", "Mars"); ("Shatabhisha", "Rahu");
   ("Purva Bhadrapada", "Jupiter"); ("Uttara Bhadrapada", "Saturn");
   ("Revati", "Mercury")].

Definition SIGN_RULER : list (Z * string) :=
  [(1, "Mars"); (2, "Venus"); (3, "Mercury"); (4, "Moon"); (5, "Sun");
   (6, "Mercury"); (7, "Venus"); (8, "Mars"); (9, "Jupiter"); (10, "Saturn");
   (11, "Saturn"); (12, "Jupiter")]%Z.

Definition SIGN_NAMES : list string :=
  ["Aries"; "Taurus"; "Gemini"; "Cancer"; "Leo"; "Virgo"; "Libra"; "Scorpio";
   "Sagittarius"; "Capricorn"; "Aquarius"; "Pisces"].

(** ** Helper functions *)

Definition normalize_angle (a : Q) : Q :=
  let a := py_mod a 360 in
  if Qlt_bool a 0 then a + 360 else a.

Definition sign_from_deg (deg : Q) : result (Z * string) :=
  let deg := normalize_angle deg in
  let sign_idx := (py_floordiv deg 30 + 1)%Z in
  sign_name <- py_getitem SIGN_NAMES (sign_idx - 1) ;;
  Ok (sign_idx, sign_name).

Definition get_nak_charan_and_pos (sid_deg : Q)
  : result (Z * string * string * Z * Q * Q) :=
  let sid_deg := py_mod sid_deg 360 in
  nak_size <- py_div 360 27 ;;
  let nak_index := (py_floordiv sid_deg nak_size + 1)%Z in
  let nak_index := if (27 <? nak_index)%Z then 27%Z else nak_index in
  '(nak_name, nak_lord) <- py_getitem NAK_SHAPES (nak_index - 1) ;;
  let nak_start := inject_Z (nak_index - 1) * nak_size in
  let pos_in_nak := sid_deg - nak_start in
  let pos_in_nak := if Qlt_bool pos_in_nak 0 then pos_in_nak + nak_size
                    else pos_in_nak in
  pada_size <- py_div nak_size 4 ;;
  let charan := (py_floordiv pos_in_nak pada_size + 1)%Z in
  let charan := if (4 <? charan)%Z then 4%Z else charan in
  Ok (nak_index, nak_name, nak_lord, charan, pos_in_nak, nak_size).

(** ** The sub-lord walk *)

(** The tolerance literal [1e-9]. *)
Definition tolerance : Q := 1 # 1000000000.

(** The inner [for lord, prop in zip(order, props)] loop of
    [find_sub_lord_recursive]: [Some (lord, cur_pos')] when the loop
    reaches its [break], [None] when it runs off the end of the sequence
    (then nothing is appended and nothing is changed). *)
Fixpoint sub_lord_scan (cur_pos cumulative : Q) (zs : list (string * Q))
  : result (option (string * Q)) :=
  match zs with
  | [] => Ok None
  | (lord, prop) :: zs' =>
      let next_cum := cumulative + prop in
      if Qle_bool cur_pos next_cum || Qlt_bool (Qabs (cur_pos - 1)) tolerance
      then cur_pos' <- py_div (cur_pos - cumulative) prop ;;
           Ok (Some (lord, cur_pos'))
      else sub_lord_scan cur_pos next_cum zs'
  end.

(** The outer [for _ in range(levels)] loop, on the state
    [(order, props, cur_pos, lords)]. *)
Fixpoint sub_lord_levels (levels : nat) (VIM_ORDER : list string)
  (VIM_PROP : list Q) (order : list string) (props : list Q) (cur_pos : Q)
  (lords : list string) : result (list string) :=
  match levels with
  | O => Ok lords
  | S levels' =>
      hit <- sub_lord_scan cur_pos 0 (combine order props) ;;
      match hit with
      | Some (lord, cur_pos') =>
          idx2 <- py_index lord VIM_ORDER ;;
          sub_lord_levels levels' VIM_ORDER VIM_PROP
            (rotate idx2 VIM_ORDER) (rotate idx2 VIM_PROP) cur_pos'
            (lords ++ [lord])
      | None =>
          sub_lord_levels levels' VIM_ORDER VIM_PROP order props cur_pos lords
      end
  end.

Definition find_sub_lord_recursive (pos_in_nak_deg nak_size : Q)
  (nak_lord : string) (levels : nat) : result (list string) :=
  let VIM_ORDER :=
    ["Ketu"; "Venus"; "Sun"; "Moon"; "Mars"; "Rahu"; "Jupiter"; "Saturn"; "Mercury"] in
  let VIM_YEARS := [7; 20; 6; 10; 7; 18; 16; 19; 17]%Z in
  let total := py_sum VIM_YEARS in
  VIM_PROP <- mapM (fun y => py_div (inject_Z y) (inject_Z total)) VIM_YEARS ;;
  idx <- py_index nak_lord VIM_ORDER ;;
  let order := rotate idx VIM_ORDER in
  let props := rotate idx VIM_PROP in
  cur_pos <- py_div pos_in_nak_deg nak_size ;;
  sub_lord_levels levels VIM_ORDER VIM_PROP order props cur_pos [].

(** The three sub-lord entries of an output record:
    [sub_lords[0]], [sub_lords[1] if len(sub_lords) > 1 else None],
    [sub_lords[2] if len(sub_lords) > 2 else None]. *)
Definition sub_lord_fields (sub_lords : list string)
  : result (string * option string * option string) :=
  s0 <- py_getitem sub_lords 0 ;;
  s1 <- (if (1 <? Z.of_nat (List.length sub_lords))%Z
         then s <- py_getitem sub_lords 1 ;; Ok (Some s) else Ok None) ;;
  s2 <- (if (2 <? Z.of_nat (List.length sub_lords))%Z
         then s <- py_getitem sub_lords 2 ;; Ok (Some s) else Ok None) ;;
  Ok (s0, s1, s2).

(** ** The helper functions on IEEE doubles *)

Module Binary64.

Import PrimFloat.
Local Open Scope float_scope.

(** A Python [int] as the float true division converts it to. *)
Fixpoint float_of_pos (p : positive) : float :=
  match p with
  | xH => 1
  | xO q => 2 * float_of_pos q
  | xI q => 2 * float_of_pos q + 1
  end.

Definition float_of_Z (z : Z) : float :=
  match z with
  | Z0 => 0
  | Zpos p => float_of_pos p
  | Zneg p => - float_of_pos p
  end.

Definition py_div (a b : float) : result float :=
  if b =? 0 then Raise ZeroDivisionError else Ok (a / b).

(** A finite double as [m * 2^e]; [None] for the infinities and NaN. *)
Definition exact_value (x : float) : option (Z * Z) :=
  match FloatOps.Prim2SF x with
  | SpecFloat.S754_zero _ => Some (0, 0)%Z
  | SpecFloat.S754_finite s m e => Some (if s then Zneg m else Zpos m, e)
  | _ => None
  end.

(** The double [m * 2^e], for [|m| < 2^53]. *)
Definition float_of_exact (m e : Z) : float :=
  FloatOps.Z.ldexp (float_of_Z m) e.

(** [copysign(0.0, x)]. *)
Definition copysign_zero (x : float) : float :=
  if get_sign x then neg_zero else zero.

(** C's [fmod]: the remainder of the truncated division, which is exact
    and has the sign of [x]. *)
Definition fmod (x y : float) : float :=
  match exact_value x, exact_value y with
  | Some (mx, ex), Some (my, ey) =>
      if (my =? 0)%Z then nan
      else
        let e := Z.min ex ey in
        let r := Z.rem (mx * 2 ^ (ex - e)) (my * 2 ^ (ey - e)) in
        if (r =? 0)%Z then copysign_zero x else float_of_exact r e
  | Some _, None => if is_nan y then nan else x
  | None, _ => nan
  end.

(** C's [floor]. *)
Definition floor (x : float) : float :=
  match exact_value x with
  | Some (m, e) =>
      if (0 <=? e)%Z then x
      else let q := (m / 2 ^ (- e))%Z in
           if (q =? 0)%Z then copysign_zero x else float_of_Z q
  | None => x
  end.

(** [vx % wx] on floats ([float_rem]): [fmod], then the remainder is given
    the sign of the divisor by adding the divisor, which rounds. *)
Definition py_mod (vx wx : float) : result float :=
  if wx =? 0 then Raise ZeroDivisionError
  else
    let rem := fmod vx wx in
    Ok (if rem =? 0 then copysign_zero wx
        else if xorb (wx <? 0) (rem <? 0) then rem + wx else rem).

(** [vx // wx] on floats ([float_floor_div]). *)
Definition py_floordiv (vx wx : float) : result float :=
  if wx =? 0 then Raise ZeroDivisionError
  else
    let rem := fmod vx wx in
    let quo := (vx - rem) / wx in
    let quo := if rem =? 0 then quo
               else if xorb (wx <? 0) (rem <? 0) then quo - 1 else quo in
    Ok (if quo =? 0 then copysign_zero (vx / wx)
        else let floordiv := floor quo in
             if 0.5 <? quo - floordiv then floordiv + 1 else floordiv).

(** [int(x)] on a float: truncation towards zero. *)
Definition py_int (x : float) : result Z :=
  match exact_value x with
  | Some (m, e) =>
      Ok (if (0 <=? e)%Z then m * 2 ^ e else Z.quot m (2 ^ (- e)))%Z
  | None => if is_nan x then Raise ValueError else Raise OverflowError
  end.

Definition normalize_angle (a : float) : result float :=
  a <- py_mod a 360 ;;
  Ok (if a <? 0 then a + 360 else a).

Definition sign_from_deg (deg : float) : result (Z * string) :=
  deg <- normalize_angle deg ;;
  q <- py_floordiv deg 30 ;;
  k <- py_int q ;;
  let sign_idx := (k + 1)%Z in
  sign_name <- py_getitem SIGN_NAMES (sign_idx - 1) ;;
  Ok (sign_idx, sign_name).

Definition get_nak_charan_and_pos (sid_deg : float)
  : result (Z * string * string * Z * float * float) :=
  sid_deg <- py_mod sid_deg 360 ;;
  nak_size <- py_div 360 27 ;;
  q <- py_floordiv sid_deg nak_size ;;
  k <- py_int q ;;
  let nak_index := (k + 1)%Z in
  let nak_index := if (27 <? nak_index)%Z then 27%Z else nak_index in
  '(nak_name, nak_lord) <- py_getitem NAK_SHAPES (nak_index - 1) ;;
  let nak_start := float_of_Z (nak_index - 1) * nak_size in
  let pos_in_nak := sid_deg - nak_start in
  let pos_in_nak := if pos_in_nak <? 0 then pos_in_nak + nak_size
                    else pos_in_nak in
  pada_size <- py_div nak_size 4 ;;
  q <- py_floordiv pos_in_nak pada_size ;;
  k <- py_int q ;;
  let charan := (k + 1)%Z in
  let charan := if (4 <? charan)%Z then 4%Z else charan in
  Ok (nak_index, nak_name, nak_lord, charan, pos_in_nak, nak_size).

(** [house_lord]: [SIGN_RULER[int(normalize_angle(cusp_list[house_no-1]
    - ayanamsha) // 30) + 1]]. *)
Definition house_lord_of (cusp_list : list float) (ayanamsha : float)
  (house_no : Z) : result string :=
  c <- py_getitem cusp_list (house_no - 1) ;;
  a <- normalize_angle (c - ayanamsha) ;;
  q <- py_floordiv a 30 ;;
  k <- py_int q ;;
  dict_get SIGN_RULER (k + 1)%Z.

(** The double nearest to [n / d], ties to even. *)
Definition nearest_double (n : Z) (d : positive) : float :=
  if (n =? 0)%Z then zero
  else
    let a := Z.abs n in
    let scaled (k : Z) : Q :=
      if (0 <=? k)%Z then Qmake a (d * Z.to_pos (2 ^ k))
      else Qmake (a * 2 ^ (- k)) d in
    let k0 := (Z.log2 a - Z.log2 (Zpos d) - 53)%Z in
    let k := if Qle_bool (inject_Z (2 ^ 53)) (scaled k0) then (k0 + 1)%Z
             else k0 in
    let k := Z.max k (-1074) in
    let f := float_of_exact (round_half_even (scaled k)) k in
    if (n <? 0)%Z then - f else f.

(** [round(x, 6)]: the exact value of [x] rounded to six decimals, ties to
    even, and then the double nearest to that decimal. *)
Definition round6 (x : float) : float :=
  match exact_value x with
  | Some (m, e) =>
      let q := if (0 <=? e)%Z then inject_Z (m * 2 ^ e)
               else Qmake m (Z.to_pos (2 ^ (- e))) in
      let n := round_half_even (q * 1000000)%Q in
      if (n =? 0)%Z then copysign_zero x else nearest_double n 1000000
  | None => x
  end.

(** The double nearest to [-1e-20], and a longitude one unit in the last
    place below 24 degrees. *)
Definition tiny_negative : float := -0x1.79ca10c924223p-67.
Definition just_below_24 : float := 0x1.7ffffffffffffp+4.

(** The tolerance literal [1e-9], as the nearest double. *)
Definition tolerance : float := 0x1.12e0be826d695p-30.

Fixpoint sub_lord_scan (cur_pos cumulative : float) (zs : list (string * float))
  : result (option (string * float)) :=
  match zs with
  | [] => Ok None
  | (lord, prop) :: zs' =>
      let next_cum := cumulative + prop in
      if (cur_pos <=? next_cum) || (abs (cur_pos - 1) <? tolerance)
      then cur_pos' <- py_div (cur_pos - cumulative) prop ;;
           Ok (Some (lord, cur_pos'))
      else sub_lord_scan cur_pos next_cum zs'
  end.

Fixpoint sub_lord_levels (levels : nat) (VIM_ORDER : list string)
  (VIM_PROP : list float) (order : list string) (props : list float)
  (cur_pos : float) (lords : list string) : result (list string) :=
  match levels with
  | O => Ok lords
  | S levels' =>
      hit <- sub_lord_scan cur_pos 0 (combine order props) ;;
      match hit with
      | Some (lord, cur_pos') =>
          idx2 <- py_index lord VIM_ORDER ;;
          sub_lord_levels levels' VIM_ORDER VIM_PROP
            (rotate idx2 VIM_ORDER) (rotate idx2 VIM_PROP) cur_pos'
            (lords ++ [lord])
      | None =>
          sub_lord_levels levels' VIM_ORDER VIM_PROP order props cur_pos lords
      end
  end.

Definition find_sub_lord_recursive (pos_in_nak_deg nak_size : float)
  (nak_lord : string) (levels : nat) : result (list string) :=
  let VIM_ORDER :=
    ["Ketu"; "Venus"; "Sun"; "Moon"; "Mars"; "Rahu"; "Jupiter"; "Saturn"; "Mercury"] in
  let VIM_YEARS := [7; 20; 6; 10; 7; 18; 16; 19; 17]%Z in
  let total := py_sum VIM_YEARS in
  VIM_PROP <- mapM (fun y => py_div (float_of_Z y) (float_of_Z total)) VIM_YEARS ;;
  idx <- py_index nak_lord VIM_ORDER ;;
  let order := rotate idx VIM_ORDER in
  let props := rotate idx VIM_PROP in
  cur_pos <- py_div pos_in_nak_deg nak_size ;;
  sub_lord_levels levels VIM_ORDER VIM_PROP order props cur_pos [].

End Binary64.

(** ** House placement *)

(** [range(a, a + n)]. *)
Definition py_range (a : Z) (n : nat) : list Z :=
  map (fun k => (a + Z.of_nat k)%Z) (seq 0 n).

(** The [for i in range(12)] loop that looks for the house of [pdeg]:
    [Some (i + 1)] at the [break], [None] when no interval matched. *)
Fixpoint house_scan (cusp_list : list Q) (ayanamsha pdeg : Q) (range : list Z)
  : result (option Z) :=
  match range with
  | [] => Ok None
  | i :: range' =>
      c0 <- py_getitem cusp_list i ;;
      let start := normalize_angle (c0 - ayanamsha) in
      c1 <- py_getitem cusp_list ((i + 1) mod 12)%Z ;;
      let end_ := normalize_angle (c1 - ayanamsha) in
      if Qle_bool start end_ then
        if Qle_bool start pdeg && Qlt_bool pdeg end_ then Ok (Some (i + 1)%Z)
        else house_scan cusp_list ayanamsha pdeg range'
      else
        if Qle_bool start pdeg || Qlt_bool pdeg end_ then Ok (Some (i + 1)%Z)
        else house_scan cusp_list ayanamsha pdeg range'
  end.

(** The loop followed by [if house_no is None: house_no = 12]. *)
Definition locate_house (cusp_list : list Q) (ayanamsha pdeg : Q) : result Z :=
  house_no <- house_scan cusp_list ayanamsha pdeg (py_range 0 12) ;;
  Ok (match house_no with Some h => h | None => 12%Z end).

(** [cusps] as [swe.houses] returns it, cut to the twelve cusps. *)
Definition cusp_list_of (cusps : list Q) : result (list Q) :=
  if Nat.eqb (List.length cusps) 13 then mapM (py_getitem cusps) (py_range 1 12)
  else if Nat.eqb (List.length cusps) 12 then mapM (py_getitem cusps) (py_range 0 12)
  else Raise ValueError.

(** ** Output records *)

Record planet_record : Type := {
  planet_name : string;
  planet_id : Z;
  full_degree : Q;
  norm_degree : Q;
  is_retro : bool;
  sign_id : Z;
  sign_name : string;
  sign_lord : string;
  house : Z;
  house_lord : string;
  nakshatra_name : string;
  nakshatra_id : Z;
  nakshatra_lord : string;
  nakshatra_charan : Z;
  sub_lord : string;
  sub_sub_lord : option string;
  sub_sub_sub_lord : option string
}.

Record house_record : Type := {
  h_house_id : Z;
  h_full_degree : Q;
  h_norm_degree : Q;
  h_sign_id : Z;
  h_sign_name : string;
  h_sign_lord : string;
  h_nakshatra_id : Z;
  h_nakshatra_name : string;
  h_nakshatra_lord : string;
  h_nakshatra_charan : Z;
  h_sub_lord : string;
  h_sub_sub_lord : option string;
  h_sub_sub_sub_lord : option string
}.

Record chart : Type := {
  ayanamsha_of : Q;
  houses_of : list house_record;
  planets_of : list planet_record
}.

(** The bodies the ephemeris is asked for. *)
Inductive swe_body : Set :=
| SUN | MOON | MERCURY | VENUS | MARS | JUPITER | SATURN | MEAN_NODE.

Definition PLANETS : list (swe_body * string) :=
  [(SUN, "Sun"); (MOON, "Moon"); (MERCURY, "Mercury"); (VENUS, "Venus");
   (MARS, "Mars"); (JUPITER, "Jupiter"); (SATURN, "Saturn");
   (MEAN_NODE, "Rahu")].

(** [house_lord]: the ruler of the sign on the cusp of the house. *)
Definition house_lord_of (cusp_list : list Q) (ayanamsha : Q) (house_no : Z)
  : result string :=
  c <- py_getitem cusp_list (house_no - 1) ;;
  dict_get SIGN_RULER (py_floordiv (normalize_angle (c - ayanamsha)) 30 + 1)%Z.

(** The block under [if rahu:], which builds Ketu's record from Rahu's. *)
Definition ketu_record (rahu : planet_record) (cusp_list : list Q)
  (ayanamsha : Q) : result planet_record :=
  let ketu_sid_lon := normalize_angle (full_degree rahu + 180) in
  '(sign_id, sign_name) <- sign_from_deg ketu_sid_lon ;;
  sign_lord <- dict_get SIGN_RULER sign_id ;;
  '(nak_idx, nak_name, nak_lord, charan, pos_in_nak, nak_size) <-
     get_nak_charan_and_pos ketu_sid_lon ;;
  sub_lords <- find_sub_lord_recursive pos_in_nak nak_size nak_lord 3 ;;
  house_no <- locate_house cusp_list ayanamsha ketu_sid_lon ;;
  hl <- house_lord_of cusp_list ayanamsha house_no ;;
  '(s0, s1, s2) <- sub_lord_fields sub_lords ;;
  Ok {| planet_name := "Ketu";
        planet_id := 100;
        full_degree := round6 ketu_sid_lon;
        norm_degree := round6 (py_mod ketu_sid_lon 30);
        is_retro := is_retro rahu;
        sign_id := sign_id;
        sign_name := sign_name;
        sign_lord := sign_lord;
        house := house_no;
        house_lord := hl;
        nakshatra_name := nak_name;
        nakshatra_id := nak_idx;
        nakshatra_lord := nak_lord;
        nakshatra_charan := charan;
        sub_lord := s0;
        sub_sub_lord := s1;
        sub_sub_sub_lord := s2 |}.

(** One pass of the [for i in range(12)] loop over the house cusps. *)
Definition house_entry (cusp_list : list Q) (ayanamsha : Q) (i : Z)
  : result house_record :=
  c <- py_getitem cusp_list i ;;
  let cusp_trop := normalize_angle c in
  let cusp_sid := normalize_angle (cusp_trop - ayanamsha) in
  '(sign_id, sign_name) <- sign_from_deg cusp_sid ;;
  sign_lord <- dict_get SIGN_RULER sign_id ;;
  '(nak_idx, nak_name, nak_lord, charan, pos_in_nak, nak_size) <-
     get_nak_charan_and_pos cusp_sid ;;
  sub_lords <- find_sub_lord_recursive pos_in_nak nak_size nak_lord 3 ;;
  '(s0, s1, s2) <- sub_lord_fields sub_lords ;;
  Ok {| h_house_id := (i + 1)%Z;
        h_full_degree := round6 cusp_sid;
        h_norm_degree := round6 (py_mod cusp_sid 30);
        h_sign_id := sign_id;
        h_sign_name := sign_name;
        h_sign_lord := sign_lord;
        h_nakshatra_id := nak_idx;
        h_nakshatra_name := nak_name;
        h_nakshatra_lord := nak_lord;
        h_nakshatra_charan := charan;
        h_sub_lord := s0;
        h_sub_sub_lord := s1;
        h_sub_sub_sub_lord := s2 |}.

(** ** The functions that call the ephemeris *)

Section Ephemeris.

(** [swe.calc_ut(jd, pconst)], the tropical longitude it returns. *)
Variable calc_ut : Q -> swe_body -> Q.
(** [swe.houses(jd, lat, lon)], the cusps it returns. *)
Variable houses : Q -> Q -> Q -> list Q.
(** [swe.get_ayanamsa_ut(jd)]. *)
Variable get_ayanamsa_ut : Q -> Q.

Definition is_retrograde (jd : Q) (pconst : swe_body) (delta_days : Q) : bool :=
  let lon1 := calc_ut jd pconst in
  let lon2 := calc_ut (jd + delta_days) pconst in
  let d := normalize_angle (lon2 - lon1) in
  let d := if Qlt_bool 180 d then d - 360 else d in
  Qlt_bool d 0.

(** One pass of the [for pconst, pname in PLANETS] loop: the record it
    appends and the [cusp_list] it leaves behind. *)
Definition planet_entry (JD lat lon ayanamsha : Q) (p : swe_body * string)
  : result (planet_record * list Q) :=
  let '(pconst, pname) := p in
  let tropical_lon := normalize_angle (calc_ut JD pconst) in
  let sid_lon := normalize_angle (tropical_lon - ayanamsha) in
  '(sign_id, sign_name) <- sign_from_deg sid_lon ;;
  sign_lord <- dict_get SIGN_RULER sign_id ;;
  '(nak_idx, nak_name, nak_lord, charan, pos_in_nak, nak_size) <-
     get_nak_charan_and_pos sid_lon ;;
  sub_lords <- find_sub_lord_recursive pos_in_nak nak_size nak_lord 3 ;;
  let retro := is_retrograde JD pconst 2 in
  cusp_list <- cusp_list_of (houses JD lat lon) ;;
  house_no <- locate_house cusp_list ayanamsha sid_lon ;;
  pid <- py_index pname (map snd PLANETS) ;;
  hl <- house_lord_of cusp_list ayanamsha house_no ;;
  '(s0, s1, s2) <- sub_lord_fields sub_lords ;;
  Ok ({| planet_name := pname;
         planet_id := Z.of_nat pid;
         full_degree := round6 sid_lon;
         norm_degree := round6 (py_mod sid_lon 30);
         is_retro := retro;
         sign_id := sign_id;
         sign_name := sign_name;
         sign_lord := sign_lord;
         house := house_no;
         house_lord := hl;
         nakshatra_name := nak_name;
         nakshatra_id := nak_idx;
         nakshatra_lord := nak_lord;
         nakshatra_charan := charan;
         sub_lord := s0;
         sub_sub_lord := s1;
         sub_sub_sub_lord := s2 |}, cusp_list).

(** The planets loop on the state [(out['planets'], cusp_list)]. *)
Fixpoint planets_loop (JD lat lon ayanamsha : Q) (ps : list (swe_body * string))
  (out : list planet_record) (cusp_list : list Q)
  : result (list planet_record * list Q) :=
  match ps with
  | [] => Ok (out, cusp_list)
  | p :: ps' =>
      '(r, cusp_list') <- planet_entry JD lat lon ayanamsha p ;;
      planets_loop JD lat lon ayanamsha ps' (out ++ [r]) cusp_list'
  end.

(** [compute_kp_json] from the Julian day on (the parsing of the date and
    the choice of the sidereal mode happen before and in the ephemeris). *)
Definition compute_kp_json (JD lat lon : Q) : result chart :=
  let ayanamsha := get_ayanamsa_ut JD in
  '(planets, cusp_list) <- planets_loop JD lat lon ayanamsha PLANETS [] [] ;;
  let rahu := find (fun p => String.eqb (planet_name p) "Rahu") planets in
  planets <- match rahu with
             | Some rahu =>
                 ketu <- ketu_record rahu cusp_list ayanamsha ;;
                 Ok (planets ++ [ketu])%list
             | None => Ok planets
             end ;;
  cusp_list <- cusp_list_of (houses JD lat lon) ;;
  hs <- mapM (house_entry cusp_list ayanamsha) (py_range 0 12) ;;
  Ok {| ayanamsha_of := ayanamsha; houses_of := hs; planets_of := planets |}.

End Ephemeris.

(** ** The chart on IEEE doubles *)

Module Binary64Chart.

Import PrimFloat.
Import Binary64.
Local Open Scope float_scope.

Fixpoint house_scan (cusp_list : list float) (ayanamsha pdeg : float)
  (range : list Z) : result (option Z) :=
  match range with
  | [] => Ok None
  | i :: range' =>
      c0 <- py_getitem cusp_list i ;;
      start <- normalize_angle (c0 - ayanamsha) ;;
      c1 <- py_getitem cusp_list ((i + 1) mod 12)%Z ;;
      end_ <- normalize_angle (c1 - ayanamsha) ;;
      if start <=? end_ then
        if (start <=? pdeg) && (pdeg <? end_) then Ok (Some (i + 1)%Z)
        else house_scan cusp_list ayanamsha pdeg range'
      else
        if (start <=? pdeg) || (pdeg <? end_) then Ok (Some (i + 1)%Z)
        else house_scan cusp_list ayanamsha pdeg range'
  end.

Definition locate_house (cusp_list : list float) (ayanamsha pdeg : float)
  : result Z :=
  house_no <- house_scan cusp_list ayanamsha pdeg (py_range 0 12) ;;
  Ok (match house_no with Some h => h | None => 12%Z end).

Definition cusp_list_of (cusps : list float) : result (list float) :=
  if Nat.eqb (List.length cusps) 13 then mapM (py_getitem cusps) (py_range 1 12)
  else if Nat.eqb (List.length cusps) 12 then mapM (py_getitem cusps) (py_range 0 12)
  else Raise ValueError.

Record planet_record : Type := {
  planet_name : string;
  planet_id : Z;
  full_degree : float;
  norm_degree : float;
  is_retro : bool;
  sign_id : Z;
  sign_name : string;
  sign_lord : string;
  house : Z;
  house_lord : string;
  nakshatra_name : string;
  nakshatra_id : Z;
  nakshatra_lord : string;
  nakshatra_charan : Z;
  sub_lord : string;
  sub_sub_lord : option string;
  sub_sub_sub_lord : option string
}.

Record house_record : Type := {
  h_house_id : Z;
  h_full_degree : float;
  h_norm_degree : float;
  h_sign_id : Z;
  h_sign_name : string;
  h_sign_lord : string;
  h_nakshatra_id : Z;
  h_nakshatra_name : string;
  h_nakshatra_lord : string;
  h_nakshatra_charan : Z;
  h_sub_lord : string;
  h_sub_sub_lord : option string;
  h_sub_sub_sub_lord : option string
}.

Record chart : Type := {
  ayanamsha_of : float;
  houses_of : list house_record;
  planets_of : list planet_record
}.

Definition ketu_record (rahu : planet_record) (cusp_list : list float)
  (ayanamsha : float) : result planet_record :=
  ketu_sid_lon <- normalize_angle (full_degree rahu + 180) ;;
  '(sign_id, sign_name) <- sign_from_deg ketu_sid_lon ;;
  sign_lord <- dict_get SIGN_RULER sign_id ;;
  '(nak_idx, nak_name, nak_lord, charan, pos_in_nak, nak_size) <-
     get_nak_charan_and_pos ketu_sid_lon ;;
  sub_lords <- find_sub_lord_recursive pos_in_nak nak_size nak_lord 3 ;;
  house_no <- locate_house cusp_list ayanamsha ketu_sid_lon ;;
  norm <- py_mod ketu_sid_lon 30 ;;
  hl <- house_lord_of cusp_list ayanamsha house_no ;;
  '(s0, s1, s2) <- sub_lord_fields sub_lords ;;
  Ok {| planet_name := "Ketu";
        planet_id := 100;
        full_degree := round6 ketu_sid_lon;
        norm_degree := round6 norm;
        is_retro := is_retro rahu;
        sign_id := sign_id;
        sign_name := sign_name;
        sign_lord := sign_lord;
        house := house_no;
        house_lord := hl;
        nakshatra_name := nak_name;
        nakshatra_id := nak_idx;
        nakshatra_lord := nak_lord;
        nakshatra_charan := charan;
        sub_lord := s0;
        sub_sub_lord := s1;
        sub_sub_sub_lord := s2 |}.

Definition house_entry (cusp_list : list float) (ayanamsha : float) (i : Z)
  : result house_record :=
  c <- py_getitem cusp_list i ;;
  cusp_trop <- normalize_angle c ;;
  cusp_sid <- normalize_angle (cusp_trop - ayanamsha) ;;
  '(sign_id, sign_name) <- sign_from_deg cusp_sid ;;
  sign_lord <- dict_get SIGN_RULER sign_id ;;
  '(nak_idx, nak_name, nak_lord, charan, pos_in_nak, nak_size) <-
     get_nak_charan_and_pos cusp_sid ;;
  sub_lords <- find_sub_lord_recursive pos_in_nak nak_size nak_lord 3 ;;
  norm <- py_mod cusp_sid 30 ;;
  '(s0, s1, s2) <- sub_lord_fields sub_lords ;;
  Ok {| h_house_id := (i + 1)%Z;
        h_full_degree := round6 cusp_sid;
        h_norm_degree := round6 norm;
        h_sign_id := sign_id;
        h_sign_name := sign_name;
        h_sign_lord := sign_lord;
        h_nakshatra_id := nak_idx;
        h_nakshatra_name := nak_name;
        h_nakshatra_lord := nak_lord;
        h_nakshatra_charan := charan;
        h_sub_lord := s0;
        h_sub_sub_lord := s1;
        h_sub_sub_sub_lord := s2 |}.

Section Ephemeris.

Variable calc_ut : float -> swe_body -> float.
Variable houses : float -> float -> float -> list float.
Variable get_ayanamsa_ut : float -> float.

Definition is_retrograde (jd : float) (pconst : swe_body) (delta_days : float)
  : result bool :=
  let lon1 := calc_ut jd pconst in
  let lon2 := calc_ut (jd + delta_days) pconst in
  d <- normalize_angle (lon2 - lon1) ;;
  let d := if 180 <? d then d - 360 else d in
  Ok (d <? 0).

Definition planet_entry (JD lat lon ayanamsha : float) (p : swe_body * string)
  : result (planet_record * list float) :=
  let '(pconst, pname) := p in
  tropical_lon <- normalize_angle (calc_ut JD pconst) ;;
  sid_lon <- normalize_angle (tropical_lon - ayanamsha) ;;
  '(sign_id, sign_name) <- sign_from_deg sid_lon ;;
  sign_lord <- dict_get SIGN_RULER sign_id ;;
  '(nak_idx, nak_name, nak_lord, charan, pos_in_nak, nak_size) <-
     get_nak_charan_and_pos sid_lon ;;
  sub_lords <- find_sub_lord_recursive pos_in_nak nak_size nak_lord 3 ;;
  retro <- is_retrograde JD pconst 2 ;;
  cusp_list <- cusp_list_of (houses JD lat lon) ;;
  house_no <- locate_house cusp_list ayanamsha sid_lon ;;
  pid <- py_index pname (map snd PLANETS) ;;
  norm <- py_mod sid_lon 30 ;;
  hl <- house_lord_of cusp_list ayanamsha house_no ;;
  '(s0, s1, s2) <- sub_lord_fields sub_lords ;;
  Ok ({| planet_name := pname;
         planet_id := Z.of_nat pid;
         full_degree := round6 sid_lon;
         norm_degree := round6 norm;
         is_retro := retro;
         sign_id := sign_id;
         sign_name := sign_name;
         sign_lord := sign_lord;
         house := house_no;
         house_lord := hl;
         nakshatra_name := nak_name;
         nakshatra_id := nak_idx;
         nakshatra_lord := nak_lord;
         nakshatra_charan := charan;
         sub_lord := s0;
         sub_sub_lord := s1;
         sub_sub_sub_lord := s2 |}, cusp_list).

Fixpoint planets_loop (JD lat lon ayanamsha : float)
  (ps : list (swe_body * string)) (out : list planet_record)
  (cusp_list : list float) : result (list planet_record * list float) :=
  match ps with
  | [] => Ok (out, cusp_list)
  | p :: ps' =>
      '(r, cusp_list') <- planet_entry JD lat lon ayanamsha p ;;
      planets_loop JD lat lon ayanamsha ps' (out ++ [r]) cusp_list'
  end.

Definition compute_kp_json (JD lat lon : float) : result chart :=
  let ayanamsha := get_ayanamsa_ut JD in
  '(planets, cusp_list) <- planets_loop JD lat lon ayanamsha PLANETS [] [] ;;
  let rahu := find (fun p => String.eqb (planet_name p) "Rahu") planets in
  planets <- match rahu with
             | Some rahu =>
                 ketu <- ketu_record rahu cusp_list ayanamsha ;;
                 Ok (planets ++ [ketu])%list
             | None => Ok planets
             end ;;
  cusp_list <- cusp_list_of (houses JD lat lon) ;;
  hs <- mapM (house_entry cusp_list ayanamsha) (py_range 0 12) ;;
  Ok {| ayanamsha_of := ayanamsha; houses_of := hs; planets_of := planets |}.

End Ephemeris.

(** The example ephemeris on doubles: on day 1 the Sun at 101 degrees, the
    Moon at 213, the node at 355.95, the other bodies at 30.5. *)
Definition example_calc_ut (jd : float) (pconst : swe_body) : float :=
  match pconst with
  | SUN => 100 + jd
  | MOON => 200 + 13 * jd
  | MEAN_NODE => 356 - jd / 20
  | _ => 30 + 0.5 * jd
  end.

Definition example_houses (jd lat lon : float) : list float :=
  [10; 40; 70; 100; 130; 160; 190; 220; 250; 280; 310; 340].

Definition example_ayanamsa (jd : float) : float := 24.

(** Cusps whose first one lies one unit in the last place below the
    ayanamsha of 24 degrees. *)
Definition edge_houses (jd lat lon : float) : list float :=
  [just_below_24; 54; 84; 114; 144; 174; 204; 234; 264; 294; 324; 354].

End Binary64Chart.

(** ** An ephemeris to run the chart on *)

(** Bodies that move uniformly; the node moves backwards. *)
Definition example_calc_ut (jd : Q) (pconst : swe_body) : Q :=
  match pconst with
  | SUN => 100 + jd
  | MOON => 200 + 13 * jd
  | MEAN_NODE => 356 - (1 # 20) * jd
  | _ => 30 + (1 # 2) * jd
  end.

(** The cusps of the specification's example, whatever the place. *)
Definition example_houses (jd lat lon : Q) : list Q :=
  [10; 40; 70; 100; 130; 160; 190; 220; 250; 280; 310; 340].

Definition example_ayanamsa (jd : Q) : Q := 24.

(** The sum of a list of weights. *)
Definition Qsum (l : list Q) : Q := fold_right Qplus 0 l.

(** ** The specification's wording of the retrograde test and of house
       membership, to compare the code with *)

(** The signed angular change: [d = normalize(later - now)], read as
    [d - 360] when [d > 180]. *)
Definition signed_change (longitude_now longitude_later : Q) : Q :=
  let d := normalize_angle (longitude_later - longitude_now) in
  if Qlt_bool 180 d then d - 360 else d.

(** Membership of [longitude] in the circular interval from [start] to
    [end_]. *)
Definition in_circular_interval (start end_ longitude : Q) : Prop :=
  (start <= end_ -> start <= longitude /\ longitude < end_) /\
  (end_ < start -> start <= longitude \/ longitude < end_).

(** The sidereal longitude of cusp [i] (counted from 0, cyclically). *)
Definition sidereal_cusp (cusp_list : list Q) (ayanamsha : Q) (i : nat) : Q :=
  normalize_angle (nth (i mod 12) cusp_list 0 - ayanamsha).

(** [longitude] lies in house [i + 1]: between cusp [i] and the next one. *)
Definition in_house (cusp_list : list Q) (ayanamsha longitude : Q) (i : nat)
  : Prop :=
  in_circular_interval (sidereal_cusp cusp_list ayanamsha i)
    (sidereal_cusp cusp_list ayanamsha (i + 1)) longitude.

(** ** Parsing the date and the time *)

(** [s.split(sep)] for a separator of one character: the pieces between
    the occurrences of [sep], empty pieces included. *)
Fixpoint py_split (sep : ascii) (s : string) : list string :=
  match s with
  | EmptyString => [EmptyString]
  | String c s' =>
      if Ascii.eqb c sep then EmptyString :: py_split sep s'
      else match py_split sep s' with
           | piece :: pieces => String c piece :: pieces
           | [] => [String c EmptyString]
           end
  end.

(** [a, b, c = l]: unpacking into three names. *)
Definition unpack3 {A : Type} (l : list A) : result (A * A * A) :=
  match l with
  | [a; b; c] => Ok (a, b, c)
  | _ => Raise ValueError
  end.

Section Parsing.

(** The builtin [int(x)] on a string. *)
Variable py_int : string -> result Z.

Definition parse_date_time (date_str time_str : string)
  : result (Z * Z * Z * Z * Z * Z) :=
  date_parts <- mapM py_int (py_split "-" date_str) ;;
  '(y, m, d) <- unpack3 date_parts ;;
  time_parts <- mapM py_int (py_split ":" time_str) ;;
  '(hh, mm, ss) <- unpack3 time_parts ;;
  Ok (y, m, d, hh, mm, ss).

End Parsing.

(** [sep.join(l)] for a separator of one character. *)
Fixpoint py_join (sep : ascii) (l : list string) : string :=
  match l with
  | [] => EmptyString
  | [piece] => piece
  | piece :: pieces => piece ++ String sep (py_join sep pieces)
  end.

(** ** Cusps in order *)

(** The cusps turn once around the circle: the sidereal cusps rise from
    each house to the next, except from house [w + 1] to the one after it,
    where they wrap past 360 degrees. *)
Definition cusps_turn_once (cusp_list : list Q) (ayanamsha : Q) : Prop :=
  exists w, (w < 12)%nat /\
    forall i, (i < 12)%nat -> i <> w ->
      sidereal_cusp cusp_list ayanamsha i <
      sidereal_cusp cusp_list ayanamsha (i + 1).

(** The intervals of the sub-lord walk that starts at the lord of index
    [idx]: the rotated lords with their rotated weights. *)
Definition vim_intervals (idx : nat) : list (string * Q) :=
  combine (rotate idx VIMSHOTTARI_ORDER) (rotate idx VIM_PROPORTIONS).

(** ** Records and the longitude they classify *)

(** The record [r] holds what the classifiers give for the sidereal
    longitude [sid] and the cusps [cusp_list]. *)
Definition planet_classified (cusp_list : list Q) (ayanamsha sid : Q)
  (r : planet_record) : Prop :=
  full_degree r = round6 sid /\
  norm_degree r = round6 (py_mod sid 30) /\
  sign_from_deg sid = Ok (sign_id r, sign_name r) /\
  dict_get SIGN_RULER (sign_id r) = Ok (sign_lord r) /\
  (exists pos_in_nak nak_size sub_lords,
      get_nak_charan_and_pos sid =
        Ok (nakshatra_id r, nakshatra_name r, nakshatra_lord r,
            nakshatra_charan r, pos_in_nak, nak_size) /\
      find_sub_lord_recursive pos_in_nak nak_size (nakshatra_lord r) 3 =
        Ok sub_lords /\
      sub_lord_fields sub_lords =
        Ok (sub_lord r, sub_sub_lord r, sub_sub_sub_lord r)) /\
  locate_house cusp_list ayanamsha sid = Ok (house r) /\
  house_lord_of cusp_list ayanamsha (house r) = Ok (house_lord r).

(** * Properties *)

(** ** Comparisons, floor and remainder on rationals *)

Lemma Qlt_bool_iff (a b : Q) : Qlt_bool a b = true <-> a < b.
Proof.
  unfold Qlt_bool. rewrite negb_true_iff.
  split; intro H.
  - apply Qnot_le_lt. intro Hle. apply Qle_bool_iff in Hle. congruence.
  - destruct (Qle_bool b a) eqn:E; [|reflexivity].
    apply Qle_bool_iff in E. exfalso. apply (Qlt_not_le _ _ H E).
Qed.

Lemma Qlt_bool_false_iff (a b : Q) : Qlt_bool a b = false <-> b <= a.
Proof.
  unfold Qlt_bool. rewrite negb_false_iff. apply Qle_bool_iff.
Qed.

Lemma Qle_bool_false_iff (a b : Q) : Qle_bool a b = false <-> b < a.
Proof.
  rewrite <- Qlt_bool_iff. unfold Qlt_bool.
  destruct (Qle_bool a b); simpl; split; congruence.
Qed.

Lemma Qfloor_bounds (x : Q) :
  inject_Z (Qfloor x) <= x /\ x < inject_Z (Qfloor x) + 1.
Proof.
  split; [apply Qfloor_le|].
  pose proof (Qlt_floor x) as H. rewrite inject_Z_plus in H. exact H.
Qed.

Lemma Qfloor_unique (x : Q) (k : Z) :
  inject_Z k <= x -> x < inject_Z k + 1 -> Qfloor x = k.
Proof.
  intros Hlo Hhi. destruct (Qfloor_bounds x) as [Flo Fhi].
  assert (H1 : inject_Z (Qfloor x) < inject_Z (k + 1)).
  { rewrite inject_Z_plus. apply Qle_lt_trans with x; assumption. }
  assert (H2 : inject_Z k < inject_Z (Qfloor x + 1)).
  { rewrite inject_Z_plus. apply Qle_lt_trans with x; assumption. }
  rewrite <- Zlt_Qlt in H1, H2. lia.
Qed.

Lemma Qdiv_cancel (a b : Q) : 0 < b -> b * (a / b) == a.
Proof.
  intro Hb. apply Qmult_div_r. intro E. rewrite E in Hb.
  exact (Qlt_irrefl 0 Hb).
Qed.

Lemma py_mod_bounds (a b : Q) : 0 < b -> 0 <= py_mod a b /\ py_mod a b < b.
Proof.
  intro Hb. unfold py_mod.
  destruct (Qfloor_bounds (a / b)) as [Flo Fhi].
  pose proof (Qdiv_cancel a b Hb) as Hq.
  set (q := a / b) in *. set (f := inject_Z (Qfloor q)) in *.
  split; nra.
Qed.

Lemma py_mod_small (a b : Q) : 0 <= a -> a < b -> py_mod a b == a.
Proof.
  intros Ha Hab. unfold py_mod.
  assert (Hb : 0 < b) by (apply Qle_lt_trans with a; assumption).
  assert (Hf : Qfloor (a / b) = 0%Z).
  { apply Qfloor_unique.
    - apply Qle_shift_div_l; [exact Hb|]. unfold inject_Z. lra.
    - apply Qlt_shift_div_r; [exact Hb|]. unfold inject_Z. lra. }
  rewrite Hf. change (inject_Z 0) with 0. lra.
Qed.

(** ** [normalize_angle] *)

#[global] Instance py_mod_Proper : Proper (Qeq ==> Qeq ==> Qeq) py_mod.
Proof.
  intros a a' Ha b b' Hb. unfold py_mod.
  assert (Hf : Qfloor (a / b) = Qfloor (a' / b')).
  { apply Qfloor_comp. rewrite Ha, Hb. reflexivity. }
  rewrite Hf, Ha, Hb. reflexivity.
Qed.

(** On exact numbers the remainder is never negative, so the
    [if a < 0] branch is not taken. *)
Lemma normalize_angle_mod (a : Q) : normalize_angle a = py_mod a 360.
Proof.
  unfold normalize_angle.
  destruct (Qlt_bool (py_mod a 360) 0) eqn:E; [|reflexivity].
  apply Qlt_bool_iff in E.
  destruct (py_mod_bounds a 360) as [H _]; [reflexivity|]. lra.
Qed.

#[global] Instance normalize_angle_Proper : Proper (Qeq ==> Qeq) normalize_angle.
Proof.
  intros a a' Ha. rewrite !normalize_angle_mod, Ha. reflexivity.
Qed.

Lemma normalize_angle_range (a : Q) :
  0 <= normalize_angle a /\ normalize_angle a < 360.
Proof.
  rewrite normalize_angle_mod. apply py_mod_bounds. reflexivity.
Qed.

Lemma normalize_angle_small (a : Q) :
  0 <= a -> a < 360 -> normalize_angle a == a.
Proof.
  intros H0 H1. rewrite normalize_angle_mod. apply py_mod_small; assumption.
Qed.

(** ** The retrograde test *)

Section Retrograde.

Variable calc_ut : Q -> swe_body -> Q.

Lemma is_retrograde_signed (jd : Q) (pconst : swe_body) (delta_days : Q) :
  is_retrograde calc_ut jd pconst delta_days =
  Qlt_bool (signed_change (calc_ut jd pconst) (calc_ut (jd + delta_days) pconst)) 0.
Proof. reflexivity. Qed.

(** The test is true exactly on the open half circle behind the body. *)
Lemma is_retrograde_iff_behind (jd : Q) (pconst : swe_body) (delta_days : Q) :
  is_retrograde calc_ut jd pconst delta_days = true <->
  180 < normalize_angle (calc_ut (jd + delta_days) pconst - calc_ut jd pconst).
Proof.
  unfold is_retrograde.
  set (d := normalize_angle _).
  destruct (normalize_angle_range
              (calc_ut (jd + delta_days) pconst - calc_ut jd pconst)) as [Hlo Hhi].
  fold d in Hlo, Hhi.
  destruct (Qlt_bool 180 d) eqn:E.
  - apply Qlt_bool_iff in E. rewrite Qlt_bool_iff. split; intro; lra.
  - apply Qlt_bool_false_iff in E. rewrite Qlt_bool_iff. split; intro; lra.
Qed.

End Retrograde.

Lemma signed_change_range (a b : Q) :
  -180 < signed_change a b /\ signed_change a b <= 180.
Proof.
  unfold signed_change.
  destruct (normalize_angle_range (b - a)) as [Hlo Hhi].
  destruct (Qlt_bool 180 (normalize_angle (b - a))) eqn:E.
  - apply Qlt_bool_iff in E. split; lra.
  - apply Qlt_bool_false_iff in E. split; lra.
Qed.

(** C7: the retrograde test is true exactly when the signed change
    [d = normalize(later - now)], taken as [d - 360] when [d > 180], is
    negative; samples 100 and 98 give the signed change -2 and retrograde. *)
Theorem is_retrograde_iff_negative_change :
  (forall (calc_ut : Q -> swe_body -> Q) jd pconst delta_days,
      let longitude_now := calc_ut jd pconst in
      let longitude_later := calc_ut (jd + delta_days) pconst in
      let d := normalize_angle (longitude_later - longitude_now) in
      (180 < d -> signed_change longitude_now longitude_later == d - 360) /\
      (d <= 180 -> signed_change longitude_now longitude_later == d) /\
      (is_retrograde calc_ut jd pconst delta_days = true <->
       signed_change longitude_now longitude_later < 0)) /\
  (forall (calc_ut : Q -> swe_body -> Q) jd pconst delta_days,
      calc_ut jd pconst = 100 ->
      calc_ut (jd + delta_days) pconst = 98 ->
      signed_change 100 98 == -2 /\
      is_retrograde calc_ut jd pconst delta_days = true).
Proof.
  split.
  - intros calc_ut jd pconst delta_days now later d.
    repeat split.
    + intro H. unfold signed_change. fold now later d.
      apply Qlt_bool_iff in H. rewrite H. reflexivity.
    + intro H. unfold signed_change. fold now later d.
      apply Qlt_bool_false_iff in H. rewrite H. reflexivity.
    + rewrite is_retrograde_signed. apply Qlt_bool_iff.
    + rewrite is_retrograde_signed. apply Qlt_bool_iff.
  - intros calc_ut jd pconst delta_days Hnow Hlater. split.
    + reflexivity.
    + rewrite is_retrograde_signed, Hnow, Hlater. reflexivity.
Qed.

(** A body at 100 degrees on day 0 and at 98 degrees two days later. *)
Lemma is_retrograde_iff_negative_change_witness :
  signed_change 100 98 == -2 /\
  is_retrograde (fun jd _ => 100 - jd) 0 MEAN_NODE 2 = true.
Proof.
  apply (proj2 is_retrograde_iff_negative_change
           (fun jd _ => 100 - jd) 0 MEAN_NODE 2); reflexivity.
Defined.

(** C10: when the normalized difference of the two samples is exactly 180,
    the test is false: half a circle counts as direct motion. *)
Theorem is_retrograde_half_circle_direct
  (calc_ut : Q -> swe_body -> Q) (jd : Q) (pconst : swe_body) (delta_days : Q) :
  normalize_angle (calc_ut (jd + delta_days) pconst - calc_ut jd pconst) == 180 ->
  is_retrograde calc_ut jd pconst delta_days = false.
Proof.
  intro H.
  destruct (is_retrograde calc_ut jd pconst delta_days) eqn:E; [|reflexivity].
  apply is_retrograde_iff_behind in E. rewrite H in E.
  exfalso. exact (Qlt_irrefl _ E).
Qed.

(** A body at 10 degrees on day 0 that moves 90 degrees a day. *)
Lemma is_retrograde_half_circle_direct_witness :
  normalize_angle ((10 + 90 * (0 + 2)) - (10 + 90 * 0)) == 180 /\
  is_retrograde (fun jd _ => 10 + 90 * jd) 0 SUN 2 = false.
Proof.
  split; [reflexivity|].
  apply (is_retrograde_half_circle_direct (fun jd _ => 10 + 90 * jd) 0 SUN 2).
  reflexivity.
Defined.

(** ** Sign and nakshatra of a longitude *)

Lemma Qfloor_div_iff (x b : Q) (k : Z) :
  0 < b ->
  Qfloor (x / b) = k <-> inject_Z k * b <= x /\ x < (inject_Z k + 1) * b.
Proof.
  intro Hb. split.
  - intro E. destruct (Qfloor_bounds (x / b)) as [Flo Fhi].
    rewrite E in Flo, Fhi. pose proof (Qdiv_cancel x b Hb) as Hq.
    set (q := x / b) in *. set (f := inject_Z k) in *. split; nra.
  - intros [Hlo Hhi]. apply Qfloor_unique.
    + apply Qle_shift_div_l; assumption.
    + apply Qlt_shift_div_r; assumption.
Qed.

Lemma Qfloor_div_range (x b : Q) (n : Z) :
  0 < b -> 0 <= x -> x < inject_Z n * b -> (0 <= Qfloor (x / b) < n)%Z.
Proof.
  intros Hb Hx Hn. split.
  - rewrite <- (Qfloor_Z 0). apply Qfloor_resp_le.
    apply Qle_shift_div_l; [exact Hb|]. unfold inject_Z. lra.
  - rewrite Zlt_Qlt. apply Qle_lt_trans with (x / b); [apply Qfloor_le|].
    apply Qlt_shift_div_r; assumption.
Qed.

Lemma py_getitem_ok {A : Type} (l : list A) (i : Z) :
  (0 <= i < Z.of_nat (List.length l))%Z ->
  exists a, py_getitem l i = Ok a /\ nth_error l (Z.to_nat i) = Some a.
Proof.
  intros [Hlo Hhi]. unfold py_getitem.
  destruct (i <? 0)%Z eqn:E1; [apply Z.ltb_lt in E1; lia|].
  rewrite E1. simpl.
  destruct (Z.of_nat (List.length l) <=? i)%Z eqn:E2; [apply Z.leb_le in E2; lia|].
  destruct (nth_error l (Z.to_nat i)) as [a|] eqn:E3.
  - exists a. split; reflexivity.
  - apply nth_error_None in E3. lia.
Qed.

Lemma sign_from_deg_index (longitude : Q) :
  0 <= longitude -> longitude < 360 ->
  exists name,
    sign_from_deg longitude = Ok ((Qfloor (longitude / 30) + 1)%Z, name) /\
    (0 <= Qfloor (longitude / 30) <= 11)%Z.
Proof.
  intros Hlo Hhi. unfold sign_from_deg, py_floordiv.
  assert (E : Qfloor (normalize_angle longitude / 30) = Qfloor (longitude / 30)).
  { apply Qfloor_comp. rewrite (normalize_angle_small _ Hlo Hhi). reflexivity. }
  rewrite E.
  assert (Hk : (0 <= Qfloor (longitude / 30) <= 11)%Z).
  { pose proof (Qfloor_div_range longitude 30 12 eq_refl Hlo Hhi). lia. }
  destruct (py_getitem_ok SIGN_NAMES (Qfloor (longitude / 30) + 1 - 1))
    as [name [Hn _]].
  { change (Z.of_nat (List.length SIGN_NAMES)) with 12%Z. lia. }
  exists name. rewrite Hn. cbn [bind]. split; [reflexivity | exact Hk].
Qed.

Lemma nakshatra_index (longitude : Q) :
  0 <= longitude -> longitude < 360 ->
  exists nak_name nak_lord charan pos_in_nak,
    get_nak_charan_and_pos longitude =
      Ok ((Qfloor (longitude / (360 / 27)) + 1)%Z, nak_name, nak_lord, charan,
          pos_in_nak, 360 / 27) /\
    (0 <= Qfloor (longitude / (360 / 27)) <= 26)%Z /\
    nth_error NAK_SHAPES (Z.to_nat (Qfloor (longitude / (360 / 27)))) =
      Some (nak_name, nak_lord) /\
    pos_in_nak == longitude - inject_Z (Qfloor (longitude / (360 / 27))) * (360 / 27).
Proof.
  intros Hlo Hhi. unfold get_nak_charan_and_pos, py_floordiv.
  change (py_div 360 27) with (Ok (360 / 27)). cbn [bind].
  set (nak_size := 360 / 27).
  assert (Hnak : 0 < nak_size) by reflexivity.
  assert (Hval : nak_size == 40 # 3) by reflexivity.
  assert (E : Qfloor (py_mod longitude 360 / nak_size) = Qfloor (longitude / nak_size)).
  { apply Qfloor_comp. rewrite (py_mod_small _ _ Hlo Hhi). reflexivity. }
  rewrite E. set (k := Qfloor (longitude / nak_size)).
  destruct (proj1 (Qfloor_div_iff longitude nak_size k Hnak) eq_refl) as [B1 B2].
  assert (Hk : (0 <= k <= 26)%Z).
  { assert (H27 : longitude < inject_Z 27 * nak_size).
    { rewrite Hval. unfold inject_Z. lra. }
    pose proof (Qfloor_div_range longitude nak_size 27 Hnak Hlo H27). lia. }
  destruct (27 <? k + 1)%Z eqn:E27; [apply Z.ltb_lt in E27; lia|].
  destruct (py_getitem_ok NAK_SHAPES (k + 1 - 1)) as [[nak_name nak_lord] [Hn Hnth]].
  { change (Z.of_nat (List.length NAK_SHAPES)) with 27%Z. lia. }
  rewrite Hn. cbn [bind].
  change (py_div nak_size 4) with (Ok (nak_size / 4)). cbn [bind].
  replace (k + 1 - 1)%Z with k in * by lia.
  assert (Hpos : Qlt_bool (py_mod longitude 360 - inject_Z k * nak_size) 0 = false).
  { apply Qlt_bool_false_iff. rewrite (py_mod_small _ _ Hlo Hhi). lra. }
  rewrite Hpos.
  eexists nak_name, nak_lord, _, _. split; [reflexivity|].
  split; [exact Hk|]. split; [exact Hnth|].
  rewrite (py_mod_small _ _ Hlo Hhi). reflexivity.
Qed.

(** The scenarios of the specification: longitude 0 is in Aries (lord
    Mars) and in Ashwini (lord Ketu), pada 1, and its chain starts with
    Ketu; longitude 356 is in Pisces and in Revati (lord Mercury). *)
Example scenario_longitude_zero :
  sign_from_deg 0 = Ok (1%Z, "Aries") /\
  dict_get SIGN_RULER 1 = Ok "Mars" /\
  get_nak_charan_and_pos 0 = Ok (1%Z, "Ashwini", "Ketu", 1%Z, 0 # 27, 360 # 27) /\
  find_sub_lord_recursive (0 # 27) (360 # 27) "Ketu" 3 = Ok ["Ketu"; "Ketu"; "Ketu"].
Proof. repeat split; vm_compute; reflexivity. Qed.

Example scenario_longitude_356 :
  sign_from_deg 356 = Ok (12%Z, "Pisces") /\
  get_nak_charan_and_pos 356 =
    Ok (27%Z, "Revati", "Mercury", 3%Z, 252 # 27, 360 # 27).
Proof. split; vm_compute; reflexivity. Qed.

(** ** The sub-lord walk *)

Lemma py_div_ok (a b : Q) : ~ b == 0 -> py_div a b = Ok (a / b).
Proof.
  intro Hb. unfold py_div.
  destruct (Qeq_bool b 0) eqn:E; [|reflexivity].
  apply Qeq_bool_iff in E. contradiction.
Qed.

Lemma py_index_In (x : string) (l : list string) :
  In x l -> exists i, py_index x l = Ok i /\ (i < List.length l)%nat.
Proof.
  induction l as [|y l IH]; intro Hin; [destruct Hin|].
  simpl. destruct (String.eqb_spec y x) as [E|N].
  - exists O. split; [reflexivity | simpl; lia].
  - destruct Hin as [E|Hin]; [contradiction|].
    destruct (IH Hin) as [i [Hi Hlt]]. exists (S i).
    rewrite Hi. split; [reflexivity | simpl; lia].
Qed.

Lemma In_rotate {A : Type} (idx : nat) (l : list A) (x : A) :
  In x (rotate idx l) <-> In x l.
Proof.
  unfold rotate. rewrite in_app_iff.
  rewrite <- (firstn_skipn idx l) at 3. rewrite in_app_iff. tauto.
Qed.

Lemma Forall_rotate {A : Type} (P : A -> Prop) (idx : nat) (l : list A) :
  Forall P l -> Forall P (rotate idx l).
Proof.
  rewrite !Forall_forall. intros H x Hx. apply H.
  apply (In_rotate idx). exact Hx.
Qed.

Lemma In_combine_fst {A B : Type} (l : list A) (l' : list B) (x : A) :
  In x (map fst (combine l l')) -> In x l.
Proof.
  rewrite in_map_iff. intros [[a b] [E Hin]]. simpl in E. subst a.
  exact (in_combine_l _ _ _ _ Hin).
Qed.

Lemma Forall_combine_snd {A : Type} (P : Q -> Prop) (l : list A) (l' : list Q) :
  Forall P l' -> Forall (fun z => P (snd z)) (combine l l').
Proof.
  rewrite !Forall_forall. intros H [a b] Hin. simpl.
  apply H. exact (in_combine_r _ _ _ _ Hin).
Qed.

(** The scan never raises on nonzero weights, and a lord it finds is one
    of the sequence. *)
Lemma sub_lord_scan_ok (cur_pos cumulative : Q) (zs : list (string * Q)) :
  Forall (fun z => ~ snd z == 0) zs ->
  exists hit, sub_lord_scan cur_pos cumulative zs = Ok hit /\
    forall lord cur_pos', hit = Some (lord, cur_pos') -> In lord (map fst zs).
Proof.
  intro Hnz. revert cumulative.
  induction Hnz as [|[lord prop] zs Hp Hnz IH]; intro cumulative.
  - exists None. split; [reflexivity | discriminate].
  - cbn [sub_lord_scan]. simpl in Hp.
    destruct (Qle_bool cur_pos (cumulative + prop)
              || Qlt_bool (Qabs (cur_pos - 1)) tolerance).
    + rewrite (py_div_ok _ _ Hp). cbn [bind].
      eexists. split; [reflexivity|].
      intros l c E. inversion E; subst. left. reflexivity.
    + destruct (IH (cumulative + prop)) as [hit [Hhit Hin]].
      exists hit. split; [exact Hhit|].
      intros l c E. right. exact (Hin l c E).
Qed.

(** Past [cumulative], a position that is at most the total weight is
    found in some interval. *)
Lemma sub_lord_scan_hit_from (cur_pos cumulative : Q) (zs : list (string * Q)) :
  Forall (fun z => 0 < snd z) zs ->
  cumulative < cur_pos ->
  cur_pos <= cumulative + Qsum (map snd zs) ->
  exists lord cur_pos',
    sub_lord_scan cur_pos cumulative zs = Ok (Some (lord, cur_pos')).
Proof.
  intro Hpos. revert cumulative.
  induction Hpos as [|[lord prop] zs Hp Hpos IH]; intros cumulative Hlt Hle.
  - simpl in Hle. lra.
  - cbn [sub_lord_scan]. simpl in Hp, Hle.
    destruct (Qle_bool cur_pos (cumulative + prop)) eqn:E.
    + rewrite orb_true_l, py_div_ok by lra. cbn [bind]. eauto.
    + apply Qle_bool_false_iff in E.
      destruct (Qlt_bool (Qabs (cur_pos - 1)) tolerance).
      * rewrite orb_true_r, py_div_ok by lra. cbn [bind]. eauto.
      * rewrite orb_false_l. apply IH; [exact E | lra].
Qed.

Lemma sub_lord_scan_hit (cur_pos : Q) (zs : list (string * Q)) :
  Forall (fun z => 0 < snd z) zs ->
  zs <> [] ->
  0 <= cur_pos ->
  cur_pos <= Qsum (map snd zs) ->
  exists lord cur_pos', sub_lord_scan cur_pos 0 zs = Ok (Some (lord, cur_pos')).
Proof.
  intros Hpos Hne H0 Hle.
  destruct zs as [|[lord prop] zs]; [congruence|].
  pose proof (Forall_inv Hpos) as Hp. simpl in Hp.
  cbn [sub_lord_scan].
  destruct (Qle_bool cur_pos (0 + prop)) eqn:E.
  - rewrite orb_true_l, py_div_ok by lra. cbn [bind]. eauto.
  - apply Qle_bool_false_iff in E.
    destruct (Qlt_bool (Qabs (cur_pos - 1)) tolerance).
    + rewrite orb_true_r, py_div_ok by lra. cbn [bind]. eauto.
    + rewrite orb_false_l.
      apply sub_lord_scan_hit_from;
        [exact (Forall_inv_tail Hpos) | exact E | simpl in Hle; lra].
Qed.

(** At position 0 the scan stops at the first entry. *)
Lemma sub_lord_scan_zero (cur_pos : Q) (lord : string) (prop : Q)
  (zs : list (string * Q)) :
  0 < prop -> cur_pos == 0 ->
  sub_lord_scan cur_pos 0 ((lord, prop) :: zs) =
    Ok (Some (lord, (cur_pos - 0) / prop)).
Proof.
  intros Hp H0. cbn [sub_lord_scan].
  assert (E : Qle_bool cur_pos (0 + prop) = true).
  { apply Qle_bool_iff. rewrite H0. lra. }
  rewrite E, orb_true_l, py_div_ok by lra. reflexivity.
Qed.

Lemma py_index_nth (x : string) (l : list string) (i : nat) :
  py_index x l = Ok i -> nth_error l i = Some x.
Proof.
  revert i. induction l as [|y l IH]; intros i H; [discriminate|].
  simpl in H. destruct (String.eqb_spec y x) as [E|N].
  - inversion H; subst. reflexivity.
  - destruct (py_index x l) as [j|e]; [|discriminate].
    inversion H; subst. simpl. apply IH. reflexivity.
Qed.

(** The levels loop never raises, keeps what was emitted, and emits at
    most one lord of the table per level. *)
Lemma sub_lord_levels_ok (VIM_ORDER : list string) (VIM_PROP : list Q) :
  Forall (fun p => ~ p == 0) VIM_PROP ->
  forall (levels : nat) (order : list string) (props : list Q) (cur_pos : Q)
         (lords : list string),
    Forall (fun l => In l VIM_ORDER) order ->
    Forall (fun p => ~ p == 0) props ->
    exists rest,
      sub_lord_levels levels VIM_ORDER VIM_PROP order props cur_pos lords =
        Ok (lords ++ rest)%list /\
      (List.length rest <= levels)%nat /\
      Forall (fun l => In l VIM_ORDER) rest.
Proof.
  intros Hnz levels.
  induction levels as [|levels IH]; intros order props cur_pos lords Hord Hprops.
  - exists []. rewrite app_nil_r. repeat split; [simpl; lia | constructor].
  - cbn [sub_lord_levels].
    destruct (sub_lord_scan_ok cur_pos 0 (combine order props))
      as [hit [Hhit Hin]].
    { apply (Forall_combine_snd (fun p => ~ p == 0)). exact Hprops. }
    rewrite Hhit. cbn [bind].
    destruct hit as [[lord cur_pos']|].
    + assert (Hl : In lord VIM_ORDER).
      { rewrite Forall_forall in Hord. apply Hord.
        apply (In_combine_fst order props). apply (Hin lord cur_pos' eq_refl). }
      destruct (py_index_In lord VIM_ORDER Hl) as [idx2 [Hidx _]].
      rewrite Hidx. cbn [bind].
      destruct (IH (rotate idx2 VIM_ORDER) (rotate idx2 VIM_PROP) cur_pos'
                  (lords ++ [lord])%list) as [rest [Hr [Hlen Hval]]].
      { apply Forall_forall. intros l Hlin. apply (In_rotate idx2). exact Hlin. }
      { apply Forall_rotate. exact Hnz. }
      exists (lord :: rest). rewrite Hr, <- app_assoc.
      repeat split; [simpl; lia | constructor; assumption].
    + destruct (IH order props cur_pos lords Hord Hprops) as [rest [Hr [Hlen Hval]]].
      exists rest. repeat split; [exact Hr | lia | exact Hval].
Qed.

Lemma VIM_PROPORTIONS_nonzero : Forall (fun p => ~ p == 0) VIM_PROPORTIONS.
Proof. repeat constructor; discriminate. Qed.

Lemma find_sub_lord_recursive_eq (pos_in_nak_deg nak_size : Q) (nak_lord : string)
  (levels idx : nat) :
  py_index nak_lord VIMSHOTTARI_ORDER = Ok idx ->
  ~ nak_size == 0 ->
  find_sub_lord_recursive pos_in_nak_deg nak_size nak_lord levels =
    sub_lord_levels levels VIMSHOTTARI_ORDER VIM_PROPORTIONS
      (rotate idx VIMSHOTTARI_ORDER) (rotate idx VIM_PROPORTIONS)
      (pos_in_nak_deg / nak_size) [].
Proof.
  intros Hidx Hn. unfold find_sub_lord_recursive.
  change (mapM _ _) with (Ok VIM_PROPORTIONS). cbn [bind].
  fold VIMSHOTTARI_ORDER. rewrite Hidx. cbn [bind].
  rewrite (py_div_ok _ _ Hn). reflexivity.
Qed.

(** Every rotation of the table has positive weights that sum to 1. *)
Lemma rotation_weights (idx : nat) :
  (idx < 9)%nat ->
  let zs := combine (rotate idx VIMSHOTTARI_ORDER) (rotate idx VIM_PROPORTIONS) in
  Forall (fun z => 0 < snd z) zs /\
  Qsum (map snd zs) == 1 /\
  exists prop tl,
    zs = (nth idx VIMSHOTTARI_ORDER "", prop) :: tl /\ 0 < prop /\ prop <= 1 # 6.
Proof.
  intro H.
  do 9 (destruct idx as [|idx];
        [vm_compute; split; [repeat constructor|];
         split; [reflexivity|];
         eexists _, _; split; [reflexivity|]; split; [reflexivity | discriminate]
        |]).
  lia.
Qed.

(** On a lord of the table and a nonzero span the function returns a
    chain of at most [levels] lords of the table. *)
Lemma find_sub_lord_recursive_chain (pos_in_nak_deg nak_size : Q)
  (nak_lord : string) (levels : nat) :
  In nak_lord VIMSHOTTARI_ORDER -> ~ nak_size == 0 ->
  exists lords,
    find_sub_lord_recursive pos_in_nak_deg nak_size nak_lord levels = Ok lords /\
    (List.length lords <= levels)%nat /\
    Forall (fun l => In l VIMSHOTTARI_ORDER) lords.
Proof.
  intros Hin Hn.
  destruct (py_index_In _ _ Hin) as [idx [Hidx _]].
  rewrite (find_sub_lord_recursive_eq _ _ _ _ _ Hidx Hn).
  destruct (sub_lord_levels_ok VIMSHOTTARI_ORDER VIM_PROPORTIONS
              VIM_PROPORTIONS_nonzero levels (rotate idx VIMSHOTTARI_ORDER)
              (rotate idx VIM_PROPORTIONS) (pos_in_nak_deg / nak_size) [])
    as [rest [Hr [Hlen Hval]]].
  - apply Forall_forall. intros l Hl. apply (In_rotate idx). exact Hl.
  - apply Forall_rotate. exact VIM_PROPORTIONS_nonzero.
  - exists rest. split; [exact Hr|]. split; assumption.
Qed.

(** With the position inside the span the first level always finds a lord. *)
Lemma find_sub_lord_recursive_first (pos_in_nak_deg nak_size : Q)
  (nak_lord : string) (levels : nat) :
  In nak_lord VIMSHOTTARI_ORDER ->
  0 <= pos_in_nak_deg -> pos_in_nak_deg <= nak_size -> 0 < nak_size ->
  exists lord rest,
    find_sub_lord_recursive pos_in_nak_deg nak_size nak_lord (S levels) =
      Ok (lord :: rest) /\
    (List.length rest <= levels)%nat /\
    Forall (fun l => In l VIMSHOTTARI_ORDER) (lord :: rest).
Proof.
  intros Hin H0 H1 Hn.
  destruct (py_index_In _ _ Hin) as [idx [Hidx Hlt]].
  rewrite (find_sub_lord_recursive_eq _ _ _ _ _ Hidx) by lra.
  destruct (rotation_weights idx Hlt) as [Hpos [Hsum _]].
  set (cur_pos := pos_in_nak_deg / nak_size).
  assert (Hc : 0 <= cur_pos /\ cur_pos <= 1).
  { unfold cur_pos. split.
    - apply Qle_shift_div_l; [exact Hn | lra].
    - apply Qle_shift_div_r; [exact Hn | lra]. }
  destruct (sub_lord_scan_hit cur_pos
              (combine (rotate idx VIMSHOTTARI_ORDER) (rotate idx VIM_PROPORTIONS)))
    as [lord [cur_pos' Hhit]].
  - exact Hpos.
  - destruct (rotation_weights idx Hlt) as [_ [_ [p [tl [E _]]]]].
    rewrite E. discriminate.
  - apply Hc.
  - rewrite Hsum. apply Hc.
  - cbn [sub_lord_levels]. rewrite Hhit. cbn [bind].
    assert (Hl : In lord VIMSHOTTARI_ORDER).
    { destruct (sub_lord_scan_ok cur_pos 0
                  (combine (rotate idx VIMSHOTTARI_ORDER) (rotate idx VIM_PROPORTIONS)))
        as [hit [Hhit' Hin']].
      { apply (Forall_impl (fun z => ~ snd z == 0)) with (2 := Hpos).
        intros z Hz E. rewrite E in Hz. exact (Qlt_irrefl _ Hz). }
      rewrite Hhit in Hhit'. inversion Hhit'; subst hit.
      apply (In_rotate idx). apply (In_combine_fst _ (rotate idx VIM_PROPORTIONS)).
      apply (Hin' lord cur_pos' eq_refl). }
    destruct (py_index_In _ _ Hl) as [idx2 [Hidx2 _]].
    rewrite Hidx2. cbn [bind].
    destruct (sub_lord_levels_ok VIMSHOTTARI_ORDER VIM_PROPORTIONS
                VIM_PROPORTIONS_nonzero levels (rotate idx2 VIMSHOTTARI_ORDER)
                (rotate idx2 VIM_PROPORTIONS) cur_pos' ([] ++ [lord])%list)
      as [rest [Hr [Hlen Hval]]].
    + apply Forall_forall. intros l Hlin. apply (In_rotate idx2). exact Hlin.
    + apply Forall_rotate. exact VIM_PROPORTIONS_nonzero.
    + exists lord, rest. split; [exact Hr|]. split; [exact Hlen|].
      constructor; assumption.
Qed.

(** At position 0 every level stops at the first entry of its rotation,
    which is the lord the rotation starts at. *)
Lemma sub_lord_levels_zero (L : string) (idx : nat) :
  py_index L VIMSHOTTARI_ORDER = Ok idx ->
  forall (levels : nat) (cur_pos : Q) (lords : list string),
    cur_pos == 0 ->
    sub_lord_levels levels VIMSHOTTARI_ORDER VIM_PROPORTIONS
      (rotate idx VIMSHOTTARI_ORDER) (rotate idx VIM_PROPORTIONS) cur_pos lords =
      Ok (lords ++ repeat L levels)%list.
Proof.
  intros Hidx.
  assert (Hlt : (idx < 9)%nat).
  { apply py_index_nth in Hidx.
    apply (proj1 (nth_error_Some VIMSHOTTARI_ORDER idx)). congruence. }
  destruct (rotation_weights idx Hlt) as [_ [_ [prop [tl [Hzs [Hp _]]]]]].
  assert (Hnth : nth idx VIMSHOTTARI_ORDER "" = L).
  { apply nth_error_nth. apply py_index_nth. exact Hidx. }
  rewrite Hnth in Hzs.
  induction levels as [|levels IH]; intros cur_pos lords H0.
  - simpl. rewrite app_nil_r. reflexivity.
  - cbn [sub_lord_levels]. rewrite Hzs.
    rewrite (sub_lord_scan_zero cur_pos L prop tl Hp H0). cbn [bind].
    rewrite Hidx. cbn [bind]. rewrite IH.
    + rewrite <- app_assoc. reflexivity.
    + rewrite H0. unfold Qdiv. ring.
Qed.

(** C3: with offset 0 and a positive span, the chain of a lord [L] of the
    table starts with [L] itself. *)
Theorem chain_at_offset_zero_starts_with_lord (L : string) (span_width : Q) :
  In L VIMSHOTTARI_ORDER -> 0 < span_width ->
  exists rest, find_sub_lord_recursive 0 span_width L 3 = Ok (L :: rest).
Proof.
  intros Hin Hspan.
  destruct (py_index_In _ _ Hin) as [idx [Hidx _]].
  rewrite (find_sub_lord_recursive_eq _ _ _ _ _ Hidx) by lra.
  rewrite (sub_lord_levels_zero L idx Hidx).
  - exists [L; L]. reflexivity.
  - unfold Qdiv. ring.
Qed.

(** The start of a nakshatra of Mars. *)
Lemma chain_at_offset_zero_starts_with_lord_witness :
  In "Mars" VIMSHOTTARI_ORDER /\ 0 < 360 / 27 /\
  exists rest, find_sub_lord_recursive 0 (360 / 27) "Mars" 3 = Ok ("Mars" :: rest).
Proof.
  split; [simpl; tauto|]. split; [reflexivity|].
  apply (chain_at_offset_zero_starts_with_lord "Mars" (360 / 27));
    [simpl; tauto | reflexivity].
Defined.

(** The three sub-lord entries of a record, on a chain that is not empty:
    the entries past the end of the chain are [None]. *)
Lemma sub_lord_fields_cons (lord : string) (rest : list string) :
  sub_lord_fields (lord :: rest) = Ok (lord, nth_error rest 0, nth_error rest 1).
Proof.
  unfold sub_lord_fields.
  change (py_getitem (lord :: rest) 0) with (Ok lord). cbn [bind].
  destruct rest as [|a rest].
  - reflexivity.
  - assert (E1 : (1 <? Z.of_nat (List.length (lord :: a :: rest)))%Z = true).
    { apply Z.ltb_lt. simpl List.length. lia. }
    rewrite E1.
    destruct (py_getitem_ok (lord :: a :: rest) 1) as [x [Hx Hn]].
    { simpl List.length. lia. }
    rewrite Hx. cbn [bind]. simpl in Hn. inversion Hn; subst x.
    destruct rest as [|b rest].
    + reflexivity.
    + assert (E2 : (2 <? Z.of_nat (List.length (lord :: a :: b :: rest)))%Z = true).
      { apply Z.ltb_lt. simpl List.length. lia. }
      rewrite E2.
      destruct (py_getitem_ok (lord :: a :: b :: rest) 2) as [y [Hy Hm]].
      { simpl List.length. lia. }
      rewrite Hy. cbn [bind]. simpl in Hm. inversion Hm; subst y.
      reflexivity.
Qed.

Lemma Qsum_pos_nonneg (zs : list (string * Q)) :
  Forall (fun z => 0 < snd z) zs -> 0 <= Qsum (map snd zs).
Proof.
  induction 1 as [|z zs Hz _ IH]; simpl; [discriminate | lra].
Qed.

(** A position beyond the total weight and away from 1 is found nowhere. *)
Lemma sub_lord_scan_miss (cur_pos cumulative : Q) (zs : list (string * Q)) :
  Forall (fun z => 0 < snd z) zs ->
  cumulative + Qsum (map snd zs) < cur_pos ->
  tolerance <= Qabs (cur_pos - 1) ->
  sub_lord_scan cur_pos cumulative zs = Ok None.
Proof.
  intros Hpos Hlt Htol. revert cumulative Hlt.
  induction Hpos as [|[lord prop] zs Hp Hpos IH]; intros cumulative Hlt.
  - reflexivity.
  - cbn [sub_lord_scan]. simpl in Hp, Hlt.
    pose proof (Qsum_pos_nonneg zs Hpos) as Hs.
    assert (E1 : Qle_bool cur_pos (cumulative + prop) = false).
    { apply Qle_bool_false_iff. lra. }
    assert (E2 : Qlt_bool (Qabs (cur_pos - 1)) tolerance = false).
    { apply Qlt_bool_false_iff. exact Htol. }
    rewrite E1, E2. cbn [orb]. apply IH. lra.
Qed.

(** Away from the tolerance, the lord found is the first entry whose
    cumulative weight reaches the position. *)
Lemma sub_lord_scan_first_cumulative (cur_pos cumulative : Q)
  (zs : list (string * Q)) (lord : string) (cur_pos' : Q) :
  Forall (fun z => ~ snd z == 0) zs ->
  tolerance <= Qabs (cur_pos - 1) ->
  sub_lord_scan cur_pos cumulative zs = Ok (Some (lord, cur_pos')) ->
  exists pre prop post,
    zs = (pre ++ (lord, prop) :: post)%list /\
    (pre <> [] -> cumulative + Qsum (map snd pre) < cur_pos) /\
    cur_pos <= cumulative + Qsum (map snd pre) + prop /\
    cur_pos' == (cur_pos - (cumulative + Qsum (map snd pre))) / prop.
Proof.
  intros Hnz Htol. revert cumulative.
  induction Hnz as [|[l p] zs Hp Hnz IH]; intros cumulative; [discriminate|].
  cbn [sub_lord_scan]. simpl in Hp.
  assert (E2 : Qlt_bool (Qabs (cur_pos - 1)) tolerance = false).
  { apply Qlt_bool_false_iff. exact Htol. }
  rewrite E2, orb_false_r.
  destruct (Qle_bool cur_pos (cumulative + p)) eqn:E1.
  - rewrite (py_div_ok _ _ Hp). cbn [bind]. intro H.
    injection H as Hl Hc. subst l cur_pos'.
    apply Qle_bool_iff in E1.
    exists [], p, zs. split; [reflexivity|]. split; [congruence|].
    cbn [map Qsum fold_right]. split; [lra|].
    apply Qdiv_comp; [ring | reflexivity].
  - intro H. apply Qle_bool_false_iff in E1.
    destruct (IH (cumulative + p) H) as [pre [prop [post [Hzs [Hlt [Hle Hc]]]]]].
    exists ((l, p) :: pre), prop, post.
    split; [rewrite Hzs; reflexivity|].
    cbn [map snd Qsum fold_right]. fold (Qsum (map snd pre)).
    split; [|split].
    + intros _. destruct pre as [|z pre].
      * cbn [map Qsum fold_right]. lra.
      * assert (Hne : z :: pre <> []) by discriminate.
        specialize (Hlt Hne). lra.
    + lra.
    + rewrite Hc. apply Qdiv_comp; [ring | reflexivity].
Qed.

(** When the scan finds nothing, no later level emits anything. *)
Lemma sub_lord_levels_miss (VIM_ORDER : list string) (VIM_PROP : list Q)
  (levels : nat) (order : list string) (props : list Q) (cur_pos : Q)
  (lords : list string) :
  sub_lord_scan cur_pos 0 (combine order props) = Ok None ->
  sub_lord_levels levels VIM_ORDER VIM_PROP order props cur_pos lords = Ok lords.
Proof.
  intro Hmiss. induction levels as [|levels IH]; [reflexivity|].
  cbn [sub_lord_levels]. rewrite Hmiss. cbn [bind]. exact IH.
Qed.

(** Within the tolerance of the top of the span the first level stops at
    the first entry of the rotation, and no later level emits a lord. *)
Lemma chain_near_top (pos_in_nak_deg nak_size : Q) (L : string) (levels : nat) :
  In L VIMSHOTTARI_ORDER -> 0 < nak_size ->
  Qabs (pos_in_nak_deg / nak_size - 1) < tolerance ->
  find_sub_lord_recursive pos_in_nak_deg nak_size L (S levels) = Ok [L].
Proof.
  intros Hin Hn Htol.
  destruct (py_index_In _ _ Hin) as [idx [Hidx Hlt]].
  rewrite (find_sub_lord_recursive_eq _ _ _ _ _ Hidx) by lra.
  destruct (rotation_weights idx Hlt) as [Hpos [Hsum [prop [tl [Hzs [Hp Hp6]]]]]].
  assert (Hnth : nth idx VIMSHOTTARI_ORDER "" = L).
  { apply nth_error_nth. apply py_index_nth. exact Hidx. }
  rewrite Hnth in Hzs.
  set (cur_pos := pos_in_nak_deg / nak_size) in *.
  cbn [sub_lord_levels]. rewrite Hzs. cbn [sub_lord_scan].
  rewrite (proj2 (Qlt_bool_iff _ _) Htol), orb_true_r, py_div_ok by lra.
  cbn [bind]. rewrite Hidx. cbn [bind].
  apply sub_lord_levels_miss. rewrite Hzs.
  apply Qabs_Qlt_condition in Htol. unfold tolerance in Htol.
  pose proof (Qdiv_cancel (cur_pos - 0) prop Hp) as Hq.
  set (cur_pos' := (cur_pos - 0) / prop) in *.
  assert (Hbig : 2 <= cur_pos') by nra.
  apply sub_lord_scan_miss.
  - rewrite <- Hzs. exact Hpos.
  - rewrite <- Hzs, Hsum. lra.
  - apply Qle_trans with (cur_pos' - 1); [unfold tolerance; lra | apply Qle_Qabs].
Qed.

(** C1: the chain can be shorter than [levels].  On the upper boundary of
    the first interval (offset 7 of a span of 120 under Ketu, inside the
    span) it has two entries, and at the top of the span it has one; the
    same on doubles. *)
Theorem chain_shorter_than_levels :
  find_sub_lord_recursive 7 120 "Ketu" 3 = Ok ["Ketu"; "Ketu"] /\
  find_sub_lord_recursive 120 120 "Ketu" 3 = Ok ["Ketu"] /\
  Binary64.find_sub_lord_recursive
    (Binary64.float_of_Z 7) (Binary64.float_of_Z 120) "Ketu" 3 = Ok ["Ketu"; "Ketu"] /\
  Binary64.find_sub_lord_recursive
    (Binary64.float_of_Z 120) (Binary64.float_of_Z 120) "Ketu" 3 = Ok ["Ketu"].
Proof. repeat split; vm_compute; reflexivity. Qed.

(** C2: a position within the tolerance of 1 is given to the first entry
    of the rotated sequence, not to the last.  Under Ketu the last entry
    is Mercury; at the top of the span, and just below it, the top-level
    sub-lord is Ketu, on rationals and on doubles; further below it is
    Mercury. *)
Theorem tolerance_selects_first_entry :
  last (rotate 0 VIMSHOTTARI_ORDER) "" = "Mercury" /\
  find_sub_lord_recursive 120 120 "Ketu" 3 = Ok ["Ketu"] /\
  find_sub_lord_recursive 9999999999 10000000000 "Ketu" 3 = Ok ["Ketu"] /\
  Binary64.find_sub_lord_recursive
    (Binary64.float_of_Z 120) (Binary64.float_of_Z 120) "Ketu" 3 = Ok ["Ketu"] /\
  Binary64.find_sub_lord_recursive
    (Binary64.float_of_Z 9999999999) (Binary64.float_of_Z 10000000000) "Ketu" 3 =
    Ok ["Ketu"] /\
  find_sub_lord_recursive 119 120 "Ketu" 1 = Ok ["Mercury"].
Proof. repeat split; vm_compute; reflexivity. Qed.

(** ** House placement *)

Lemma py_getitem_nth {A : Type} (l : list A) (i : nat) (d : A) :
  (i < List.length l)%nat -> py_getitem l (Z.of_nat i) = Ok (nth i l d).
Proof.
  intro Hi.
  destruct (py_getitem_ok l (Z.of_nat i)) as [a [Ha Hn]]; [lia|].
  rewrite Nat2Z.id in Hn. rewrite Ha. f_equal.
  symmetry. apply nth_error_nth. exact Hn.
Qed.

Lemma py_range_S (a : Z) (n : nat) :
  py_range a (S n) = a :: py_range (a + 1) n.
Proof.
  unfold py_range. cbn [seq map]. rewrite <- seq_shift, map_map.
  f_equal; [lia|]. apply map_ext. intro k. lia.
Qed.

(** The test of one interval, as the two branches of the loop make it. *)
Lemma interval_test_iff (start end_ longitude : Q) :
  (if Qle_bool start end_
   then Qle_bool start longitude && Qlt_bool longitude end_
   else Qle_bool start longitude || Qlt_bool longitude end_) = true <->
  in_circular_interval start end_ longitude.
Proof.
  unfold in_circular_interval.
  destruct (Qle_bool start end_) eqn:E.
  - apply Qle_bool_iff in E.
    rewrite andb_true_iff, Qle_bool_iff, Qlt_bool_iff.
    split; [intro H; split; [tauto | intro; lra] | intros [H _]; tauto].
  - apply Qle_bool_false_iff in E.
    rewrite orb_true_iff, Qle_bool_iff, Qlt_bool_iff.
    split; [intro H; split; [intro; lra | tauto] | intros [_ H]; tauto].
Qed.

Lemma house_scan_step (cusp_list : list Q) (ayanamsha pdeg : Q) (i : nat)
  (range : list Z) :
  List.length cusp_list = 12%nat -> (i < 12)%nat ->
  house_scan cusp_list ayanamsha pdeg (Z.of_nat i :: range) =
    if (if Qle_bool (sidereal_cusp cusp_list ayanamsha i)
                    (sidereal_cusp cusp_list ayanamsha (i + 1))
        then Qle_bool (sidereal_cusp cusp_list ayanamsha i) pdeg
             && Qlt_bool pdeg (sidereal_cusp cusp_list ayanamsha (i + 1))
        else Qle_bool (sidereal_cusp cusp_list ayanamsha i) pdeg
             || Qlt_bool pdeg (sidereal_cusp cusp_list ayanamsha (i + 1)))
    then Ok (Some (Z.of_nat i + 1)%Z)
    else house_scan cusp_list ayanamsha pdeg range.
Proof.
  intros Hlen Hi. cbn [house_scan].
  rewrite (py_getitem_nth cusp_list i 0) by lia. cbn [bind].
  replace ((Z.of_nat i + 1) mod 12)%Z with (Z.of_nat ((i + 1) mod 12)).
  2:{ rewrite Nat2Z.inj_mod. f_equal. lia. }
  rewrite (py_getitem_nth cusp_list ((i + 1) mod 12) 0).
  2:{ rewrite Hlen. apply Nat.mod_upper_bound. discriminate. }
  cbn [bind]. unfold sidereal_cusp.
  rewrite (Nat.mod_small i 12) by exact Hi.
  destruct (Qle_bool (normalize_angle _) (normalize_angle _)); reflexivity.
Qed.

(** The scan of [range(a, a + n)] returns the first house of the range
    whose interval holds the longitude, if there is one. *)
Lemma house_scan_first (cusp_list : list Q) (ayanamsha pdeg : Q) :
  List.length cusp_list = 12%nat ->
  forall (n a : nat), (a + n <= 12)%nat ->
    (exists i, (a <= i < a + n)%nat /\
       house_scan cusp_list ayanamsha pdeg (py_range (Z.of_nat a) n) =
         Ok (Some (Z.of_nat i + 1)%Z) /\
       in_house cusp_list ayanamsha pdeg i /\
       forall j, (a <= j < i)%nat -> ~ in_house cusp_list ayanamsha pdeg j) \/
    (house_scan cusp_list ayanamsha pdeg (py_range (Z.of_nat a) n) = Ok None /\
     forall j, (a <= j < a + n)%nat -> ~ in_house cusp_list ayanamsha pdeg j).
Proof.
  intros Hlen n. induction n as [|n IH]; intros a Ha.
  - right. split; [reflexivity | intros j Hj; lia].
  - rewrite py_range_S, (house_scan_step _ _ _ _ _ Hlen) by lia.
    replace (Z.of_nat a + 1)%Z with (Z.of_nat (a + 1)) by lia.
    pose proof (interval_test_iff (sidereal_cusp cusp_list ayanamsha a)
                  (sidereal_cusp cusp_list ayanamsha (a + 1)) pdeg) as Htest.
    fold (in_house cusp_list ayanamsha pdeg a) in Htest.
    destruct (if Qle_bool _ _ then _ else _) eqn:E.
    + left. exists a. split; [lia|]. split; [f_equal; f_equal; lia|].
      split; [apply Htest; reflexivity | intros j Hj; lia].
    + assert (Hno : ~ in_house cusp_list ayanamsha pdeg a).
      { intro H. apply Htest in H. discriminate. }
      destruct (IH (a + 1)%nat) as [[i [Hi [Hs [Hin Hfirst]]]] | [Hs Hnone]];
        [lia | left | right].
      * exists i. split; [lia|]. split; [exact Hs|]. split; [exact Hin|].
        intros j Hj. destruct (Nat.eq_dec j a) as [->|Hne]; [exact Hno|].
        apply Hfirst. lia.
      * split; [exact Hs|].
        intros j Hj. destruct (Nat.eq_dec j a) as [->|Hne]; [exact Hno|].
        apply Hnone. lia.
Qed.

(** With twelve cusps the loop and its default never raise: the result is
    the first house whose interval holds the longitude, else 12. *)
Lemma locate_house_spec (cusp_list : list Q) (ayanamsha longitude : Q) :
  List.length cusp_list = 12%nat ->
  exists house_no,
    locate_house cusp_list ayanamsha longitude = Ok house_no /\
    ((exists i, (i < 12)%nat /\ house_no = (Z.of_nat i + 1)%Z /\
        in_house cusp_list ayanamsha longitude i /\
        forall j, (j < i)%nat -> ~ in_house cusp_list ayanamsha longitude j) \/
     (house_no = 12%Z /\
      forall j, (j < 12)%nat -> ~ in_house cusp_list ayanamsha longitude j)).
Proof.
  intros Hlen. unfold locate_house.
  destruct (house_scan_first cusp_list ayanamsha longitude Hlen 12 0)
    as [[i [Hi [Hs [Hin Hfirst]]]] | [Hs Hnone]]; [lia | |].
  - change (Z.of_nat 0) with 0%Z in Hs. rewrite Hs. cbn [bind].
    eexists. split; [reflexivity|]. left. exists i.
    split; [lia|]. split; [reflexivity|]. split; [exact Hin|].
    intros j Hj. apply Hfirst. lia.
  - change (Z.of_nat 0) with 0%Z in Hs. rewrite Hs. cbn [bind].
    eexists. split; [reflexivity|]. right.
    split; [reflexivity|]. intros j Hj. apply Hnone. lia.
Qed.

(** C6: with twelve cusps, the house of a longitude in [[0, 360)] is the
    first [i] in 1..12 whose circular interval, from cusp [i] to cusp
    [i + 1], holds it ([start <= L < end] when [start <= end],
    [L >= start] or [L < end] when [start > end]), and 12 when no interval
    does; nothing is raised. *)
Theorem locate_house_first_matching_interval
  (cusp_list : list Q) (ayanamsha longitude : Q) :
  List.length cusp_list = 12%nat ->
  0 <= longitude -> longitude < 360 ->
  exists house_no,
    locate_house cusp_list ayanamsha longitude = Ok house_no /\
    ((exists i, (i < 12)%nat /\ house_no = (Z.of_nat i + 1)%Z /\
        in_house cusp_list ayanamsha longitude i /\
        forall j, (j < i)%nat -> ~ in_house cusp_list ayanamsha longitude j) \/
     (house_no = 12%Z /\
      forall j, (j < 12)%nat -> ~ in_house cusp_list ayanamsha longitude j)).
Proof.
  intros Hlen _ _. apply locate_house_spec. exact Hlen.
Qed.

(** The cusps of the specification's example, longitude 355: house 12,
    by the interval that wraps from cusp 12 (340) to cusp 1 (10). *)
Lemma locate_house_first_matching_interval_witness :
  (List.length [10; 40; 70; 100; 130; 160; 190; 220; 250; 280; 310; 340] = 12%nat /\
   0 <= 355 /\ 355 < 360) /\
  locate_house [10; 40; 70; 100; 130; 160; 190; 220; 250; 280; 310; 340] 0 355 =
    Ok 12%Z /\
  in_house [10; 40; 70; 100; 130; 160; 190; 220; 250; 280; 310; 340] 0 355 11.
Proof.
  split; [split; [reflexivity | split; [discriminate | reflexivity]]|].
  destruct (locate_house_first_matching_interval
              [10; 40; 70; 100; 130; 160; 190; 220; 250; 280; 310; 340] 0 355)
    as [house_no [Hh [[i [Hi [He [Hin _]]]] | [He Hnone]]]];
    [reflexivity | discriminate | reflexivity | |].
  - assert (E : house_no = 12%Z) by (vm_compute in Hh; congruence).
    assert (Ei : i = 11%nat) by lia. subst i.
    split; [rewrite Hh, E; reflexivity | exact Hin].
  - exfalso. apply (Hnone 11%nat); [lia|].
    apply interval_test_iff. reflexivity.
Defined.

(** Cusps that all coincide leave every interval empty: house 12. *)
Lemma locate_house_degenerate_default :
  locate_house (repeat 10 12) 0 355 = Ok 12%Z /\
  forall j, (j < 12)%nat -> ~ in_house (repeat 10 12) 0 355 j.
Proof.
  split; [reflexivity|].
  intros j Hj H. apply interval_test_iff in H.
  do 12 (destruct j as [|j]; [discriminate H|]). lia.
Qed.

(** ** Rounding to six decimals *)

Lemma Qlt_bool_comp (a a' b b' : Q) :
  a == a' -> b == b' -> Qlt_bool a b = Qlt_bool a' b'.
Proof.
  intros Ha Hb. unfold Qlt_bool. f_equal. apply Qleb_comp; assumption.
Qed.


(** ** The chart: the records of the planets loop *)

Lemma bind_Ok {A B : Type} (c : result A) (k : A -> result B) (b : B) :
  bind c k = Ok b -> exists a, c = Ok a /\ k a = Ok b.
Proof.
  destruct c as [a|e]; [|discriminate]. intro H. exists a. split; [reflexivity | exact H].
Qed.

(** Takes the next bind of a successful run apart. *)
Ltac bind_step H :=
  lazymatch type of H with
  | bind ?c ?k = Ok ?b =>
      let a := fresh "v" in
      let E := fresh "E" in
      destruct (bind_Ok c k b H) as [a [E ?]]; clear H;
      repeat match goal with
             | H' : context [let '(_, _) := ?x in _] |- _ => destruct x
             end
  end.

Section Chart.

Variable calc_ut : Q -> swe_body -> Q.
Variable houses : Q -> Q -> Q -> list Q.
Variables JD lat lon ayanamsha : Q.

Lemma planet_entry_fields (pconst : swe_body) (pname : string)
  (r : planet_record) (cusp_list : list Q) :
  planet_entry calc_ut houses JD lat lon ayanamsha (pconst, pname) =
    Ok (r, cusp_list) ->
  planet_name r = pname /\
  full_degree r =
    round6 (normalize_angle (normalize_angle (calc_ut JD pconst) - ayanamsha)) /\
  is_retro r = is_retrograde calc_ut JD pconst 2 /\
  cusp_list_of (houses JD lat lon) = Ok cusp_list.
Proof.
  unfold planet_entry. intro H.
  do 9 (match goal with H' : bind _ _ = Ok _ |- _ => bind_step H' end).
  match goal with H' : Ok _ = Ok _ |- _ => injection H' as Hr Hc end.
  subst r cusp_list. cbn [planet_name full_degree is_retro].
  repeat split. assumption.
Qed.

Lemma planet_entry_sub_lords (p : swe_body * string) (r : planet_record)
  (cusp_list : list Q) :
  planet_entry calc_ut houses JD lat lon ayanamsha p = Ok (r, cusp_list) ->
  exists pos_in_nak nak_size sub_lords,
    find_sub_lord_recursive pos_in_nak nak_size (nakshatra_lord r) 3 =
      Ok sub_lords /\
    sub_lord_fields sub_lords =
      Ok (sub_lord r, sub_sub_lord r, sub_sub_sub_lord r).
Proof.
  destruct p as [pconst pname]. unfold planet_entry. intro H.
  do 9 (match goal with H' : bind _ _ = Ok _ |- _ => bind_step H' end).
  match goal with H' : Ok _ = Ok _ |- _ => injection H' as Hr Hc end.
  subst r cusp_list.
  cbn [nakshatra_lord sub_lord sub_sub_lord sub_sub_sub_lord].
  eexists _, _, _. split; eassumption.
Qed.

Lemma planets_loop_entries (ps : list (swe_body * string)) :
  forall (out : list planet_record) (cusp_list : list Q)
         (out' : list planet_record) (cusp_list' : list Q),
    planets_loop calc_ut houses JD lat lon ayanamsha ps out cusp_list =
      Ok (out', cusp_list') ->
    exists recs,
      out' = (out ++ recs)%list /\
      Forall2 (fun p r => exists c,
                 planet_entry calc_ut houses JD lat lon ayanamsha p = Ok (r, c))
              ps recs /\
      (ps <> [] -> cusp_list_of (houses JD lat lon) = Ok cusp_list').
Proof.
  induction ps as [|p ps IH]; intros out cusp_list out' cusp_list'.
  - intro H. simpl in H. inversion H; subst. exists [].
    rewrite app_nil_r. split; [reflexivity|]. split; [constructor | congruence].
  - cbn [planets_loop]. intro H.
    apply bind_Ok in H. destruct H as [[r c] [E H]].
    destruct (IH _ _ _ _ H) as [recs [Hout [Hall Hcusp]]].
    exists (r :: recs). rewrite Hout, <- app_assoc.
    split; [reflexivity|]. split.
    + constructor; [exists c; exact E | exact Hall].
    + intros _. destruct ps as [|q ps].
      * simpl in H. inversion H; subst.
        destruct p as [pconst pname].
        apply (planet_entry_fields pconst pname r cusp_list'). exact E.
      * apply Hcusp. discriminate.
Qed.

End Chart.

(** C9: for an offset in [[0, span_width)] the chain is not empty, so
    [sub_lords[0]] succeeds; on a chain that is not empty the three record
    entries are the first three entries of the chain, [None] past its end,
    and nothing is raised; the entries of a planet's record are made this
    way from the chain of its nakshatra lord. *)
Theorem chain_nonempty_and_missing_levels_none :
  (forall (offset_in_span span_width : Q) (L : string),
      In L VIMSHOTTARI_ORDER ->
      0 <= offset_in_span -> offset_in_span < span_width ->
      exists lord rest,
        find_sub_lord_recursive offset_in_span span_width L 3 = Ok (lord :: rest) /\
        py_getitem (lord :: rest) 0 = Ok lord) /\
  (forall sub_lords : list string,
      sub_lords <> [] ->
      exists s0 s1 s2,
        sub_lord_fields sub_lords = Ok (s0, s1, s2) /\
        nth_error sub_lords 0 = Some s0 /\
        s1 = nth_error sub_lords 1 /\
        s2 = nth_error sub_lords 2 /\
        ((List.length sub_lords < 2)%nat -> s1 = None) /\
        ((List.length sub_lords < 3)%nat -> s2 = None)) /\
  (forall calc_ut houses JD lat lon ayanamsha p r cusp_list,
      planet_entry calc_ut houses JD lat lon ayanamsha p = Ok (r, cusp_list) ->
      exists pos_in_nak nak_size sub_lords,
        find_sub_lord_recursive pos_in_nak nak_size (nakshatra_lord r) 3 =
          Ok sub_lords /\
        sub_lord_fields sub_lords =
          Ok (sub_lord r, sub_sub_lord r, sub_sub_sub_lord r)).
Proof.
  split; [|split].
  - intros offset_in_span span_width L Hin H0 H1.
    destruct (find_sub_lord_recursive_first offset_in_span span_width L 2 Hin)
      as [lord [rest [Hf _]]]; [lra | lra | lra |].
    exists lord, rest. split; [exact Hf | reflexivity].
  - intros [|lord rest] Hne; [congruence|].
    exists lord, (nth_error rest 0), (nth_error rest 1).
    split; [apply sub_lord_fields_cons|].
    split; [reflexivity|]. split; [reflexivity|]. split; [reflexivity|].
    split; intro Hlen.
    + destruct rest; [reflexivity | simpl in Hlen; lia].
    + destruct rest as [|a [|b rest]]; [reflexivity | reflexivity |].
      simpl in Hlen. lia.
  - intros calc_ut houses JD lat lon ayanamsha p r cusp_list.
    apply planet_entry_sub_lords.
Qed.

(** A position on the boundary of the first interval: the chain has two
    entries. *)
Lemma chain_nonempty_and_missing_levels_none_witness :
  (In "Ketu" VIMSHOTTARI_ORDER /\ 0 <= 7 /\ 7 < 120) /\
  exists lord rest,
    find_sub_lord_recursive 7 120 "Ketu" 3 = Ok (lord :: rest) /\
    py_getitem (lord :: rest) 0 = Ok lord.
Proof.
  split; [split; [simpl; tauto | split; [discriminate | reflexivity]]|].
  apply (proj1 chain_nonempty_and_missing_levels_none 7 120 "Ketu");
    [simpl; tauto | discriminate | reflexivity].
Defined.

Section ChartRahu.

Variable calc_ut : Q -> swe_body -> Q.
Variable houses : Q -> Q -> Q -> list Q.
Variables JD lat lon ayanamsha : Q.

(** The search for Rahu among the records of the planets loop finds the
    record of the mean node. *)
Lemma planets_find_rahu (recs : list planet_record) :
  Forall2 (fun p r => exists c,
             planet_entry calc_ut houses JD lat lon ayanamsha p = Ok (r, c))
          PLANETS recs ->
  exists rahu c,
    find (fun p => String.eqb (planet_name p) "Rahu") recs = Some rahu /\
    In rahu recs /\
    planet_entry calc_ut houses JD lat lon ayanamsha (MEAN_NODE, "Rahu") =
      Ok (rahu, c).
Proof.
  intro H. unfold PLANETS in H.
  repeat match goal with
         | H' : Forall2 _ (_ :: _) _ |- _ => inversion H'; subst; clear H'
         | H' : Forall2 _ [] _ |- _ => inversion H'; subst; clear H'
         | H' : exists c, planet_entry _ _ _ _ _ _ _ = Ok _ |- _ =>
             let c := fresh "c" in
             let E := fresh "E" in
             destruct H' as [c E];
             pose proof (proj1 (planet_entry_fields _ _ _ _ _ _ _ _ _ _ E))
         end.
  cbn [find].
  repeat match goal with
         | Hn : planet_name _ = _ |- _ => rewrite Hn; clear Hn
         end.
  cbn [String.eqb Ascii.eqb Bool.eqb].
  eexists _, _. split; [reflexivity|]. split; [|eassumption].
  simpl. tauto.
Qed.

End ChartRahu.

(** ** The classifiers on canonical longitudes *)

Lemma mapM_ok {A B : Type} (f : A -> result B) (l : list A) :
  (forall a, In a l -> exists b, f a = Ok b) ->
  exists bs, mapM f l = Ok bs /\ List.length bs = List.length l.
Proof.
  induction l as [|a l IH]; intro H.
  - exists []. split; reflexivity.
  - destruct (H a (or_introl eq_refl)) as [b Hb].
    destruct IH as [bs [Hbs Hlen]]; [intros x Hx; apply H; right; exact Hx|].
    exists (b :: bs). cbn [mapM]. rewrite Hb. cbn [bind]. rewrite Hbs.
    split; [reflexivity | simpl; lia].
Qed.

Lemma In_py_range (a : Z) (n : nat) (i : Z) :
  In i (py_range a n) -> (a <= i < a + Z.of_nat n)%Z.
Proof.
  unfold py_range. rewrite in_map_iff. intros [k [E Hk]].
  apply in_seq in Hk. lia.
Qed.

Lemma cusp_list_of_ok (cusps : list Q) :
  List.length cusps = 12%nat \/ List.length cusps = 13%nat ->
  exists cusp_list,
    cusp_list_of cusps = Ok cusp_list /\ List.length cusp_list = 12%nat.
Proof.
  intros [H|H]; unfold cusp_list_of; rewrite H; cbn [Nat.eqb].
  - destruct (mapM_ok (py_getitem cusps) (py_range 0 12)) as [bs [Hbs Hlen]].
    + intros i Hi. apply In_py_range in Hi.
      destruct (py_getitem_ok cusps i) as [x [Hx _]]; [lia | eauto].
    + exists bs. split; [exact Hbs | rewrite Hlen; reflexivity].
  - destruct (mapM_ok (py_getitem cusps) (py_range 1 12)) as [bs [Hbs Hlen]].
    + intros i Hi. apply In_py_range in Hi.
      destruct (py_getitem_ok cusps i) as [x [Hx _]]; [lia | eauto].
    + exists bs. split; [exact Hbs | rewrite Hlen; reflexivity].
Qed.

Lemma sign_from_deg_ok (deg : Q) :
  exists sign_idx sign_name,
    sign_from_deg deg = Ok (sign_idx, sign_name) /\ (1 <= sign_idx <= 12)%Z.
Proof.
  unfold sign_from_deg, py_floordiv.
  destruct (normalize_angle_range deg) as [Hlo Hhi].
  pose proof (Qfloor_div_range (normalize_angle deg) 30 12 eq_refl Hlo Hhi) as Hk.
  destruct (py_getitem_ok SIGN_NAMES (Qfloor (normalize_angle deg / 30) + 1 - 1))
    as [name [Hn _]].
  { change (Z.of_nat (List.length SIGN_NAMES)) with 12%Z. lia. }
  rewrite Hn. cbn [bind]. eexists _, _. split; [reflexivity | lia].
Qed.

Lemma SIGN_RULER_ok (sign_id : Z) :
  (1 <= sign_id <= 12)%Z -> exists lord, dict_get SIGN_RULER sign_id = Ok lord.
Proof.
  intro H.
  assert (C : (sign_id = 1 \/ sign_id = 2 \/ sign_id = 3 \/ sign_id = 4 \/
               sign_id = 5 \/ sign_id = 6 \/ sign_id = 7 \/ sign_id = 8 \/
               sign_id = 9 \/ sign_id = 10 \/ sign_id = 11 \/ sign_id = 12)%Z)
    by lia.
  repeat (destruct C as [C|C]; [subst; eexists; reflexivity|]).
  subst. eexists. reflexivity.
Qed.

Lemma NAK_SHAPES_lords :
  Forall (fun nak => In (snd nak) VIMSHOTTARI_ORDER) NAK_SHAPES.
Proof.
  apply Forall_forall. intros nak Hin. simpl in Hin.
  repeat (destruct Hin as [<-|Hin];
          [cbn [snd]; repeat (first [left; reflexivity | right])|]).
  destruct Hin.
Qed.

(** The nakshatra of a canonical longitude: its lord is in the table and
    the position lies inside the span. *)
Lemma get_nak_charan_and_pos_ok (longitude : Q) :
  0 <= longitude -> longitude < 360 ->
  exists nak_index nak_name nak_lord charan pos_in_nak nak_size,
    get_nak_charan_and_pos longitude =
      Ok (nak_index, nak_name, nak_lord, charan, pos_in_nak, nak_size) /\
    In nak_lord VIMSHOTTARI_ORDER /\
    0 <= pos_in_nak /\ pos_in_nak < nak_size.
Proof.
  intros Hlo Hhi.
  destruct (nakshatra_index longitude Hlo Hhi)
    as [nak_name [nak_lord [charan [pos [Hn [Hk [Hnth Hpos]]]]]]].
  eexists _, nak_name, nak_lord, charan, pos, _. split; [exact Hn|].
  split.
  - pose proof NAK_SHAPES_lords as Hall. rewrite Forall_forall in Hall.
    apply (Hall (nak_name, nak_lord)). eapply nth_error_In. exact Hnth.
  - destruct (proj1 (Qfloor_div_iff longitude (360 / 27) _ eq_refl) eq_refl)
      as [B1 B2].
    rewrite Hpos. split; lra.
Qed.

Lemma house_lord_of_ok (cusp_list : list Q) (ayanamsha : Q) (house_no : Z) :
  List.length cusp_list = 12%nat -> (1 <= house_no <= 12)%Z ->
  exists lord, house_lord_of cusp_list ayanamsha house_no = Ok lord.
Proof.
  intros Hlen Hh. unfold house_lord_of, py_floordiv.
  destruct (py_getitem_ok cusp_list (house_no - 1)) as [c [Hc _]]; [lia|].
  rewrite Hc. cbn [bind].
  destruct (normalize_angle_range (c - ayanamsha)) as [Hlo Hhi].
  pose proof (Qfloor_div_range _ 30 12 eq_refl Hlo Hhi) as Hk.
  apply SIGN_RULER_ok. lia.
Qed.

Lemma locate_house_ok (cusp_list : list Q) (ayanamsha longitude : Q) :
  List.length cusp_list = 12%nat ->
  exists house_no,
    locate_house cusp_list ayanamsha longitude = Ok house_no /\
    (1 <= house_no <= 12)%Z.
Proof.
  intro Hlen.
  destruct (locate_house_spec cusp_list ayanamsha longitude Hlen)
    as [h [Hh [[i [Hi [E _]]] | [E _]]]]; exists h; (split; [exact Hh | lia]).
Qed.

(** Sign, sign lord, nakshatra, chain and record entries of a normalized
    longitude: none of the steps raises. *)
Lemma classification_ok (x : Q) :
  exists sign_id sign_name sign_lord nak_idx nak_name nak_lord charan
         pos_in_nak nak_size sub_lords s0 s1 s2,
    sign_from_deg (normalize_angle x) = Ok (sign_id, sign_name) /\
    dict_get SIGN_RULER sign_id = Ok sign_lord /\
    get_nak_charan_and_pos (normalize_angle x) =
      Ok (nak_idx, nak_name, nak_lord, charan, pos_in_nak, nak_size) /\
    find_sub_lord_recursive pos_in_nak nak_size nak_lord 3 = Ok sub_lords /\
    sub_lord_fields sub_lords = Ok (s0, s1, s2).
Proof.
  destruct (normalize_angle_range x) as [Hlo Hhi].
  destruct (sign_from_deg_ok (normalize_angle x)) as [sid [sname [Hs Hr]]].
  destruct (SIGN_RULER_ok sid Hr) as [slord Hl].
  destruct (get_nak_charan_and_pos_ok (normalize_angle x) Hlo Hhi)
    as [ni [nn [nl [ch [pos [size [Hn [Hin [Hp0 Hp1]]]]]]]]].
  destruct (find_sub_lord_recursive_first pos size nl 2 Hin)
    as [lord [rest [Hf _]]]; [lra | lra | lra |].
  exists sid, sname, slord, ni, nn, nl, ch, pos, size, (lord :: rest),
    lord, (nth_error rest 0), (nth_error rest 1).
  repeat split; try assumption. apply sub_lord_fields_cons.
Qed.

(** * The code on doubles *)

(** The statements of this part are about the functions as they compute
    on IEEE doubles, with Python's rounding of [%], [//], [int] and
    [round]. *)

Module OnDoubles.

Import PrimFloat.
Import Binary64.
Import Binary64Chart.
Local Open Scope float_scope.

(** ** [normalize_angle] *)

(** C4: on doubles [normalize_angle] can return 360.0, and it is not
    idempotent.  For the negative angle [-1e-20] the remainder [fmod] is
    the angle itself, the divisor 360.0 is added to give it the sign of
    the divisor, and the sum rounds to 360.0; normalising 360.0 gives
    0.0. *)
Theorem normalize_angle_returns_360 :
  normalize_angle tiny_negative = Ok 360 /\
  normalize_angle 360 = Ok 0 /\
  (r <- normalize_angle tiny_negative ;; normalize_angle r) <>
    normalize_angle tiny_negative.
Proof.
  split; [vm_compute; reflexivity|]. split; [vm_compute; reflexivity|].
  vm_compute. discriminate.
Qed.

(** With 360.0 for the normalised angle, the sign index is 13:
    [sign_from_deg] raises [IndexError] on a tiny negative angle, and
    so does the lookup of a house lord raise [KeyError] for a cusp just
    below the ayanamsha. *)
Lemma sign_from_deg_tiny_negative :
  sign_from_deg tiny_negative = Raise IndexError /\
  house_lord_of (edge_houses 1 0 0) 24 1 = Raise KeyError.
Proof. split; vm_compute; reflexivity. Qed.

(** ** Sign and nakshatra of a longitude *)

(** C5: the sign index is [floor(longitude / 30) + 1] also on doubles
    (120 degrees is the start of Leo), but the nakshatra index is not
    [floor(longitude / (360/27)) + 1] at the boundaries.  The double
    [360.0 / 27.0] is greater than 13 degrees 20 minutes, so that the
    boundaries at 40 and at 120 degrees, which start nakshatras 4 and 10,
    are given to the last pada of nakshatras 3 and 9. *)
Theorem nakshatra_boundary_in_previous_nakshatra :
  (Qfloor (120 / (360 / 27)) + 1 = 10)%Z /\
  (Qfloor (40 / (360 / 27)) + 1 = 4)%Z /\
  sign_from_deg 120 = Ok (5%Z, "Leo"%string) /\
  (exists pos_in_nak nak_size,
      get_nak_charan_and_pos 120 =
        Ok (9%Z, "Ashlesha"%string, "Mercury"%string, 4%Z, pos_in_nak, nak_size)) /\
  (exists pos_in_nak nak_size,
      get_nak_charan_and_pos 40 =
        Ok (3%Z, "Krittika"%string, "Sun"%string, 4%Z, pos_in_nak, nak_size)).
Proof.
  split; [reflexivity|]. split; [reflexivity|].
  split; [vm_compute; reflexivity|].
  split; eexists _, _; vm_compute; reflexivity.
Qed.

(** ** The chart: Ketu from Rahu *)

Section Chart.

Variable calc_ut : float -> swe_body -> float.
Variable houses : float -> float -> float -> list float.
Variables JD lat lon ayanamsha : float.




End Chart.





(** The chart is not returned for every ephemeris with twelve cusps: a
    first cusp one unit in the last place below the ayanamsha has the
    sidereal longitude 360.0, and the house lord of the bodies in house 1
    raises [KeyError]. *)
Lemma compute_kp_json_edge_cusp :
  compute_kp_json example_calc_ut edge_houses example_ayanamsa 1 0 0 =
    Raise KeyError.
Proof. vm_compute. reflexivity. Qed.

End OnDoubles.

(** * Further properties of the code *)

(** ** Angles *)

Lemma Qfloor_add_Z (x : Q) (k : Z) : Qfloor (x + inject_Z k) = (Qfloor x + k)%Z.
Proof.
  destruct (Qfloor_bounds x) as [Hlo Hhi].
  apply Qfloor_unique; rewrite inject_Z_plus; lra.
Qed.

Lemma py_mod_periodic (x b : Q) (k : Z) :
  0 < b -> py_mod (x + b * inject_Z k) b == py_mod x b.
Proof.
  intro Hb. unfold py_mod.
  assert (E : (x + b * inject_Z k) / b == x / b + inject_Z k) by (field; lra).
  rewrite (Qfloor_comp _ _ E), Qfloor_add_Z, inject_Z_plus. ring.
Qed.

Lemma normalize_angle_turns (x : Q) (k : Z) :
  normalize_angle (x + 360 * inject_Z k) == normalize_angle x.
Proof.
  rewrite !normalize_angle_mod. apply py_mod_periodic. reflexivity.
Qed.

(** X1: [normalize_angle] has period 360: whole turns added to the angle
    do not change the result. *)
Theorem normalize_angle_periodic (x : Q) (k : Z) :
  normalize_angle (x + 360 * inject_Z k) == normalize_angle x.
Proof. exact (normalize_angle_turns x k). Qed.

Lemma py_mod_decompose (x b : Q) :
  x == py_mod x b + b * inject_Z (Qfloor (x / b)).
Proof. unfold py_mod. ring. Qed.

Lemma normalize_angle_add_normalized (a b : Q) :
  normalize_angle (normalize_angle a + b) == normalize_angle (a + b).
Proof.
  rewrite (normalize_angle_mod a).
  rewrite (py_mod_decompose a 360) at 2.
  set (r := py_mod a 360). set (k := Qfloor (a / 360)).
  assert (E : r + 360 * inject_Z k + b == (r + b) + 360 * inject_Z k) by ring.
  rewrite E. symmetry. apply normalize_angle_turns.
Qed.

(** ** Signs *)

Lemma sign_from_deg_eq (deg : Q) :
  exists sign_name,
    sign_from_deg deg =
      Ok ((Qfloor (normalize_angle deg / 30) + 1)%Z, sign_name) /\
    nth_error SIGN_NAMES (Z.to_nat (Qfloor (normalize_angle deg / 30))) =
      Some sign_name /\
    (0 <= Qfloor (normalize_angle deg / 30) <= 11)%Z.
Proof.
  unfold sign_from_deg, py_floordiv.
  destruct (normalize_angle_range deg) as [Hlo Hhi].
  pose proof (Qfloor_div_range (normalize_angle deg) 30 12 eq_refl Hlo Hhi) as Hk.
  destruct (py_getitem_ok SIGN_NAMES (Qfloor (normalize_angle deg / 30) + 1 - 1))
    as [name [Hn Hnth]].
  { change (Z.of_nat (List.length SIGN_NAMES)) with 12%Z. lia. }
  rewrite Hn. cbn [bind]. exists name. split; [reflexivity|].
  replace (Qfloor (normalize_angle deg / 30) + 1 - 1)%Z
    with (Qfloor (normalize_angle deg / 30)) in Hnth by lia.
  split; [exact Hnth | lia].
Qed.

(** ** Nakshatra and pada *)

(** What [get_nak_charan_and_pos] returns on any angle, with
    [s = sid_deg mod 360], [k = floor(s / nak_size)] and
    [c = floor(pos_in_nak / pada_size)]. *)
Lemma get_nak_charan_and_pos_eq (sid_deg : Q) :
  exists nak_name nak_lord pos_in_nak,
    get_nak_charan_and_pos sid_deg =
      Ok ((Qfloor (py_mod sid_deg 360 / (360 / 27)) + 1)%Z, nak_name, nak_lord,
          (Qfloor (pos_in_nak / (360 / 27 / 4)) + 1)%Z, pos_in_nak, 360 / 27) /\
    (0 <= Qfloor (py_mod sid_deg 360 / (360 / 27)) <= 26)%Z /\
    nth_error NAK_SHAPES (Z.to_nat (Qfloor (py_mod sid_deg 360 / (360 / 27)))) =
      Some (nak_name, nak_lord) /\
    pos_in_nak ==
      py_mod sid_deg 360 -
      inject_Z (Qfloor (py_mod sid_deg 360 / (360 / 27))) * (360 / 27) /\
    0 <= pos_in_nak /\ pos_in_nak < 360 / 27 /\
    (0 <= Qfloor (pos_in_nak / (360 / 27 / 4)) <= 3)%Z.
Proof.
  unfold get_nak_charan_and_pos, py_floordiv.
  change (py_div 360 27) with (Ok (360 / 27)). cbn [bind].
  destruct (py_mod_bounds sid_deg 360 eq_refl) as [Hlo Hhi].
  set (s := py_mod sid_deg 360) in *.
  set (nak_size := 360 / 27).
  assert (Hnak : 0 < nak_size) by reflexivity.
  assert (Hval : nak_size == 40 # 3) by reflexivity.
  set (k := Qfloor (s / nak_size)).
  destruct (proj1 (Qfloor_div_iff s nak_size k Hnak) eq_refl) as [B1 B2].
  assert (Hk : (0 <= k <= 26)%Z).
  { assert (H27 : s < inject_Z 27 * nak_size).
    { rewrite Hval. unfold inject_Z. lra. }
    pose proof (Qfloor_div_range s nak_size 27 Hnak Hlo H27). lia. }
  destruct (27 <? k + 1)%Z eqn:E27; [apply Z.ltb_lt in E27; lia|].
  destruct (py_getitem_ok NAK_SHAPES (k + 1 - 1)) as [[nak_name nak_lord] [Hn Hnth]].
  { change (Z.of_nat (List.length NAK_SHAPES)) with 27%Z. lia. }
  rewrite Hn. cbn [bind].
  change (py_div nak_size 4) with (Ok (nak_size / 4)). cbn [bind].
  replace (k + 1 - 1)%Z with k in * by lia.
  assert (Hpos : Qlt_bool (s - inject_Z k * nak_size) 0 = false).
  { apply Qlt_bool_false_iff. lra. }
  rewrite Hpos.
  set (pos := s - inject_Z k * nak_size) in *.
  assert (Hp : 0 <= pos /\ pos < nak_size) by (unfold pos; split; lra).
  assert (Hc : (0 <= Qfloor (pos / (nak_size / 4)) < 4)%Z).
  { apply Qfloor_div_range; [reflexivity | apply Hp |].
    assert (E : inject_Z 4 * (nak_size / 4) == nak_size)
      by (unfold inject_Z; field).
    rewrite E. apply Hp. }
  destruct (4 <? Qfloor (pos / (nak_size / 4)) + 1)%Z eqn:E4;
    [apply Z.ltb_lt in E4; lia|].
  exists nak_name, nak_lord, pos.
  split; [reflexivity|]. split; [exact Hk|]. split; [exact Hnth|].
  split; [reflexivity|]. split; [apply Hp|]. split; [apply Hp | lia].
Qed.

Lemma Ok_tuple6_inj {A B C D E F : Type} (a a' : A) (b b' : B) (c c' : C)
  (d d' : D) (e e' : E) (f f' : F) :
  Ok (a, b, c, d, e, f) = Ok (a', b', c', d', e', f') ->
  a = a' /\ b = b' /\ c = c' /\ d = d' /\ e = e' /\ f = f'.
Proof. intro H. injection H. intros. repeat split; assumption. Qed.

(** X3: a longitude in [[0, 360)] gets the sign index
    [floor(longitude / 30) + 1], in 1..12, with the name the table has at
    that index; the index is [k + 1] exactly from the [k]-th multiple of 30
    degrees up to the next. *)
Theorem sign_of_canonical_longitude (longitude : Q) :
  0 <= longitude -> longitude < 360 ->
  exists sign_idx sign_name,
    sign_from_deg longitude = Ok (sign_idx, sign_name) /\
    sign_idx = (Qfloor (longitude / 30) + 1)%Z /\
    (1 <= sign_idx <= 12)%Z /\
    nth_error SIGN_NAMES (Z.to_nat (sign_idx - 1)) = Some sign_name /\
    (forall k : Z,
        sign_idx = (k + 1)%Z <->
        inject_Z k * 30 <= longitude /\ longitude < (inject_Z k + 1) * 30).
Proof.
  intros Hlo Hhi.
  destruct (sign_from_deg_index longitude Hlo Hhi) as [name [Hs Hk]].
  destruct (sign_from_deg_eq longitude) as [name' [Hs' [Hnth _]]].
  assert (Ef : Qfloor (normalize_angle longitude / 30) =
               Qfloor (longitude / 30)).
  { apply Qfloor_comp. rewrite (normalize_angle_small _ Hlo Hhi). reflexivity. }
  rewrite Ef in Hs', Hnth.
  assert (En : name' = name) by congruence. subst name'.
  exists (Qfloor (longitude / 30) + 1)%Z, name.
  split; [exact Hs|]. split; [reflexivity|]. split; [lia|]. split.
  - replace (Qfloor (longitude / 30) + 1 - 1)%Z
      with (Qfloor (longitude / 30)) by lia.
    exact Hnth.
  - intro k. rewrite <- (Qfloor_div_iff longitude 30 k eq_refl). lia.
Qed.

(** Longitude 356: Pisces. *)
Lemma sign_of_canonical_longitude_witness :
  (0 <= 356 /\ 356 < 360) /\ sign_from_deg 356 = Ok (12%Z, "Pisces").
Proof.
  split; [split; [discriminate | reflexivity]|].
  destruct (sign_of_canonical_longitude 356)
    as [i [sn [Hs [Hi [_ [Hn _]]]]]]; [discriminate | reflexivity |].
  rewrite Hs. subst i.
  change (Qfloor (356 / 30) + 1)%Z with 12%Z in Hn |- *.
  change (nth_error SIGN_NAMES (Z.to_nat (12 - 1))) with (Some "Pisces") in Hn.
  congruence.
Defined.

(** X29: a longitude inside the span of nakshatra [k + 1], at least
    [1e-9] degrees from both of its ends (or from 0 degrees on, in the
    first one), gets the nakshatra index [k + 1] with the name and lord
    the table has there.  The margin leaves out the boundaries
    themselves, which the doubles give to the nakshatra before. *)
Theorem nakshatra_inside_its_span (longitude : Q) (k : Z) :
  (0 <= k <= 26)%Z ->
  (inject_Z k * (360 / 27) + (1 # 1000000000) <= longitude \/
   (k = 0%Z /\ 0 <= longitude)) ->
  longitude <= (inject_Z k + 1) * (360 / 27) - (1 # 1000000000) ->
  exists nak_name nak_lord charan pos_in_nak nak_size,
    get_nak_charan_and_pos longitude =
      Ok ((k + 1)%Z, nak_name, nak_lord, charan, pos_in_nak, nak_size) /\
    nth_error NAK_SHAPES (Z.to_nat k) = Some (nak_name, nak_lord).
Proof.
  intros Hk Hlo Hhi.
  assert (Hk0 : 0 <= inject_Z k).
  { change 0 with (inject_Z 0). rewrite <- Zle_Qle. lia. }
  assert (Hk26 : inject_Z k <= 26).
  { change 26 with (inject_Z 26). rewrite <- Zle_Qle. lia. }
  assert (Hw : 360 / 27 == 40 # 3) by reflexivity.
  rewrite Hw in Hlo, Hhi.
  assert (Hlo' : inject_Z k * (40 # 3) <= longitude).
  { destruct Hlo as [Hlo|[E Hlo]]; [lra|]. subst k.
    change (inject_Z 0) with 0. lra. }
  assert (R0 : 0 <= longitude) by nra.
  assert (R1 : longitude < 360) by nra.
  destruct (nakshatra_index longitude R0 R1)
    as [nn [nl [ch [pos [Hn [Hr [Hnth _]]]]]]].
  assert (Ef : Qfloor (longitude / (360 / 27)) = k).
  { apply (Qfloor_div_iff longitude (360 / 27) k eq_refl).
    rewrite Hw. split; [exact Hlo' | lra]. }
  rewrite Ef in Hn, Hnth.
  exists nn, nl, ch, pos, (360 / 27). split; [exact Hn | exact Hnth].
Qed.

(** Longitude 356: Revati, the last nakshatra. *)
Lemma nakshatra_inside_its_span_witness :
  ((0 <= 26 <= 26)%Z /\
   inject_Z 26 * (360 / 27) + (1 # 1000000000) <= 356 /\
   356 <= (inject_Z 26 + 1) * (360 / 27) - (1 # 1000000000)) /\
  exists charan pos_in_nak nak_size,
    get_nak_charan_and_pos 356 =
      Ok (27%Z, "Revati", "Mercury", charan, pos_in_nak, nak_size).
Proof.
  split; [split; [lia | split; discriminate]|].
  destruct (nakshatra_inside_its_span 356 26)
    as [nn [nl [ch [pos [sz [Hn Hnth]]]]]];
    [lia | left; discriminate | discriminate |].
  change (nth_error NAK_SHAPES (Z.to_nat 26)) with (Some ("Revati", "Mercury"))
    in Hnth.
  injection Hnth as <- <-.
  exists ch, pos, sz. exact Hn.
Defined.

(** X5: for every angle, canonical or not, [get_nak_charan_and_pos]
    returns: the nakshatra index is in 1..27 and its name and lord are the
    table's entry at that index, the pada is in 1..4, and the position in
    the nakshatra is not negative.  No index is out of range. *)
Theorem get_nak_charan_and_pos_every_angle (sid_deg : Q) :
  exists nak_index nak_name nak_lord charan pos_in_nak nak_size,
    get_nak_charan_and_pos sid_deg =
      Ok (nak_index, nak_name, nak_lord, charan, pos_in_nak, nak_size) /\
    (1 <= nak_index <= 27)%Z /\
    nth_error NAK_SHAPES (Z.to_nat (nak_index - 1)) = Some (nak_name, nak_lord) /\
    (1 <= charan <= 4)%Z /\
    0 <= pos_in_nak /\ 0 < nak_size.
Proof.
  destruct (get_nak_charan_and_pos_eq sid_deg)
    as [nn [nl [pos [Hg [Hk [Hnth [_ [Hp0 [Hp1 Hc]]]]]]]]].
  eexists _, nn, nl, _, pos, _. split; [exact Hg|].
  split; [lia|]. split.
  - replace (Qfloor (py_mod sid_deg 360 / (360 / 27)) + 1 - 1)%Z
      with (Qfloor (py_mod sid_deg 360 / (360 / 27))) by lia.
    exact Hnth.
  - split; [lia|]. split; [assumption | reflexivity].
Qed.

Lemma Zlt_of_Qlt (a b : Z) : inject_Z a < inject_Z b -> (a < b)%Z.
Proof. intro H. rewrite Zlt_Qlt. exact H. Qed.

(** ** The sub-lord walk: outcomes and edges *)

Lemma py_index_not_In (x : string) (l : list string) :
  ~ In x l -> py_index x l = Raise ValueError.
Proof.
  induction l as [|y l IH]; intro Hn; [reflexivity|].
  simpl. destruct (String.eqb_spec y x) as [E|N].
  - exfalso. apply Hn. left. exact E.
  - rewrite IH; [reflexivity|]. intro H. apply Hn. right. exact H.
Qed.

(** X8: what [find_sub_lord_recursive] does is decided by the lord and
    the span alone: a lord outside the table raises [ValueError], whatever
    the other arguments; a lord of the table with a zero span raises
    [ZeroDivisionError]; otherwise a chain of at most [levels] lords of
    the table is returned, for every position, also outside the span. *)
Theorem find_sub_lord_recursive_outcome (pos_in_nak_deg nak_size : Q)
  (nak_lord : string) (levels : nat) :
  (~ In nak_lord VIMSHOTTARI_ORDER ->
   find_sub_lord_recursive pos_in_nak_deg nak_size nak_lord levels =
     Raise ValueError) /\
  (In nak_lord VIMSHOTTARI_ORDER -> nak_size == 0 ->
   find_sub_lord_recursive pos_in_nak_deg nak_size nak_lord levels =
     Raise ZeroDivisionError) /\
  (In nak_lord VIMSHOTTARI_ORDER -> ~ nak_size == 0 ->
   exists lords,
     find_sub_lord_recursive pos_in_nak_deg nak_size nak_lord levels = Ok lords /\
     (List.length lords <= levels)%nat /\
     Forall (fun l => In l VIMSHOTTARI_ORDER) lords).
Proof.
  split; [|split].
  - intro Hn. unfold find_sub_lord_recursive.
    change (mapM _ _) with (Ok VIM_PROPORTIONS). cbn [bind].
    fold VIMSHOTTARI_ORDER. rewrite (py_index_not_In _ _ Hn). reflexivity.
  - intros Hin Hz. unfold find_sub_lord_recursive.
    change (mapM _ _) with (Ok VIM_PROPORTIONS). cbn [bind].
    fold VIMSHOTTARI_ORDER.
    destruct (py_index_In _ _ Hin) as [idx [Hidx _]].
    rewrite Hidx. cbn [bind]. unfold py_div.
    rewrite (proj2 (Qeq_bool_iff nak_size 0) Hz). reflexivity.
  - intros Hin Hnz. apply find_sub_lord_recursive_chain; assumption.
Qed.

Lemma find_sub_lord_recursive_outcome_witness :
  (~ In "Pluto" VIMSHOTTARI_ORDER /\
   find_sub_lord_recursive 50 120 "Pluto" 3 = Raise ValueError) /\
  (In "Mars" VIMSHOTTARI_ORDER /\ 0 == 0 /\
   find_sub_lord_recursive 50 0 "Mars" 3 = Raise ZeroDivisionError) /\
  (~ 120 == 0 /\
   exists lords,
     find_sub_lord_recursive 50 120 "Mars" 3 = Ok lords /\
     (List.length lords <= 3)%nat /\
     Forall (fun l => In l VIMSHOTTARI_ORDER) lords).
Proof.
  assert (Hn : ~ In "Pluto" VIMSHOTTARI_ORDER).
  { simpl. intros H. repeat (destruct H as [H|H]; [discriminate H|]). exact H. }
  assert (Hm : In "Mars" VIMSHOTTARI_ORDER) by (simpl; tauto).
  split; [split; [exact Hn|]|split; [split; [exact Hm|split; [reflexivity|]]|
                                     split; [discriminate|]]].
  - apply (proj1 (find_sub_lord_recursive_outcome 50 120 "Pluto" 3) Hn).
  - apply (proj1 (proj2 (find_sub_lord_recursive_outcome 50 0 "Mars" 3)) Hm).
    reflexivity.
  - apply (proj2 (proj2 (find_sub_lord_recursive_outcome 50 120 "Mars" 3)) Hm).
    discriminate.
Defined.

Lemma vim_intervals_weights (idx : nat) :
  (idx < 9)%nat ->
  Forall (fun z => 0 < snd z) (vim_intervals idx) /\
  Qsum (map snd (vim_intervals idx)) == 1.
Proof.
  intro H. destruct (rotation_weights idx H) as [H1 [H2 _]]. split; assumption.
Qed.

(** X9: a position beyond the span by the tolerance or more is found in
    no interval: the chain is empty, whatever [levels], and then the
    unguarded [sub_lords[0]] of the record raises [IndexError]. *)
Theorem chain_empty_beyond_span (pos_in_nak_deg nak_size : Q) (L : string)
  (levels : nat) :
  In L VIMSHOTTARI_ORDER -> 0 < nak_size ->
  (1 + tolerance) * nak_size <= pos_in_nak_deg ->
  find_sub_lord_recursive pos_in_nak_deg nak_size L levels = Ok [] /\
  sub_lord_fields [] = Raise IndexError.
Proof.
  intros Hin Hn Hpos. split; [|reflexivity].
  destruct (py_index_In _ _ Hin) as [idx [Hidx Hlt]].
  rewrite (find_sub_lord_recursive_eq _ _ _ _ _ Hidx) by lra.
  destruct (vim_intervals_weights idx Hlt) as [Hw Hsum].
  assert (Hc : 1 + tolerance <= pos_in_nak_deg / nak_size).
  { apply Qle_shift_div_l; assumption. }
  apply sub_lord_levels_miss. fold (vim_intervals idx).
  apply sub_lord_scan_miss; [exact Hw | rewrite Hsum; unfold tolerance in Hc; lra|].
  apply Qle_trans with (pos_in_nak_deg / nak_size - 1); [lra | apply Qle_Qabs].
Qed.

Lemma chain_empty_beyond_span_witness :
  (In "Ketu" VIMSHOTTARI_ORDER /\ 0 < 120 /\ (1 + tolerance) * 120 <= 121) /\
  find_sub_lord_recursive 121 120 "Ketu" 3 = Ok [] /\
  sub_lord_fields [] = Raise IndexError.
Proof.
  split; [split; [simpl; tauto | split; [reflexivity | discriminate]]|].
  apply (chain_empty_beyond_span 121 120 "Ketu" 3);
    [simpl; tauto | reflexivity | discriminate].
Defined.

Lemma sub_lord_levels_nonpos (L : string) (idx : nat) :
  py_index L VIMSHOTTARI_ORDER = Ok idx ->
  forall (levels : nat) (cur_pos : Q) (lords : list string),
    cur_pos <= 0 ->
    sub_lord_levels levels VIMSHOTTARI_ORDER VIM_PROPORTIONS
      (rotate idx VIMSHOTTARI_ORDER) (rotate idx VIM_PROPORTIONS) cur_pos lords =
      Ok (lords ++ repeat L levels)%list.
Proof.
  intros Hidx.
  assert (Hlt : (idx < 9)%nat).
  { apply py_index_nth in Hidx.
    apply (proj1 (nth_error_Some VIMSHOTTARI_ORDER idx)). congruence. }
  destruct (rotation_weights idx Hlt) as [_ [_ [prop [tl [Hzs [Hp _]]]]]].
  assert (Hnth : nth idx VIMSHOTTARI_ORDER "" = L).
  { apply nth_error_nth. apply py_index_nth. exact Hidx. }
  rewrite Hnth in Hzs.
  induction levels as [|levels IH]; intros cur_pos lords H0.
  - simpl. rewrite app_nil_r. reflexivity.
  - cbn [sub_lord_levels]. rewrite Hzs. cbn [sub_lord_scan].
    assert (E : Qle_bool cur_pos (0 + prop) = true).
    { apply Qle_bool_iff. lra. }
    rewrite E, orb_true_l, py_div_ok by lra. cbn [bind].
    rewrite Hidx. cbn [bind]. rewrite IH.
    + rewrite <- app_assoc. reflexivity.
    + apply Qle_shift_div_r; [exact Hp | lra].
Qed.

(** X10: a position at or before the start of the span stays in the first
    interval at every level: the chain is the starting lord, [levels]
    times. *)
Theorem chain_at_or_before_start (pos_in_nak_deg nak_size : Q) (L : string)
  (levels : nat) :
  In L VIMSHOTTARI_ORDER -> 0 < nak_size -> pos_in_nak_deg <= 0 ->
  find_sub_lord_recursive pos_in_nak_deg nak_size L levels =
    Ok (repeat L levels).
Proof.
  intros Hin Hn Hpos.
  destruct (py_index_In _ _ Hin) as [idx [Hidx _]].
  rewrite (find_sub_lord_recursive_eq _ _ _ _ _ Hidx) by lra.
  rewrite (sub_lord_levels_nonpos L idx Hidx); [reflexivity|].
  apply Qle_shift_div_r; [exact Hn | lra].
Qed.

Lemma chain_at_or_before_start_witness :
  (In "Moon" VIMSHOTTARI_ORDER /\ 0 < 120 /\ -5 <= 0) /\
  find_sub_lord_recursive (-5) 120 "Moon" 3 = Ok ["Moon"; "Moon"; "Moon"].
Proof.
  split; [split; [simpl; tauto | split; [reflexivity | discriminate]]|].
  apply (chain_at_or_before_start (-5) 120 "Moon" 3);
    [simpl; tauto | reflexivity | discriminate].
Defined.

(** One level more only adds to the chain. *)
Lemma sub_lord_levels_S (VIM_ORDER : list string) (VIM_PROP : list Q) :
  Forall (fun p => ~ p == 0) VIM_PROP ->
  forall (levels : nat) (order : list string) (props : list Q) (cur_pos : Q)
         (lords out : list string),
    Forall (fun l => In l VIM_ORDER) order ->
    Forall (fun p => ~ p == 0) props ->
    sub_lord_levels levels VIM_ORDER VIM_PROP order props cur_pos lords = Ok out ->
    exists rest,
      sub_lord_levels (S levels) VIM_ORDER VIM_PROP order props cur_pos lords =
        Ok (out ++ rest)%list /\
      (List.length rest <= 1)%nat.
Proof.
  intros Hnz levels.
  induction levels as [|levels IH]; intros order props cur_pos lords out Hord Hprops.
  - intro H. cbn [sub_lord_levels] in H. injection H as H. subst out.
    destruct (sub_lord_levels_ok VIM_ORDER VIM_PROP Hnz 1 order props cur_pos
                lords Hord Hprops) as [rest [Hr [Hlen _]]].
    exists rest. split; assumption.
  - change (sub_lord_levels (S levels) VIM_ORDER VIM_PROP order props cur_pos lords)
      with (hit <- sub_lord_scan cur_pos 0 (combine order props) ;;
            match hit with
            | Some (lord, cur_pos') =>
                idx2 <- py_index lord VIM_ORDER ;;
                sub_lord_levels levels VIM_ORDER VIM_PROP
                  (rotate idx2 VIM_ORDER) (rotate idx2 VIM_PROP) cur_pos'
                  (lords ++ [lord])
            | None =>
                sub_lord_levels levels VIM_ORDER VIM_PROP order props cur_pos lords
            end).
    change (sub_lord_levels (S (S levels)) VIM_ORDER VIM_PROP order props cur_pos lords)
      with (hit <- sub_lord_scan cur_pos 0 (combine order props) ;;
            match hit with
            | Some (lord, cur_pos') =>
                idx2 <- py_index lord VIM_ORDER ;;
                sub_lord_levels (S levels) VIM_ORDER VIM_PROP
                  (rotate idx2 VIM_ORDER) (rotate idx2 VIM_PROP) cur_pos'
                  (lords ++ [lord])
            | None =>
                sub_lord_levels (S levels) VIM_ORDER VIM_PROP order props cur_pos lords
            end).
    destruct (sub_lord_scan cur_pos 0 (combine order props)) as [hit|e];
      [|discriminate].
    cbn [bind]. destruct hit as [[lord cur_pos']|].
    + destruct (py_index lord VIM_ORDER) as [idx2|e]; [|discriminate].
      cbn [bind]. apply IH.
      * apply Forall_forall. intros l Hl. apply (In_rotate idx2). exact Hl.
      * apply Forall_rotate. exact Hnz.
    + apply IH; assumption.
Qed.

(** X11: asking for one level more keeps the chain and adds at most one
    lord to it: the chain for [levels] is the beginning of the chain for
    [levels + 1]. *)
Theorem chain_grows_with_levels (pos_in_nak_deg nak_size : Q) (L : string)
  (levels : nat) (lords : list string) :
  find_sub_lord_recursive pos_in_nak_deg nak_size L levels = Ok lords ->
  exists rest,
    find_sub_lord_recursive pos_in_nak_deg nak_size L (S levels) =
      Ok (lords ++ rest)%list /\
    (List.length rest <= 1)%nat.
Proof.
  unfold find_sub_lord_recursive.
  change (mapM _ _) with (Ok VIM_PROPORTIONS). cbn [bind].
  fold VIMSHOTTARI_ORDER.
  destruct (py_index L VIMSHOTTARI_ORDER) as [idx|e]; [|discriminate].
  cbn [bind].
  destruct (py_div pos_in_nak_deg nak_size) as [cur_pos|e]; [|discriminate].
  cbn [bind].
  apply (sub_lord_levels_S VIMSHOTTARI_ORDER VIM_PROPORTIONS
           VIM_PROPORTIONS_nonzero).
  - apply Forall_forall. intros l Hl. apply (In_rotate idx). exact Hl.
  - apply Forall_rotate. exact VIM_PROPORTIONS_nonzero.
Qed.

Lemma chain_grows_with_levels_witness :
  find_sub_lord_recursive 50 120 "Mars" 2 = Ok ["Saturn"; "Venus"] /\
  exists rest,
    find_sub_lord_recursive 50 120 "Mars" 3 = Ok (["Saturn"; "Venus"] ++ rest)%list /\
    (List.length rest <= 1)%nat.
Proof.
  split; [vm_compute; reflexivity|].
  apply (chain_grows_with_levels 50 120 "Mars" 2 ["Saturn"; "Venus"]).
  vm_compute. reflexivity.
Defined.

(** X12: within the tolerance of the top of the span, on either side of
    it (short of a margin of [1e-12], which is more than the division can
    lose to rounding), the walk stops at the first interval, that of the
    starting lord, and no later level adds a lord: the chain is the
    starting lord alone, whatever number of levels, one or more, is asked
    for. *)
Theorem chain_within_tolerance_of_top (pos_in_nak_deg nak_size : Q)
  (L : string) (levels : nat) :
  In L VIMSHOTTARI_ORDER -> 0 < nak_size ->
  Qabs (pos_in_nak_deg / nak_size - 1) <= tolerance - (1 # 1000000000000) ->
  find_sub_lord_recursive pos_in_nak_deg nak_size L (S levels) = Ok [L].
Proof.
  intros Hin Hn Htol. apply chain_near_top; [assumption | assumption |].
  apply Qle_lt_trans with (1 := Htol). reflexivity.
Qed.

Lemma chain_within_tolerance_of_top_witness :
  (In "Venus" VIMSHOTTARI_ORDER /\ 0 < 1 /\
   Qabs (1 / 1 - 1) <= tolerance - (1 # 1000000000000)) /\
  find_sub_lord_recursive 1 1 "Venus" 3 = Ok ["Venus"].
Proof.
  split; [split; [simpl; tauto | split; [reflexivity | discriminate]]|].
  apply (chain_within_tolerance_of_top 1 1 "Venus" 2);
    [simpl; tauto | reflexivity | discriminate].
Defined.

(** The scan stops at the entry whose interval of cumulative weight holds
    the position. *)
Lemma sub_lord_scan_interval (cur_pos : Q) (lord : string) (prop : Q)
  (post : list (string * Q)) (pre : list (string * Q)) :
  forall cumulative,
    Forall (fun z => 0 < snd z) pre ->
    0 < prop ->
    tolerance <= Qabs (cur_pos - 1) ->
    (pre = [] \/ cumulative + Qsum (map snd pre) < cur_pos) ->
    cur_pos <= cumulative + Qsum (map snd pre) + prop ->
    exists cur_pos',
      sub_lord_scan cur_pos cumulative (pre ++ (lord, prop) :: post) =
        Ok (Some (lord, cur_pos')).
Proof.
  induction pre as [|[l1 w1] pre IH]; intros cumulative Hpre Hprop Htol Hlo Hhi.
  - cbn [app sub_lord_scan]. simpl in Hhi.
    assert (E1 : Qle_bool cur_pos (cumulative + prop) = true).
    { apply Qle_bool_iff. lra. }
    rewrite E1. cbn [orb]. rewrite py_div_ok by lra. cbn [bind].
    eexists. reflexivity.
  - inversion Hpre as [|? ? Hw1 Hpre']; subst. simpl in Hw1.
    destruct Hlo as [Hlo|Hlo]; [discriminate Hlo|].
    simpl in Hlo, Hhi.
    pose proof (Qsum_pos_nonneg pre Hpre') as Hs.
    cbn [app sub_lord_scan].
    assert (E1 : Qle_bool cur_pos (cumulative + w1) = false).
    { apply Qle_bool_false_iff. lra. }
    assert (E2 : Qlt_bool (Qabs (cur_pos - 1)) tolerance = false).
    { apply Qlt_bool_false_iff. exact Htol. }
    rewrite E1, E2. cbn [orb].
    apply IH; [exact Hpre' | exact Hprop | exact Htol | right; lra | lra].
Qed.

(** X13: the first lord of the chain is the lord of the interval of the
    rotated table in which the fraction [offset / span] lies: when the
    weights before an entry sum to less than the fraction and, with the
    entry's own weight, reach it, both by a margin of twice the tolerance,
    the first sub-lord is the lord of that entry.  The first interval
    also takes every fraction below it. *)
Theorem first_lord_by_cumulative_weight (pos_in_nak_deg nak_size : Q)
  (L : string) (idx : nat) (lord : string) (weight : Q)
  (before after : list (string * Q)) :
  py_index L VIMSHOTTARI_ORDER = Ok idx ->
  0 < nak_size ->
  vim_intervals idx = (before ++ (lord, weight) :: after)%list ->
  (before = [] \/
   Qsum (map snd before) + 2 * tolerance <= pos_in_nak_deg / nak_size) ->
  pos_in_nak_deg / nak_size <= Qsum (map snd before) + weight - 2 * tolerance ->
  find_sub_lord_recursive pos_in_nak_deg nak_size L 1 = Ok [lord].
Proof.
  intros Hidx Hn Hzs Hlo Hhi.
  assert (Hlt : (idx < 9)%nat).
  { apply py_index_nth in Hidx.
    apply (proj1 (nth_error_Some VIMSHOTTARI_ORDER idx)). congruence. }
  rewrite (find_sub_lord_recursive_eq _ _ _ _ _ Hidx) by lra.
  destruct (vim_intervals_weights idx Hlt) as [Hw Hsum].
  set (cur_pos := pos_in_nak_deg / nak_size) in *.
  rewrite Hzs in Hw, Hsum.
  apply Forall_app in Hw. destruct Hw as [Hbefore Hw].
  inversion Hw as [|? ? Hweight Hafter]; subst. simpl in Hweight.
  rewrite map_app in Hsum. cbn [map snd] in Hsum.
  assert (Esum : Qsum (map snd before ++ weight :: map snd after) ==
                 Qsum (map snd before) + weight + Qsum (map snd after)).
  { clear. induction (map snd before) as [|x l IH]; simpl; [ring|].
    rewrite IH. ring. }
  rewrite Esum in Hsum.
  pose proof (Qsum_pos_nonneg after Hafter) as Ha.
  pose proof (Qsum_pos_nonneg before Hbefore) as Hb.
  assert (Htol : tolerance <= Qabs (cur_pos - 1)).
  { rewrite <- Qabs_opp. apply Qle_trans with (- (cur_pos - 1));
      [unfold tolerance in *; lra | apply Qle_Qabs]. }
  destruct (sub_lord_scan_interval cur_pos lord weight after before 0
              Hbefore Hweight Htol) as [cur_pos' Hhit].
  { destruct Hlo as [Hlo|Hlo]; [left; exact Hlo | right].
    unfold tolerance in Hlo. lra. }
  { unfold tolerance in Hhi. lra. }
  cbn [sub_lord_levels]. fold (vim_intervals idx). rewrite Hzs, Hhit.
  cbn [bind].
  assert (Hl : In lord VIMSHOTTARI_ORDER).
  { apply (In_rotate idx). apply (In_combine_fst _ (rotate idx VIM_PROPORTIONS)).
    fold (vim_intervals idx). rewrite Hzs, map_app, in_app_iff.
    right. left. reflexivity. }
  destruct (py_index_In _ _ Hl) as [idx2 [Hidx2 _]].
  rewrite Hidx2. reflexivity.
Qed.

(** Offset 50 of a span of 120 under Mars: after Mars, Rahu and Jupiter
    (41 of 120) comes the interval of Saturn, up to 60 of 120. *)
Lemma first_lord_by_cumulative_weight_witness :
  (py_index "Mars" VIMSHOTTARI_ORDER = Ok 4%nat /\ 0 < 120 /\
   vim_intervals 4 =
     (firstn 3 (vim_intervals 4) ++ ("Saturn", 19 / 120) ::
      skipn 4 (vim_intervals 4))%list /\
   Qsum (map snd (firstn 3 (vim_intervals 4))) + 2 * tolerance <= 50 / 120 /\
   50 / 120 <=
     Qsum (map snd (firstn 3 (vim_intervals 4))) + 19 / 120 - 2 * tolerance) /\
  find_sub_lord_recursive 50 120 "Mars" 1 = Ok ["Saturn"].
Proof.
  split.
  - split; [reflexivity|]. split; [reflexivity|].
    split; [vm_compute; reflexivity|]. split; discriminate.
  - apply (first_lord_by_cumulative_weight 50 120 "Mars" 4 "Saturn" (19 / 120)
             (firstn 3 (vim_intervals 4)) (skipn 4 (vim_intervals 4)));
      [reflexivity | reflexivity | vm_compute; reflexivity
      | right; discriminate | discriminate].
Defined.

(** The scan and the levels loop do not tell equal positions apart. *)
Lemma sub_lord_scan_comp (zs : list (string * Q)) :
  forall cur_pos cur_pos' cumulative cumulative',
    cur_pos == cur_pos' -> cumulative == cumulative' ->
    match sub_lord_scan cur_pos cumulative zs,
          sub_lord_scan cur_pos' cumulative' zs with
    | Ok (Some (lord, p)), Ok (Some (lord', p')) => lord = lord' /\ p == p'
    | Ok None, Ok None => True
    | Raise e, Raise e' => e = e'
    | _, _ => False
    end.
Proof.
  induction zs as [|[lord prop] zs IH]; intros cur cur' cum cum' Hc Hm.
  - exact I.
  - cbn [sub_lord_scan].
    assert (E1 : Qle_bool cur (cum + prop) = Qle_bool cur' (cum' + prop)).
    { apply Qleb_comp; [exact Hc | rewrite Hm; reflexivity]. }
    assert (E2 : Qlt_bool (Qabs (cur - 1)) tolerance =
                 Qlt_bool (Qabs (cur' - 1)) tolerance).
    { apply Qlt_bool_comp; [rewrite Hc; reflexivity | reflexivity]. }
    rewrite E1, E2.
    destruct (Qle_bool cur' (cum' + prop) || Qlt_bool (Qabs (cur' - 1)) tolerance).
    + unfold py_div. destruct (Qeq_bool prop 0); cbn [bind]; [reflexivity|].
      split; [reflexivity | rewrite Hc, Hm; reflexivity].
    + apply IH; [exact Hc | rewrite Hm; reflexivity].
Qed.

Lemma sub_lord_levels_comp (VIM_ORDER : list string) (VIM_PROP : list Q)
  (levels : nat) :
  forall order props cur_pos cur_pos' lords,
    cur_pos == cur_pos' ->
    sub_lord_levels levels VIM_ORDER VIM_PROP order props cur_pos lords =
    sub_lord_levels levels VIM_ORDER VIM_PROP order props cur_pos' lords.
Proof.
  induction levels as [|levels IH]; intros order props cur cur' lords Hc;
    [reflexivity|].
  cbn [sub_lord_levels].
  pose proof (sub_lord_scan_comp (combine order props) cur cur' 0 0 Hc
                (Qeq_refl 0)) as H.
  destruct (sub_lord_scan cur 0 (combine order props)) as [[[l p]|]|e];
    destruct (sub_lord_scan cur' 0 (combine order props)) as [[[l' p']|]|e'];
    try contradiction; cbn [bind].
  - destruct H as [<- Hp].
    destruct (py_index l VIM_ORDER) as [idx2|e]; [|reflexivity].
    cbn [bind]. apply IH. exact Hp.
  - apply IH. exact Hc.
  - congruence.
Qed.

(** X14: the chain depends on the position and the span through their
    quotient only: measuring both in another unit (multiplying both by the
    same nonzero factor) gives the same result, errors included. *)
Theorem find_sub_lord_recursive_scale (pos_in_nak_deg nak_size factor : Q)
  (L : string) (levels : nat) :
  ~ factor == 0 ->
  find_sub_lord_recursive (factor * pos_in_nak_deg) (factor * nak_size) L levels =
  find_sub_lord_recursive pos_in_nak_deg nak_size L levels.
Proof.
  intro Hf. unfold find_sub_lord_recursive.
  change (mapM _ _) with (Ok VIM_PROPORTIONS). cbn [bind].
  fold VIMSHOTTARI_ORDER.
  destruct (py_index L VIMSHOTTARI_ORDER) as [idx|e]; [|reflexivity].
  cbn [bind]. unfold py_div.
  destruct (Qeq_bool nak_size 0) eqn:E.
  - apply Qeq_bool_iff in E.
    assert (E' : Qeq_bool (factor * nak_size) 0 = true).
    { apply Qeq_bool_iff. rewrite E. ring. }
    rewrite E'. reflexivity.
  - assert (Hn : ~ nak_size == 0) by (apply Qeq_bool_neq; exact E).
    assert (E' : Qeq_bool (factor * nak_size) 0 = false).
    { destruct (Qeq_bool (factor * nak_size) 0) eqn:E2; [|reflexivity].
      apply Qeq_bool_iff in E2. apply Qmult_integral in E2. tauto. }
    rewrite E'. cbn [bind]. apply sub_lord_levels_comp.
    field. split; assumption.
Qed.

(** Arc minutes instead of degrees. *)
Lemma find_sub_lord_recursive_scale_witness :
  ~ 60 == 0 /\
  find_sub_lord_recursive (60 * 5) (60 * (360 / 27)) "Rahu" 3 =
  find_sub_lord_recursive 5 (360 / 27) "Rahu" 3.
Proof.
  split; [discriminate|].
  apply (find_sub_lord_recursive_scale 5 (360 / 27) 60 "Rahu" 3). discriminate.
Defined.

(** X15: the two classifiers compose without error: for every angle, the
    lord, position and width that [get_nak_charan_and_pos] returns make
    [find_sub_lord_recursive] return a chain of one to three lords of the
    table, so that [sub_lords[0]] exists and the record entries are the
    first three entries of the chain, [None] where the chain has ended. *)
Theorem chain_of_every_angle (sid_deg : Q) :
  exists nak_index nak_name nak_lord charan pos_in_nak nak_size lord rest,
    get_nak_charan_and_pos sid_deg =
      Ok (nak_index, nak_name, nak_lord, charan, pos_in_nak, nak_size) /\
    find_sub_lord_recursive pos_in_nak nak_size nak_lord 3 = Ok (lord :: rest) /\
    (List.length rest <= 2)%nat /\
    Forall (fun l => In l VIMSHOTTARI_ORDER) (lord :: rest) /\
    sub_lord_fields (lord :: rest) = Ok (lord, nth_error rest 0, nth_error rest 1).
Proof.
  destruct (get_nak_charan_and_pos_eq sid_deg)
    as [nn [nl [pos [Hg [Hk [Hnth [_ [Hp0 [Hp1 _]]]]]]]]].
  assert (Hin : In nl VIMSHOTTARI_ORDER).
  { pose proof NAK_SHAPES_lords as Hall. rewrite Forall_forall in Hall.
    apply (Hall (nn, nl)). eapply nth_error_In. exact Hnth. }
  destruct (find_sub_lord_recursive_first pos (360 / 27) nl 2 Hin)
    as [lord [rest [Hf [Hlen Hval]]]]; [exact Hp0 | lra | reflexivity |].
  eexists _, nn, nl, _, pos, _, lord, rest.
  split; [exact Hg|]. split; [exact Hf|]. split; [exact Hlen|].
  split; [exact Hval | apply sub_lord_fields_cons].
Qed.

(** ** Houses of cusps in order *)

Lemma sidereal_cusp_mod (cusp_list : list Q) (ayanamsha : Q) (i : nat) :
  sidereal_cusp cusp_list ayanamsha (i mod 12) =
  sidereal_cusp cusp_list ayanamsha i.
Proof. unfold sidereal_cusp. rewrite Nat.Div0.mod_mod. reflexivity. Qed.

Lemma twelve_cases (n : nat) :
  (n < 12)%nat ->
  n = 0%nat \/ n = 1%nat \/ n = 2%nat \/ n = 3%nat \/ n = 4%nat \/ n = 5%nat \/
  n = 6%nat \/ n = 7%nat \/ n = 8%nat \/ n = 9%nat \/ n = 10%nat \/ n = 11%nat.
Proof. lia. Qed.

Ltac by_twelve_cases H :=
  apply twelve_cases in H;
  repeat (destruct H as [H|H]; [subst|]); [..|subst].

(** Counting the houses from the one after the wrap: position [k] is
    house index [(w + 1 + k) mod 12], and every index is such a position. *)
Lemma turn_position_index (w k : nat) :
  (w < 12)%nat -> (k < 11)%nat -> ((w + 1 + k) mod 12 <> w)%nat.
Proof.
  intros Hw Hk. assert (Hk' : (k < 12)%nat) by lia.
  by_twelve_cases Hw; by_twelve_cases Hk'; cbv; lia.
Qed.

Lemma turn_index_position (w i : nat) :
  (w < 12)%nat -> (i < 12)%nat ->
  ((w + 1 + (i + 11 - w) mod 12) mod 12 = i)%nat /\
  ((i + 11 - w) mod 12 < 12)%nat.
Proof.
  intros Hw Hi. by_twelve_cases Hw; by_twelve_cases Hi; cbv; lia.
Qed.

Section TurnOnce.

Variable cusp_list : list Q.
Variable ayanamsha : Q.
Variable w : nat.
Hypothesis w_lt : (w < 12)%nat.
Hypothesis rising :
  forall i, (i < 12)%nat -> i <> w ->
    sidereal_cusp cusp_list ayanamsha i < sidereal_cusp cusp_list ayanamsha (i + 1).

(** The cusp at position [k] after the wrap. *)
Let t (k : nat) : Q := sidereal_cusp cusp_list ayanamsha (w + 1 + k).

Lemma turn_step (k : nat) : (k < 11)%nat -> t k < t (k + 1).
Proof.
  intro Hk. unfold t.
  pose proof (rising ((w + 1 + k) mod 12)
                (Nat.mod_upper_bound _ 12 ltac:(discriminate))
                (turn_position_index w k w_lt Hk)) as H.
  rewrite sidereal_cusp_mod in H.
  rewrite <- (sidereal_cusp_mod _ _ ((w + 1 + k) mod 12 + 1)) in H.
  rewrite Nat.Div0.add_mod_idemp_l, sidereal_cusp_mod in H.
  replace (w + 1 + (k + 1))%nat with (w + 1 + k + 1)%nat by lia. exact H.
Qed.

Lemma turn_mono (k k' : nat) : (k <= k')%nat -> (k' <= 11)%nat -> t k <= t k'.
Proof.
  induction 1 as [|k' Hle IH]; intro Hk'; [apply Qle_refl|].
  apply Qle_trans with (t k'); [apply IH; lia|].
  apply Qlt_le_weak. replace (S k') with (k' + 1)%nat by lia.
  apply turn_step. lia.
Qed.

Lemma turn_wrap : t 12 = t 0.
Proof.
  unfold t. rewrite <- (sidereal_cusp_mod _ _ (w + 1 + 12)),
              <- (sidereal_cusp_mod _ _ (w + 1 + 0)).
  f_equal. replace (w + 1 + 12)%nat with (w + 1 + 0 + 1 * 12)%nat by lia.
  apply Nat.Div0.mod_add.
Qed.

Lemma turn_in_house (k : nat) (longitude : Q) :
  in_house cusp_list ayanamsha longitude ((w + 1 + k) mod 12) <->
  in_circular_interval (t k) (t (k + 1)) longitude.
Proof.
  unfold in_house, t.
  rewrite sidereal_cusp_mod.
  rewrite <- (sidereal_cusp_mod _ _ ((w + 1 + k) mod 12 + 1)).
  rewrite Nat.Div0.add_mod_idemp_l, sidereal_cusp_mod.
  replace (w + 1 + (k + 1))%nat with (w + 1 + k + 1)%nat by lia. reflexivity.
Qed.

Lemma turn_find (longitude : Q) (n : nat) :
  (n <= 11)%nat -> t 0 <= longitude -> longitude < t n ->
  exists k, (k < n)%nat /\ t k <= longitude /\ longitude < t (k + 1).
Proof.
  induction n as [|n IH]; intros Hn Hlo Hhi; [lra|].
  destruct (Qlt_le_dec longitude (t n)) as [Hlt|Hge].
  - destruct (IH ltac:(lia) Hlo Hlt) as [k [Hk Hin]]. exists k. split; [lia | exact Hin].
  - exists n. split; [lia|]. replace (n + 1)%nat with (S n) by lia. split; assumption.
Qed.

Lemma turn_exists (longitude : Q) :
  exists k, (k < 12)%nat /\ in_circular_interval (t k) (t (k + 1)) longitude.
Proof.
  pose proof (turn_mono 0 11 ltac:(lia) ltac:(lia)) as H011.
  assert (Hstrict : t 0 < t 11).
  { apply Qlt_le_trans with (t 1); [apply (turn_step 0); lia|].
    apply turn_mono; lia. }
  destruct (Qlt_le_dec longitude (t 0)) as [Hlow|Hlo].
  - exists 11%nat. split; [lia|]. change (11 + 1)%nat with 12%nat.
    rewrite turn_wrap. split; intro; [lra | right; exact Hlow].
  - destruct (Qlt_le_dec longitude (t 11)) as [Hhi|Hhigh].
    + destruct (turn_find longitude 11 ltac:(lia) Hlo Hhi) as [k [Hk [H1 H2]]].
      exists k. split; [lia|].
      pose proof (turn_step k Hk) as Hs.
      split; intro; [split; assumption | lra].
    + exists 11%nat. split; [lia|]. change (11 + 1)%nat with 12%nat.
      rewrite turn_wrap. split; intro; [lra | left; exact Hhigh].
Qed.

Lemma turn_interval_bounds (k : nat) (longitude : Q) :
  (k < 11)%nat -> in_circular_interval (t k) (t (k + 1)) longitude ->
  t k <= longitude /\ longitude < t (k + 1).
Proof.
  intros Hk [H _]. apply H. apply Qlt_le_weak. apply turn_step. exact Hk.
Qed.

Lemma turn_unique_lt (k k' : nat) (longitude : Q) :
  (k < k')%nat -> (k' < 12)%nat ->
  in_circular_interval (t k) (t (k + 1)) longitude ->
  in_circular_interval (t k') (t (k' + 1)) longitude -> False.
Proof.
  intros Hlt Hk' Hin Hin'.
  destruct (turn_interval_bounds k longitude ltac:(lia) Hin) as [B1 B2].
  pose proof (turn_mono 0 k ltac:(lia) ltac:(lia)) as M0.
  destruct (Nat.eq_dec k' 11) as [->|Hne].
  - change (11 + 1)%nat with 12%nat in Hin'. rewrite turn_wrap in Hin'.
    pose proof (turn_mono (k + 1) 11 ltac:(lia) ltac:(lia)) as M1.
    destruct Hin' as [_ H]. destruct H as [H|H]; [lra | lra | lra].
  - destruct (turn_interval_bounds k' longitude ltac:(lia) Hin') as [C1 C2].
    pose proof (turn_mono (k + 1) k' ltac:(lia) ltac:(lia)) as M1. lra.
Qed.

(** Every longitude lies in the interval of exactly one house. *)
Lemma turn_once_one_house (longitude : Q) :
  exists i, (i < 12)%nat /\
    in_house cusp_list ayanamsha longitude i /\
    forall j, (j < 12)%nat -> in_house cusp_list ayanamsha longitude j -> j = i.
Proof.
  destruct (turn_exists longitude) as [k [Hk Hin]].
  exists ((w + 1 + k) mod 12)%nat.
  split; [apply Nat.mod_upper_bound; discriminate|].
  split; [apply turn_in_house; exact Hin|].
  intros j Hj Hinj.
  destruct (turn_index_position w j w_lt Hj) as [Ej Hkj].
  generalize dependent ((j + 11 - w) mod 12)%nat. intros k' Ej Hkj.
  subst j. pose proof (proj1 (turn_in_house k' longitude) Hinj) as Hin'.
  destruct (Nat.lt_trichotomy k k') as [Hlt|[Heq|Hgt]].
  - exfalso. exact (turn_unique_lt k k' longitude Hlt Hkj Hin Hin').
  - rewrite Heq. reflexivity.
  - exfalso. exact (turn_unique_lt k' k longitude Hgt Hk Hin' Hin).
Qed.

(** The cusp of a house lies in the interval of that house. *)
Lemma turn_once_own_cusp (i : nat) :
  (i < 12)%nat ->
  in_house cusp_list ayanamsha (sidereal_cusp cusp_list ayanamsha i) i.
Proof.
  intro Hi. unfold in_house.
  destruct (Nat.eq_dec i w) as [->|Hne].
  - assert (Hwrap : sidereal_cusp cusp_list ayanamsha (w + 1) <
                    sidereal_cusp cusp_list ayanamsha w).
    { assert (Hstrict : t 0 < t 11).
      { apply Qlt_le_trans with (t 1); [apply (turn_step 0); lia|].
        apply turn_mono; lia. }
      unfold t in Hstrict.
      replace (w + 1 + 0)%nat with (w + 1)%nat in Hstrict by lia.
      rewrite <- (sidereal_cusp_mod _ _ (w + 1 + 11)) in Hstrict.
      replace (w + 1 + 11)%nat with (w + 1 * 12)%nat in Hstrict by lia.
      rewrite Nat.Div0.mod_add, sidereal_cusp_mod in Hstrict. exact Hstrict. }
    split; intro; [lra | left; apply Qle_refl].
  - pose proof (rising i Hi Hne) as H.
    split; intro; [split; [apply Qle_refl | exact H] | lra].
Qed.

End TurnOnce.

(** X18: when the twelve cusps turn once around the circle, every
    longitude lies in the interval of exactly one house and the loop
    returns that house: the default of house 12 for "no interval matched"
    is never used. *)
Theorem locate_house_exactly_one (cusp_list : list Q) (ayanamsha longitude : Q) :
  List.length cusp_list = 12%nat ->
  cusps_turn_once cusp_list ayanamsha ->
  exists i, (i < 12)%nat /\
    locate_house cusp_list ayanamsha longitude = Ok (Z.of_nat i + 1)%Z /\
    in_house cusp_list ayanamsha longitude i /\
    forall j, (j < 12)%nat -> in_house cusp_list ayanamsha longitude j -> j = i.
Proof.
  intros Hlen [w [Hw Hrise]].
  destruct (turn_once_one_house cusp_list ayanamsha w Hw Hrise longitude)
    as [i [Hi [Hin Huniq]]].
  exists i. split; [exact Hi|]. split; [|split; assumption].
  destruct (locate_house_spec cusp_list ayanamsha longitude Hlen)
    as [h [Hh [[i' [Hi' [E [Hin' _]]]] | [_ Hnone]]]].
  - rewrite Hh, E, (Huniq i' Hi' Hin'). reflexivity.
  - exfalso. exact (Hnone i Hi Hin).
Qed.

Lemma example_cusps_turn_once :
  cusps_turn_once [10; 40; 70; 100; 130; 160; 190; 220; 250; 280; 310; 340] 0.
Proof.
  exists 11%nat. split; [lia|]. intros i Hi Hne.
  apply twelve_cases in Hi.
  repeat (destruct Hi as [Hi|Hi]; [subst i; reflexivity|]).
  congruence.
Qed.

(** The cusps of the example, longitude 355: house 12 and no other. *)
Lemma locate_house_exactly_one_witness :
  (List.length [10; 40; 70; 100; 130; 160; 190; 220; 250; 280; 310; 340] = 12%nat /\
   cusps_turn_once [10; 40; 70; 100; 130; 160; 190; 220; 250; 280; 310; 340] 0) /\
  exists i, (i < 12)%nat /\
    locate_house [10; 40; 70; 100; 130; 160; 190; 220; 250; 280; 310; 340] 0 355 =
      Ok (Z.of_nat i + 1)%Z /\
    in_house [10; 40; 70; 100; 130; 160; 190; 220; 250; 280; 310; 340] 0 355 i /\
    forall j, (j < 12)%nat ->
      in_house [10; 40; 70; 100; 130; 160; 190; 220; 250; 280; 310; 340] 0 355 j ->
      j = i.
Proof.
  split; [split; [reflexivity | exact example_cusps_turn_once]|].
  apply (locate_house_exactly_one
           [10; 40; 70; 100; 130; 160; 190; 220; 250; 280; 310; 340] 0 355);
    [reflexivity | exact example_cusps_turn_once].
Defined.

(** X19: when the twelve cusps turn once around the circle, the cusp of
    each house is placed in that house: a body exactly on cusp [i] is in
    house [i], not in the house before. *)
Theorem locate_house_of_cusp (cusp_list : list Q) (ayanamsha : Q) (i : nat) :
  List.length cusp_list = 12%nat ->
  cusps_turn_once cusp_list ayanamsha ->
  (i < 12)%nat ->
  locate_house cusp_list ayanamsha (sidereal_cusp cusp_list ayanamsha i) =
    Ok (Z.of_nat i + 1)%Z.
Proof.
  intros Hlen [w [Hw Hrise]] Hi.
  pose proof (turn_once_own_cusp cusp_list ayanamsha w Hw Hrise i Hi) as Hown.
  destruct (turn_once_one_house cusp_list ayanamsha w Hw Hrise
              (sidereal_cusp cusp_list ayanamsha i)) as [i0 [Hi0 [Hin0 Huniq]]].
  destruct (locate_house_spec cusp_list ayanamsha
              (sidereal_cusp cusp_list ayanamsha i) Hlen)
    as [h [Hh [[i' [Hi' [E [Hin' _]]]] | [_ Hnone]]]].
  - rewrite Hh, E, (Huniq i' Hi' Hin'), <- (Huniq i Hi Hown). reflexivity.
  - exfalso. exact (Hnone i Hi Hown).
Qed.

(** The cusp of house 4 of the example, at 100 degrees. *)
Lemma locate_house_of_cusp_witness :
  (List.length [10; 40; 70; 100; 130; 160; 190; 220; 250; 280; 310; 340] = 12%nat /\
   cusps_turn_once [10; 40; 70; 100; 130; 160; 190; 220; 250; 280; 310; 340] 0 /\
   (3 < 12)%nat) /\
  locate_house [10; 40; 70; 100; 130; 160; 190; 220; 250; 280; 310; 340] 0
    (sidereal_cusp [10; 40; 70; 100; 130; 160; 190; 220; 250; 280; 310; 340] 0 3) =
    Ok (Z.of_nat 3 + 1)%Z.
Proof.
  split; [split; [reflexivity | split; [exact example_cusps_turn_once | lia]]|].
  apply (locate_house_of_cusp
           [10; 40; 70; 100; 130; 160; 190; 220; 250; 280; 310; 340] 0 3);
    [reflexivity | exact example_cusps_turn_once | lia].
Defined.

(** ** The chart: what is returned *)

Lemma planet_entry_inv
  (calc_ut : Q -> swe_body -> Q) (houses : Q -> Q -> Q -> list Q)
  (JD lat lon ayanamsha : Q) (pconst : swe_body) (pname : string)
  (r : planet_record) (cusp_list : list Q) :
  planet_entry calc_ut houses JD lat lon ayanamsha (pconst, pname) =
    Ok (r, cusp_list) ->
  planet_name r = pname /\
  (exists pid, py_index pname (map snd PLANETS) = Ok pid /\
               planet_id r = Z.of_nat pid) /\
  is_retro r = is_retrograde calc_ut JD pconst 2 /\
  cusp_list_of (houses JD lat lon) = Ok cusp_list /\
  planet_classified cusp_list ayanamsha
    (normalize_angle (normalize_angle (calc_ut JD pconst) - ayanamsha)) r.
Proof.
  unfold planet_entry. intro H.
  do 9 (match goal with H' : bind _ _ = Ok _ |- _ => bind_step H' end).
  match goal with H' : Ok _ = Ok _ |- _ => injection H' as Hr Hc end.
  subst r cusp_list. unfold planet_classified.
  cbn [planet_name planet_id full_degree norm_degree is_retro sign_id sign_name
       sign_lord house house_lord nakshatra_name nakshatra_id nakshatra_lord
       nakshatra_charan sub_lord sub_sub_lord sub_sub_sub_lord].
  split; [reflexivity|]. split; [eexists; split; [eassumption | reflexivity]|].
  split; [reflexivity|]. split; [assumption|].
  split; [reflexivity|]. split; [reflexivity|].
  split; [assumption|]. split; [assumption|].
  split; [eexists _, _, _; split; [eassumption | split; eassumption]|].
  split; assumption.
Qed.

Lemma ketu_record_inv (rahu : planet_record) (cusp_list : list Q)
  (ayanamsha : Q) (ketu : planet_record) :
  ketu_record rahu cusp_list ayanamsha = Ok ketu ->
  planet_name ketu = "Ketu" /\ planet_id ketu = 100%Z /\
  is_retro ketu = is_retro rahu /\
  planet_classified cusp_list ayanamsha
    (normalize_angle (full_degree rahu + 180)) ketu.
Proof.
  unfold ketu_record. intro H.
  do 7 (match goal with H' : bind _ _ = Ok _ |- _ => bind_step H' end).
  match goal with H' : Ok _ = Ok _ |- _ => injection H' as Hk end.
  subst ketu. unfold planet_classified.
  cbn [planet_name planet_id full_degree norm_degree is_retro sign_id sign_name
       sign_lord house house_lord nakshatra_name nakshatra_id nakshatra_lord
       nakshatra_charan sub_lord sub_sub_lord sub_sub_sub_lord].
  split; [reflexivity|]. split; [reflexivity|]. split; [reflexivity|].
  split; [reflexivity|]. split; [reflexivity|].
  split; [assumption|]. split; [assumption|].
  split; [eexists _, _, _; split; [eassumption | split; eassumption]|].
  split; assumption.
Qed.

Lemma house_entry_inv (cusp_list : list Q) (ayanamsha : Q) (i : Z)
  (h : house_record) :
  house_entry cusp_list ayanamsha i = Ok h ->
  exists c,
    py_getitem cusp_list i = Ok c /\
    h_house_id h = (i + 1)%Z /\
    h_full_degree h = round6 (normalize_angle (normalize_angle c - ayanamsha)) /\
    sign_from_deg (normalize_angle (normalize_angle c - ayanamsha)) =
      Ok (h_sign_id h, h_sign_name h) /\
    dict_get SIGN_RULER (h_sign_id h) = Ok (h_sign_lord h).
Proof.
  unfold house_entry. intro H.
  do 6 (match goal with H' : bind _ _ = Ok _ |- _ => bind_step H' end).
  match goal with H' : Ok _ = Ok _ |- _ => injection H' as Hk end.
  subst h.
  cbn [h_house_id h_full_degree h_sign_id h_sign_name h_sign_lord].
  eexists. split; [eassumption|]. split; [reflexivity|]. split; [reflexivity|].
  split; assumption.
Qed.

Lemma mapM_Forall2 {A B : Type} (f : A -> result B) (l : list A) (bs : list B) :
  mapM f l = Ok bs -> Forall2 (fun a b => f a = Ok b) l bs.
Proof.
  revert bs. induction l as [|a l IH]; intros bs.
  - intro H. injection H as <-. constructor.
  - cbn [mapM]. intro H.
    apply bind_Ok in H. destruct H as [b [Hb H]].
    apply bind_Ok in H. destruct H as [bs' [Hbs H]].
    injection H as <-. constructor; [exact Hb | apply IH; exact Hbs].
Qed.

(** The parts of a chart that is returned. *)
Lemma compute_kp_json_inv
  (calc_ut : Q -> swe_body -> Q) (houses : Q -> Q -> Q -> list Q)
  (get_ayanamsa_ut : Q -> Q) (JD lat lon : Q) (out : chart) :
  compute_kp_json calc_ut houses get_ayanamsa_ut JD lat lon = Ok out ->
  exists recs rahu ketu cusp_list,
    Forall2 (fun p r => exists c,
               planet_entry calc_ut houses JD lat lon (get_ayanamsa_ut JD) p =
                 Ok (r, c)) PLANETS recs /\
    cusp_list_of (houses JD lat lon) = Ok cusp_list /\
    In rahu recs /\
    ketu_record rahu cusp_list (get_ayanamsa_ut JD) = Ok ketu /\
    Forall2 (fun i h => house_entry cusp_list (get_ayanamsa_ut JD) i = Ok h)
      (py_range 0 12) (houses_of out) /\
    planets_of out = (recs ++ [ketu])%list /\
    ayanamsha_of out = get_ayanamsa_ut JD.
Proof.
  unfold compute_kp_json. intro H.
  apply bind_Ok in H. destruct H as [[planets cusp_list] [Eloop H]].
  destruct (planets_loop_entries calc_ut houses JD lat lon (get_ayanamsa_ut JD)
              PLANETS [] [] planets cusp_list Eloop)
    as [recs [Hrecs [Hall Hcusp]]].
  simpl app in Hrecs. subst planets.
  destruct (planets_find_rahu calc_ut houses JD lat lon (get_ayanamsa_ut JD)
              recs Hall) as [rahu [c [Hfind [Hin Hentry]]]].
  rewrite Hfind in H.
  apply bind_Ok in H. destruct H as [planets' [Eketu H]].
  apply bind_Ok in Eketu. destruct Eketu as [ketu [Eketu Hp]].
  injection Hp as Hp. subst planets'.
  apply bind_Ok in H. destruct H as [cusp_list' [Hcl' H]].
  apply bind_Ok in H. destruct H as [hs [Hhs H]].
  injection H as H. subst out. cbn [planets_of houses_of ayanamsha_of].
  assert (Ecl : cusp_list' = cusp_list).
  { rewrite Hcusp in Hcl' by discriminate. congruence. }
  subst cusp_list'.
  exists recs, rahu, ketu, cusp_list.
  split; [exact Hall|]. split; [apply Hcusp; discriminate|].
  split; [exact Hin|]. split; [exact Eketu|].
  split; [apply mapM_Forall2; exact Hhs|]. split; reflexivity.
Qed.

Lemma Zle_of_Qle (a b : Z) : inject_Z a <= inject_Z b -> (a <= b)%Z.
Proof. intro H. rewrite Zle_Qle. exact H. Qed.

Lemma round_half_even_cases (y : Q) :
  (round_half_even y = Qfloor y /\ y - inject_Z (Qfloor y) <= 1 # 2) \/
  (round_half_even y = (Qfloor y + 1)%Z /\ 1 # 2 <= y - inject_Z (Qfloor y)).
Proof.
  unfold round_half_even.
  destruct (Qlt_bool (y - inject_Z (Qfloor y)) (1 # 2)) eqn:E1.
  - apply Qlt_bool_iff in E1. left. split; [reflexivity | lra].
  - apply Qlt_bool_false_iff in E1.
    destruct (Qlt_bool (1 # 2) (y - inject_Z (Qfloor y))) eqn:E2.
    + right. split; [reflexivity | exact E1].
    + apply Qlt_bool_false_iff in E2.
      destruct (Z.even (Qfloor y)); [left | right]; split;
        try reflexivity; assumption.
Qed.

Lemma round_half_even_error (y : Q) :
  Qabs (inject_Z (round_half_even y) - y) <= 1 # 2.
Proof.
  destruct (Qfloor_bounds y) as [Flo Fhi].
  apply Qabs_Qle_condition.
  destruct (round_half_even_cases y) as [[E H]|[E H]]; rewrite E.
  - split; lra.
  - rewrite inject_Z_plus. change (inject_Z 1) with 1. split; lra.
Qed.

Lemma round_half_even_range (y : Q) (lo hi : Z) :
  inject_Z lo <= y -> y <= inject_Z hi ->
  (lo <= round_half_even y <= hi)%Z.
Proof.
  intros Hlo Hhi. destruct (Qfloor_bounds y) as [Flo Fhi].
  assert (Hf : (lo <= Qfloor y)%Z).
  { rewrite <- (Qfloor_Z lo). apply Qfloor_resp_le. exact Hlo. }
  destruct (round_half_even_cases y) as [[E H]|[E H]]; rewrite E.
  - split; [exact Hf|]. apply Zle_of_Qle. lra.
  - split; [lia|].
    assert (Hlt : inject_Z (Qfloor y) < inject_Z hi) by lra.
    apply Zlt_of_Qlt in Hlt. lia.
Qed.


Lemma round6_range (x : Q) (lo hi : Z) :
  inject_Z lo <= x -> x <= inject_Z hi ->
  inject_Z lo <= round6 x /\ round6 x <= inject_Z hi.
Proof.
  intros Hlo Hhi. unfold round6.
  destruct (round_half_even_range (x * 1000000) (lo * 1000000) (hi * 1000000))
    as [R1 R2].
  { rewrite inject_Z_mult. change (inject_Z 1000000) with 1000000. lra. }
  { rewrite inject_Z_mult. change (inject_Z 1000000) with 1000000. lra. }
  rewrite Zle_Qle, inject_Z_mult in R1, R2.
  change (inject_Z 1000000) with 1000000 in R1, R2.
  set (z := inject_Z (round_half_even (x * 1000000))) in *.
  assert (E : z / 1000000 == z * (1 # 1000000)) by (unfold Qdiv; reflexivity).
  rewrite E. split; lra.
Qed.


Lemma sub_lord_fields_head (sub_lords : list string) (s0 : string)
  (s1 s2 : option string) :
  sub_lord_fields sub_lords = Ok (s0, s1, s2) ->
  exists rest, sub_lords = s0 :: rest /\ s1 = nth_error rest 0 /\
               s2 = nth_error rest 1.
Proof.
  destruct sub_lords as [|lord rest]; [discriminate|].
  rewrite sub_lord_fields_cons. intro H. injection H as <- <- <-.
  exists rest. repeat split.
Qed.

(** What a record that classifies a canonical longitude holds. *)
Lemma planet_classified_ranges (cusp_list : list Q) (ayanamsha sid : Q)
  (r : planet_record) :
  List.length cusp_list = 12%nat -> 0 <= sid -> sid < 360 ->
  planet_classified cusp_list ayanamsha sid r ->
  (0 <= full_degree r /\ full_degree r <= 360) /\
  (0 <= norm_degree r /\ norm_degree r <= 30) /\
  (1 <= sign_id r <= 12)%Z /\
  nth_error SIGN_NAMES (Z.to_nat (sign_id r - 1)) = Some (sign_name r) /\
  (1 <= house r <= 12)%Z /\
  (1 <= nakshatra_id r <= 27)%Z /\
  nth_error NAK_SHAPES (Z.to_nat (nakshatra_id r - 1)) =
    Some (nakshatra_name r, nakshatra_lord r) /\
  (1 <= nakshatra_charan r <= 4)%Z /\
  In (sub_lord r) VIMSHOTTARI_ORDER.
Proof.
  intros Hlen Hlo Hhi [Hfull [Hnorm [Hsign [_ [[pos [size [chain [Hnak [Hfind Hsub]]]]]
                                              [Hhouse _]]]]]].
  split.
  { rewrite Hfull. apply (round6_range sid 0 360); unfold inject_Z; lra. }
  split.
  { rewrite Hnorm. destruct (py_mod_bounds sid 30 eq_refl) as [M1 M2].
    apply (round6_range _ 0 30); unfold inject_Z; lra. }
  destruct (sign_from_deg_eq sid) as [sn [Hs [Hnth Hk]]].
  assert (Ei : sign_id r = (Qfloor (normalize_angle sid / 30) + 1)%Z)
    by congruence.
  assert (En : sign_name r = sn) by congruence.
  split; [lia|]. split.
  { rewrite Ei, En.
    replace (Qfloor (normalize_angle sid / 30) + 1 - 1)%Z
      with (Qfloor (normalize_angle sid / 30)) by lia. exact Hnth. }
  destruct (locate_house_ok cusp_list ayanamsha sid Hlen) as [h [Hh Hr]].
  assert (Eh : house r = h) by congruence.
  split; [lia|].
  destruct (get_nak_charan_and_pos_eq sid)
    as [nn [nl [pos' [Hg [Hkk [Hnth' [_ [_ [_ Hc]]]]]]]]].
  rewrite Hg in Hnak.
  destruct (Ok_tuple6_inj _ _ _ _ _ _ _ _ _ _ _ _ Hnak)
    as [Hni [Hnn [Hnl [Hch [Hp Hsz]]]]].
  split; [lia|]. split.
  { rewrite <- Hni, <- Hnn, <- Hnl.
    replace (Qfloor (py_mod sid 360 / (360 / 27)) + 1 - 1)%Z
      with (Qfloor (py_mod sid 360 / (360 / 27))) by lia. exact Hnth'. }
  split; [lia|].
  assert (Hin : In (nakshatra_lord r) VIMSHOTTARI_ORDER).
  { rewrite <- Hnl. pose proof NAK_SHAPES_lords as Hall.
    rewrite Forall_forall in Hall. apply (Hall (nn, nl)).
    eapply nth_error_In. exact Hnth'. }
  destruct (sub_lord_fields_head _ _ _ _ Hsub) as [rest [Ech _]].
  destruct (find_sub_lord_recursive_chain pos size (nakshatra_lord r) 3 Hin)
    as [lords [Hl [_ Hval]]].
  { rewrite <- Hsz. discriminate. }
  rewrite Hfind in Hl. injection Hl as <-. subst chain.
  exact (Forall_inv Hval).
Qed.

Lemma Forall2_In_left {A B : Type} (R : A -> B -> Prop) (l : list A)
  (l' : list B) (a : A) :
  Forall2 R l l' -> In a l -> exists b, In b l' /\ R a b.
Proof.
  induction 1 as [|x y l l' Hxy _ IH]; intro Hin; [destruct Hin|].
  destruct Hin as [<-|Hin].
  - exists y. split; [left; reflexivity | exact Hxy].
  - destruct (IH Hin) as [b [Hb Hr]]. exists b. split; [right; exact Hb | exact Hr].
Qed.

Lemma Forall2_In_right {A B : Type} (R : A -> B -> Prop) (l : list A)
  (l' : list B) (b : B) :
  Forall2 R l l' -> In b l' -> exists a, In a l /\ R a b.
Proof.
  induction 1 as [|x y l l' Hxy _ IH]; intro Hin; [destruct Hin|].
  destruct Hin as [<-|Hin].
  - exists x. split; [left; reflexivity | exact Hxy].
  - destruct (IH Hin) as [a [Ha Hr]]. exists a. split; [right; exact Ha | exact Hr].
Qed.

Lemma cusp_list_of_length (cusps cusp_list : list Q) :
  cusp_list_of cusps = Ok cusp_list ->
  List.length cusp_list = 12%nat /\
  (List.length cusps = 12%nat \/ List.length cusps = 13%nat).
Proof.
  unfold cusp_list_of.
  destruct (Nat.eqb_spec (List.length cusps) 13) as [E13|N13].
  - intro H. apply mapM_Forall2 in H. apply Forall2_length in H.
    split; [rewrite <- H; reflexivity | right; exact E13].
  - destruct (Nat.eqb_spec (List.length cusps) 12) as [E12|N12]; [|discriminate].
    intro H. apply mapM_Forall2 in H. apply Forall2_length in H.
    split; [rewrite <- H; reflexivity | left; exact E12].
Qed.

Lemma planet_entry_bad_cusps
  (calc_ut : Q -> swe_body -> Q) (houses : Q -> Q -> Q -> list Q)
  (JD lat lon ayanamsha : Q) (p : swe_body * string) :
  List.length (houses JD lat lon) <> 12%nat ->
  List.length (houses JD lat lon) <> 13%nat ->
  planet_entry calc_ut houses JD lat lon ayanamsha p = Raise ValueError.
Proof.
  intros N12 N13. destruct p as [pconst pname]. unfold planet_entry.
  destruct (classification_ok (normalize_angle (calc_ut JD pconst) - ayanamsha))
    as [sid [sname [slord [ni [nn [nl [ch [pos [size [subs [s0 [s1 [s2
         [Hs [Hl [Hn [Hf Hsub]]]]]]]]]]]]]]]]].
  rewrite Hs. cbn [bind]. rewrite Hl. cbn [bind]. rewrite Hn. cbn [bind].
  rewrite Hf. cbn [bind]. unfold cusp_list_of.
  rewrite (proj2 (Nat.eqb_neq _ _) N13), (proj2 (Nat.eqb_neq _ _) N12).
  reflexivity.
Qed.

(** X20: a chart is returned only when the ephemeris gives twelve or
    thirteen cusps; with any other number the first pass of the planets
    loop raises [ValueError]. *)
Theorem compute_kp_json_cusps
  (calc_ut : Q -> swe_body -> Q) (houses : Q -> Q -> Q -> list Q)
  (get_ayanamsa_ut : Q -> Q) (JD lat lon : Q) :
  (forall out,
     compute_kp_json calc_ut houses get_ayanamsa_ut JD lat lon = Ok out ->
     List.length (houses JD lat lon) = 12%nat \/
     List.length (houses JD lat lon) = 13%nat) /\
  (List.length (houses JD lat lon) <> 12%nat ->
   List.length (houses JD lat lon) <> 13%nat ->
   compute_kp_json calc_ut houses get_ayanamsa_ut JD lat lon = Raise ValueError).
Proof.
  split.
  - intros out H.
    destruct (compute_kp_json_inv _ _ _ _ _ _ _ H)
      as [recs [rahu [ketu [cl [_ [Hcl _]]]]]].
    exact (proj2 (cusp_list_of_length _ _ Hcl)).
  - intros N12 N13. unfold compute_kp_json, PLANETS. cbn [planets_loop].
    rewrite (planet_entry_bad_cusps calc_ut houses JD lat lon
               (get_ayanamsa_ut JD) (SUN, "Sun") N12 N13).
    reflexivity.
Qed.

Lemma compute_kp_json_cusps_witness :
  List.length (@nil Q) <> 12%nat /\ List.length (@nil Q) <> 13%nat /\
  compute_kp_json example_calc_ut (fun _ _ _ => []) example_ayanamsa 1 0 0 =
    Raise ValueError.
Proof.
  split; [discriminate|]. split; [discriminate|].
  apply (proj2 (compute_kp_json_cusps example_calc_ut (fun _ _ _ => [])
                  example_ayanamsa 1 0 0)); discriminate.
Defined.

(** X21: a chart that is returned has nine planet records, named Sun,
    Moon, Mercury, Venus, Mars, Jupiter, Saturn, Rahu and Ketu in this
    order, with the ids 0 to 7 and 100, and twelve house records with the
    ids 1 to 12 in order; its ayanamsha is the one of the ephemeris. *)
Theorem chart_shape
  (calc_ut : Q -> swe_body -> Q) (houses : Q -> Q -> Q -> list Q)
  (get_ayanamsa_ut : Q -> Q) (JD lat lon : Q) (out : chart) :
  compute_kp_json calc_ut houses get_ayanamsa_ut JD lat lon = Ok out ->
  map planet_name (planets_of out) =
    ["Sun"; "Moon"; "Mercury"; "Venus"; "Mars"; "Jupiter"; "Saturn"; "Rahu";
     "Ketu"] /\
  map planet_id (planets_of out) = [0; 1; 2; 3; 4; 5; 6; 7; 100]%Z /\
  map h_house_id (houses_of out) = [1; 2; 3; 4; 5; 6; 7; 8; 9; 10; 11; 12]%Z /\
  ayanamsha_of out = get_ayanamsa_ut JD.
Proof.
  intro H.
  destruct (compute_kp_json_inv _ _ _ _ _ _ _ H)
    as [recs [rahu [ketu [cl [Hall [_ [_ [Hketu [Hhs [Hp Ha]]]]]]]]]].
  destruct (ketu_record_inv _ _ _ _ Hketu) as [Kn [Kid _]].
  rewrite Hp, !map_app. cbn [map]. rewrite Kn, Kid.
  unfold PLANETS in Hall.
  repeat match goal with
         | H' : Forall2 _ (_ :: _) _ |- _ => inversion H'; subst; clear H'
         | H' : Forall2 _ [] _ |- _ => inversion H'; subst; clear H'
         end.
  repeat match goal with
         | H' : exists c, planet_entry _ _ _ _ _ _ _ = Ok _ |- _ =>
             let c := fresh "c" in
             let E := fresh "E" in
             let Hn := fresh "Hn" in
             let pid := fresh "pid" in
             let Hpid := fresh "Hpid" in
             let Hid := fresh "Hid" in
             destruct H' as [c E];
             destruct (planet_entry_inv _ _ _ _ _ _ _ _ _ _ E)
               as [Hn [[pid [Hpid Hid]] _]];
             vm_compute in Hpid; injection Hpid as Hpid; subst pid;
             clear E
         end.
  cbn [map app].
  repeat match goal with
         | Hn : planet_name _ = _ |- _ => rewrite Hn; clear Hn
         | Hid : planet_id _ = _ |- _ => rewrite Hid; clear Hid
         end.
  split; [reflexivity|]. split; [reflexivity|]. split; [|exact Ha].
  unfold py_range in Hhs. cbn [seq map] in Hhs.
  repeat match goal with
         | H' : Forall2 _ (_ :: _) _ |- _ => inversion H'; subst; clear H'
         | H' : Forall2 _ [] _ |- _ => inversion H'; subst; clear H'
         end.
  cbn [map].
  repeat match goal with
         | H' : house_entry _ _ _ = Ok _ |- _ =>
             let c := fresh "c" in
             let Hid := fresh "Hid" in
             destruct (house_entry_inv _ _ _ _ H') as [c [_ [Hid _]]];
             rewrite Hid; clear H' Hid
         end.
  reflexivity.
Qed.

Lemma chart_shape_witness :
  exists out,
    compute_kp_json example_calc_ut example_houses example_ayanamsa 1 0 0 =
      Ok out /\
    map planet_name (planets_of out) =
      ["Sun"; "Moon"; "Mercury"; "Venus"; "Mars"; "Jupiter"; "Saturn"; "Rahu";
       "Ketu"] /\
    map planet_id (planets_of out) = [0; 1; 2; 3; 4; 5; 6; 7; 100]%Z /\
    map h_house_id (houses_of out) = [1; 2; 3; 4; 5; 6; 7; 8; 9; 10; 11; 12]%Z /\
    ayanamsha_of out = example_ayanamsa 1.
Proof.
  assert (E : exists out,
             compute_kp_json example_calc_ut example_houses example_ayanamsa
               1 0 0 = Ok out)
    by (eexists; vm_compute; reflexivity).
  destruct E as [out E]. exists out. split; [exact E|].
  apply (chart_shape example_calc_ut example_houses example_ayanamsa 1 0 0 out E).
Defined.

(** Every planet record of a chart classifies a canonical longitude
    against the twelve cusps of the chart. *)
Lemma chart_planets_classified
  (calc_ut : Q -> swe_body -> Q) (houses : Q -> Q -> Q -> list Q)
  (get_ayanamsa_ut : Q -> Q) (JD lat lon : Q) (out : chart) :
  compute_kp_json calc_ut houses get_ayanamsa_ut JD lat lon = Ok out ->
  exists cusp_list,
    cusp_list_of (houses JD lat lon) = Ok cusp_list /\
    List.length cusp_list = 12%nat /\
    Forall2 (fun i h => house_entry cusp_list (get_ayanamsa_ut JD) i = Ok h)
      (py_range 0 12) (houses_of out) /\
    forall r, In r (planets_of out) ->
      exists sid, 0 <= sid /\ sid < 360 /\
        planet_classified cusp_list (get_ayanamsa_ut JD) sid r.
Proof.
  intro H.
  destruct (compute_kp_json_inv _ _ _ _ _ _ _ H)
    as [recs [rahu [ketu [cl [Hall [Hcl [_ [Hketu [Hhs [Hp _]]]]]]]]]].
  exists cl. split; [exact Hcl|].
  destruct (cusp_list_of_length _ _ Hcl) as [Hlen _].
  split; [exact Hlen|]. split; [exact Hhs|].
  intros r Hin. rewrite Hp in Hin. apply in_app_or in Hin.
  destruct Hin as [Hin|[<-|[]]].
  - destruct (Forall2_In_right _ _ _ r Hall Hin) as [[pconst pname] [_ [c Hc]]].
    destruct (planet_entry_inv _ _ _ _ _ _ _ _ _ _ Hc) as [_ [_ [_ [Hc' Hk]]]].
    assert (E : c = cl) by congruence. subst c.
    eexists. split; [|split; [|exact Hk]]; apply normalize_angle_range.
  - destruct (ketu_record_inv _ _ _ _ Hketu) as [_ [_ [_ Hk]]].
    eexists. split; [|split; [|exact Hk]]; apply normalize_angle_range.
Qed.

(** X22: in a chart that is returned every planet record, Ketu's
    included, is within bounds: [full_degree] in [[0, 360]] and
    [norm_degree] in [[0, 30]] (the upper ends can be reached by the
    rounding to six decimals), the sign in 1..12 with the name of the
    table, the house in 1..12, the nakshatra in 1..27 with the name and
    lord of the table, the pada in 1..4, and the sub-lord a lord of the
    Vimshottari table. *)
Theorem chart_planet_records_in_range
  (calc_ut : Q -> swe_body -> Q) (houses : Q -> Q -> Q -> list Q)
  (get_ayanamsa_ut : Q -> Q) (JD lat lon : Q) (out : chart)
  (r : planet_record) :
  compute_kp_json calc_ut houses get_ayanamsa_ut JD lat lon = Ok out ->
  In r (planets_of out) ->
  (0 <= full_degree r /\ full_degree r <= 360) /\
  (0 <= norm_degree r /\ norm_degree r <= 30) /\
  (1 <= sign_id r <= 12)%Z /\
  nth_error SIGN_NAMES (Z.to_nat (sign_id r - 1)) = Some (sign_name r) /\
  (1 <= house r <= 12)%Z /\
  (1 <= nakshatra_id r <= 27)%Z /\
  nth_error NAK_SHAPES (Z.to_nat (nakshatra_id r - 1)) =
    Some (nakshatra_name r, nakshatra_lord r) /\
  (1 <= nakshatra_charan r <= 4)%Z /\
  In (sub_lord r) VIMSHOTTARI_ORDER.
Proof.
  intros H Hin.
  destruct (chart_planets_classified _ _ _ _ _ _ _ H)
    as [cl [_ [Hlen [_ Hall]]]].
  destruct (Hall r Hin) as [sid [Hlo [Hhi Hk]]].
  exact (planet_classified_ranges cl _ sid r Hlen Hlo Hhi Hk).
Qed.

Lemma example_chart :
  exists out,
    compute_kp_json example_calc_ut example_houses example_ayanamsa 1 0 0 =
      Ok out.
Proof. eexists. vm_compute. reflexivity. Qed.

Lemma chart_planet_records_in_range_witness :
  exists out r,
    compute_kp_json example_calc_ut example_houses example_ayanamsa 1 0 0 =
      Ok out /\
    In r (planets_of out) /\
    (0 <= full_degree r /\ full_degree r <= 360) /\
    (1 <= sign_id r <= 12)%Z /\ (1 <= house r <= 12)%Z /\
    (1 <= nakshatra_id r <= 27)%Z /\ (1 <= nakshatra_charan r <= 4)%Z.
Proof.
  destruct example_chart as [out E].
  destruct (compute_kp_json_inv _ _ _ _ _ _ _ E)
    as [recs [_ [r [_ [_ [_ [_ [_ [_ [Ep _]]]]]]]]]].
  assert (Hin : In r (planets_of out)).
  { rewrite Ep. apply in_or_app. right. left. reflexivity. }
  destruct (chart_planet_records_in_range example_calc_ut example_houses
              example_ayanamsa 1 0 0 out r E Hin)
    as [H1 [_ [H3 [_ [H5 [H6 [_ [H8 _]]]]]]]].
  exists out, r. repeat split; try assumption; try apply H1; try lia.
Defined.

Lemma In_py_range_of (a : Z) (n : nat) (i : Z) :
  (a <= i < a + Z.of_nat n)%Z -> In i (py_range a n).
Proof.
  intro H. unfold py_range. apply in_map_iff.
  exists (Z.to_nat (i - a)). split; [lia|]. apply in_seq. lia.
Qed.

Lemma normalize_angle_thrice (c a : Q) :
  normalize_angle (normalize_angle (normalize_angle c - a)) ==
  normalize_angle (c - a).
Proof.
  rewrite (normalize_angle_small (normalize_angle (normalize_angle c - a)))
    by apply normalize_angle_range.
  unfold Qminus. apply normalize_angle_add_normalized.
Qed.

(** X23: the [house_lord] of every planet record is the [sign_lord] of the
    house record of the planet's house, although the planets loop takes
    it from the floor division of the cusp by 30 and the houses loop from
    [sign_from_deg] of the cusp normalised once more. *)
Theorem planet_house_lord_matches_house_record
  (calc_ut : Q -> swe_body -> Q) (houses : Q -> Q -> Q -> list Q)
  (get_ayanamsa_ut : Q -> Q) (JD lat lon : Q) (out : chart)
  (r : planet_record) :
  compute_kp_json calc_ut houses get_ayanamsa_ut JD lat lon = Ok out ->
  In r (planets_of out) ->
  exists h, In h (houses_of out) /\
    h_house_id h = house r /\ h_sign_lord h = house_lord r.
Proof.
  intros H Hin.
  destruct (chart_planets_classified _ _ _ _ _ _ _ H)
    as [cl [_ [Hlen [Hhs Hall]]]].
  destruct (Hall r Hin) as [sid [Hlo [Hhi Hk]]].
  pose proof (planet_classified_ranges cl _ sid r Hlen Hlo Hhi Hk)
    as [_ [_ [_ [_ [Hhouse _]]]]].
  destruct Hk as [_ [_ [_ [_ [_ [_ Hlord]]]]]].
  assert (Hi : In (house r - 1)%Z (py_range 0 12))
    by (apply In_py_range_of; lia).
  destruct (Forall2_In_left _ _ _ _ Hhs Hi) as [h [Hh Eh]].
  exists h. split; [exact Hh|].
  destruct (house_entry_inv _ _ _ _ Eh) as [c [Hc [Hid [_ [Hsign Hruler]]]]].
  split; [lia|].
  revert Hlord. unfold house_lord_of. rewrite Hc. cbn [bind]. intro Hlord.
  destruct (sign_from_deg_eq
              (normalize_angle (normalize_angle c - get_ayanamsa_ut JD)))
    as [name [Es _]].
  rewrite Es in Hsign.
  assert (Eid : h_sign_id h =
                (py_floordiv (normalize_angle (c - get_ayanamsa_ut JD)) 30 + 1)%Z).
  { assert (E1 : (Qfloor
                    (normalize_angle
                       (normalize_angle
                          (normalize_angle c - get_ayanamsa_ut JD)) / 30) + 1)%Z =
                 h_sign_id h) by congruence.
    rewrite <- E1. unfold py_floordiv. f_equal. apply Qfloor_comp.
    rewrite normalize_angle_thrice. reflexivity. }
  rewrite Eid in Hruler. congruence.
Qed.

Lemma planet_house_lord_matches_house_record_witness :
  exists out r h,
    compute_kp_json example_calc_ut example_houses example_ayanamsa 1 0 0 =
      Ok out /\
    In r (planets_of out) /\ In h (houses_of out) /\
    h_house_id h = house r /\ h_sign_lord h = house_lord r.
Proof.
  destruct example_chart as [out E].
  destruct (compute_kp_json_inv _ _ _ _ _ _ _ E)
    as [recs [_ [r [_ [_ [_ [_ [_ [_ [Ep _]]]]]]]]]].
  assert (Hin : In r (planets_of out)).
  { rewrite Ep. apply in_or_app. right. left. reflexivity. }
  destruct (planet_house_lord_matches_house_record example_calc_ut
              example_houses example_ayanamsa 1 0 0 out r E Hin)
    as [h [Hh [H1 H2]]].
  exists out, r, h. repeat split; assumption.
Defined.

Lemma chart_planet_of_entry
  (calc_ut : Q -> swe_body -> Q) (houses : Q -> Q -> Q -> list Q)
  (get_ayanamsa_ut : Q -> Q) (JD lat lon : Q) (out : chart)
  (pconst : swe_body) (pname : string) :
  compute_kp_json calc_ut houses get_ayanamsa_ut JD lat lon = Ok out ->
  In (pconst, pname) PLANETS ->
  exists r cusp_list sid,
    In r (planets_of out) /\ planet_name r = pname /\
    is_retro r = is_retrograde calc_ut JD pconst 2 /\
    sid == normalize_angle (calc_ut JD pconst - get_ayanamsa_ut JD) /\
    planet_classified cusp_list (get_ayanamsa_ut JD) sid r.
Proof.
  intros H Hin.
  destruct (compute_kp_json_inv _ _ _ _ _ _ _ H)
    as [recs [rahu [ketu [cl [Hall [_ [_ [_ [_ [Hp _]]]]]]]]]].
  destruct (Forall2_In_left _ _ _ _ Hall Hin) as [r [Hr [c Hc]]].
  destruct (planet_entry_inv _ _ _ _ _ _ _ _ _ _ Hc)
    as [Hn [_ [Hretro [_ Hk]]]].
  exists r, c, (normalize_angle
                  (normalize_angle (calc_ut JD pconst) - get_ayanamsa_ut JD)).
  split; [rewrite Hp; apply in_or_app; left; exact Hr|].
  split; [exact Hn|]. split; [exact Hretro|]. split; [|exact Hk].
  unfold Qminus. apply normalize_angle_add_normalized.
Qed.



Lemma round_half_even_near (y : Q) (n : Z) :
  inject_Z n - (1 # 2) < y -> y < inject_Z n + (1 # 2) ->
  round_half_even y = n.
Proof.
  intros Hlo Hhi.
  pose proof (round_half_even_error y) as He.
  apply Qabs_Qle_condition in He. destruct He as [He1 He2].
  assert (H1 : (round_half_even y < n + 1)%Z).
  { apply Zlt_of_Qlt. rewrite inject_Z_plus.
    change (inject_Z 1) with 1. lra. }
  assert (H2 : (n - 1 < round_half_even y)%Z).
  { apply Zlt_of_Qlt. unfold Z.sub. rewrite inject_Z_plus, inject_Z_opp.
    change (inject_Z 1) with 1. lra. }
  lia.
Qed.

Lemma round6_near (x : Q) (n : Z) :
  inject_Z n - (1 # 2000000) < x -> x < inject_Z n + (1 # 2000000) ->
  round6 x == inject_Z n.
Proof.
  intros Hlo Hhi. unfold round6.
  rewrite (round_half_even_near (x * 1000000) (n * 1000000)).
  - rewrite inject_Z_mult. change (inject_Z 1000000) with 1000000. field.
  - rewrite inject_Z_mult. change (inject_Z 1000000) with 1000000. lra.
  - rewrite inject_Z_mult. change (inject_Z 1000000) with 1000000. lra.
Qed.

(** X25: the rounded fields of a record can leave the sign the record
    names.  A body whose sidereal longitude lies below the end of sign
    [k] by less than half a unit of the sixth decimal (here between
    [1e-9] and [4e-7] below it, for longitudes and an ayanamsha in
    [[0, 360)], which leaves room for the rounding of the subtraction)
    gets a record with [sign_id = k], the sign of the unrounded longitude,
    while [full_degree] is rounded up to [30 * k], the start of the next
    sign, and [norm_degree] to 30. *)
Theorem record_rounded_past_its_sign
  (calc_ut : Q -> swe_body -> Q) (houses : Q -> Q -> Q -> list Q)
  (get_ayanamsa_ut : Q -> Q) (JD lat lon : Q) (out : chart)
  (pconst : swe_body) (pname : string) (k : Z) :
  compute_kp_json calc_ut houses get_ayanamsa_ut JD lat lon = Ok out ->
  In (pconst, pname) PLANETS ->
  (1 <= k <= 12)%Z ->
  0 <= calc_ut JD pconst -> calc_ut JD pconst < 360 ->
  0 <= get_ayanamsa_ut JD -> get_ayanamsa_ut JD < 360 ->
  inject_Z (30 * k) - (4 # 10000000) <=
    normalize_angle (calc_ut JD pconst - get_ayanamsa_ut JD) ->
  normalize_angle (calc_ut JD pconst - get_ayanamsa_ut JD) <=
    inject_Z (30 * k) - (1 # 1000000000) ->
  exists r, In r (planets_of out) /\ planet_name r = pname /\
    sign_id r = k /\ full_degree r == inject_Z (30 * k) /\
    norm_degree r == 30.
Proof.
  intros H Hin Hk _ _ _ _ Hlo Hhi.
  destruct (chart_planet_of_entry _ _ _ _ _ _ _ _ _ H Hin)
    as [r [c [sid [Hr [Hn [_ [Hsid Hc]]]]]]].
  exists r. split; [exact Hr|]. split; [exact Hn|].
  rewrite <- Hsid in Hlo, Hhi.
  rewrite inject_Z_mult in Hlo, Hhi. change (inject_Z 30) with 30 in Hlo, Hhi.
  assert (Hk1 : 1 <= inject_Z k).
  { change 1 with (inject_Z 1). rewrite <- Zle_Qle. lia. }
  assert (Hk12 : inject_Z k <= 12).
  { change 12 with (inject_Z 12). rewrite <- Zle_Qle. lia. }
  assert (Hfl : Qfloor (sid / 30) = (k - 1)%Z).
  { apply Qfloor_unique.
    - unfold Z.sub. rewrite inject_Z_plus, inject_Z_opp.
      change (inject_Z 1) with 1.
      apply Qle_shift_div_l; [reflexivity|]. lra.
    - unfold Z.sub. rewrite inject_Z_plus, inject_Z_opp.
      change (inject_Z 1) with 1.
      apply Qlt_shift_div_r; [reflexivity|]. lra. }
  destruct Hc as [Hfull [Hnorm [Hsign _]]].
  split; [|split].
  - assert (R0 : 0 <= sid) by lra.
    assert (R1 : sid < 360) by lra.
    destruct (sign_from_deg_index sid R0 R1) as [name [Es _]].
    rewrite Es in Hsign. rewrite Hfl in Hsign.
    assert (E : (k - 1 + 1)%Z = sign_id r) by congruence. lia.
  - rewrite Hfull. rewrite (round6_near sid (30 * k)).
    + reflexivity.
    + rewrite inject_Z_mult. change (inject_Z 30) with 30. lra.
    + rewrite inject_Z_mult. change (inject_Z 30) with 30. lra.
  - rewrite Hnorm. change 30 with (inject_Z 30) at 2.
    assert (Em : py_mod sid 30 == sid - 30 * (inject_Z k - 1)).
    { unfold py_mod. rewrite Hfl. unfold Z.sub.
      rewrite inject_Z_plus, inject_Z_opp. change (inject_Z 1) with 1. ring. }
    apply round6_near; rewrite Em; change (inject_Z 30) with 30; lra.
Qed.

(** The Sun a quarter of a unit of the sixth decimal below 90 degrees:
    Gemini, shown at 90 degrees with 30 degrees in the sign. *)
Lemma record_rounded_past_its_sign_witness :
  exists out r,
    compute_kp_json example_calc_ut example_houses example_ayanamsa
      (55999999 # 4000000) 0 0 = Ok out /\
    In r (planets_of out) /\ planet_name r = "Sun" /\
    sign_id r = 3%Z /\ full_degree r == 90 /\ norm_degree r == 30.
Proof.
  assert (E : exists out,
             compute_kp_json example_calc_ut example_houses example_ayanamsa
               (55999999 # 4000000) 0 0 = Ok out)
    by (eexists; vm_compute; reflexivity).
  destruct E as [out E].
  assert (Hin : In (SUN, "Sun") PLANETS) by (left; reflexivity).
  assert (Hk : (1 <= 3 <= 12)%Z) by lia.
  assert (C0 : 0 <= example_calc_ut (55999999 # 4000000) SUN)
    by (vm_compute; discriminate).
  assert (C1 : example_calc_ut (55999999 # 4000000) SUN < 360)
    by (vm_compute; reflexivity).
  assert (A0 : 0 <= example_ayanamsa (55999999 # 4000000))
    by (vm_compute; discriminate).
  assert (A1 : example_ayanamsa (55999999 # 4000000) < 360)
    by (vm_compute; reflexivity).
  assert (Hlo : inject_Z (30 * 3) - (4 # 10000000) <=
                normalize_angle (example_calc_ut (55999999 # 4000000) SUN -
                                 example_ayanamsa (55999999 # 4000000)))
    by (vm_compute; discriminate).
  assert (Hhi : normalize_angle (example_calc_ut (55999999 # 4000000) SUN -
                                 example_ayanamsa (55999999 # 4000000)) <=
                inject_Z (30 * 3) - (1 # 1000000000))
    by (vm_compute; discriminate).
  destruct (record_rounded_past_its_sign example_calc_ut example_houses
              example_ayanamsa (55999999 # 4000000) 0 0 out SUN "Sun" 3
              E Hin Hk C0 C1 A0 A1 Hlo Hhi)
    as [r [Hr [Hn [Hs [Hf Hd]]]]].
  exists out, r. repeat split; assumption.
Defined.

Lemma cusp_list_of_twelve (l : list Q) :
  List.length l = 12%nat -> cusp_list_of l = Ok l.
Proof.
  intro H.
  do 12 (destruct l as [|? l]; [discriminate H|]).
  destruct l; [reflexivity | discriminate H].
Qed.

Lemma cusp_list_of_thirteen (c0 : Q) (l : list Q) :
  List.length l = 12%nat -> cusp_list_of (c0 :: l) = Ok l.
Proof.
  intro H.
  do 12 (destruct l as [|? l]; [discriminate H|]).
  destruct l; [reflexivity | discriminate H].
Qed.

Lemma planet_entry_cusps
  (calc_ut : Q -> swe_body -> Q) (houses houses' : Q -> Q -> Q -> list Q)
  (JD lat lon ayanamsha : Q) (p : swe_body * string) :
  cusp_list_of (houses' JD lat lon) = cusp_list_of (houses JD lat lon) ->
  planet_entry calc_ut houses' JD lat lon ayanamsha p =
  planet_entry calc_ut houses JD lat lon ayanamsha p.
Proof.
  intro E. unfold planet_entry. rewrite E. reflexivity.
Qed.

Lemma planets_loop_cusps
  (calc_ut : Q -> swe_body -> Q) (houses houses' : Q -> Q -> Q -> list Q)
  (JD lat lon ayanamsha : Q) (ps : list (swe_body * string))
  (out : list planet_record) (cusp_list : list Q) :
  cusp_list_of (houses' JD lat lon) = cusp_list_of (houses JD lat lon) ->
  planets_loop calc_ut houses' JD lat lon ayanamsha ps out cusp_list =
  planets_loop calc_ut houses JD lat lon ayanamsha ps out cusp_list.
Proof.
  intro E. revert out cusp_list.
  induction ps as [|p ps IH]; intros out cusp_list; [reflexivity|].
  cbn [planets_loop]. rewrite (planet_entry_cusps _ _ _ _ _ _ _ _ E).
  destruct (planet_entry calc_ut houses JD lat lon ayanamsha p) as [[r c]|e];
    cbn [bind]; [apply IH | reflexivity].
Qed.

(** X26: the two shapes of cusps the code accepts give the same chart:
    with thirteen cusps the first entry is an unused slot, and whatever
    it holds the chart is the one of the twelve cusps that follow it. *)
Theorem thirteen_cusps_first_ignored
  (calc_ut : Q -> swe_body -> Q) (houses houses' : Q -> Q -> Q -> list Q)
  (get_ayanamsa_ut : Q -> Q) (JD lat lon c0 : Q) :
  List.length (houses JD lat lon) = 12%nat ->
  houses' JD lat lon = c0 :: houses JD lat lon ->
  compute_kp_json calc_ut houses' get_ayanamsa_ut JD lat lon =
  compute_kp_json calc_ut houses get_ayanamsa_ut JD lat lon.
Proof.
  intros Hlen Hh.
  assert (E : cusp_list_of (houses' JD lat lon) =
              cusp_list_of (houses JD lat lon)).
  { rewrite Hh, (cusp_list_of_thirteen c0 _ Hlen), (cusp_list_of_twelve _ Hlen).
    reflexivity. }
  unfold compute_kp_json.
  rewrite (planets_loop_cusps _ _ _ _ _ _ _ _ _ _ E), E. reflexivity.
Qed.

Lemma thirteen_cusps_first_ignored_witness :
  compute_kp_json example_calc_ut
    (fun jd lat lon => 123 :: example_houses jd lat lon) example_ayanamsa
    1 0 0 =
  compute_kp_json example_calc_ut example_houses example_ayanamsa 1 0 0.
Proof.
  apply (thirteen_cusps_first_ignored example_calc_ut example_houses
           (fun jd lat lon => 123 :: example_houses jd lat lon)
           example_ayanamsa 1 0 0 123); reflexivity.
Defined.

(** ** The parsing of the date and the time *)

Lemma py_split_join (sep : ascii) (s : string) :
  py_join sep (py_split sep s) = s.
Proof.
  induction s as [|c s IH]; [reflexivity|].
  cbn [py_split]. destruct (Ascii.eqb c sep) eqn:Ec.
  - apply Ascii.eqb_eq in Ec. subst c.
    destruct (py_split sep s) as [|piece pieces] eqn:Es.
    + destruct s; [discriminate Es|].
      cbn [py_split] in Es. destruct (Ascii.eqb a sep); [discriminate Es|].
      destruct (py_split sep s); discriminate Es.
    + cbn [py_join]. cbn [append]. f_equal. exact IH.
  - destruct (py_split sep s) as [|piece pieces] eqn:Es.
    + cbn [py_join] in IH |- *. subst s. reflexivity.
    + destruct pieces as [|piece' pieces].
      * cbn [py_join] in IH |- *. subst s. reflexivity.
      * cbn [py_join] in IH |- *. cbn [append]. f_equal. exact IH.
Qed.

Lemma py_split_pieces (sep : ascii) (s : string) :
  Forall (fun piece => ~ In sep (list_ascii_of_string piece)) (py_split sep s).
Proof.
  induction s as [|c s IH].
  - constructor; [|constructor]. intros [].
  - cbn [py_split]. destruct (Ascii.eqb c sep) eqn:Ec.
    + constructor; [intros [] | exact IH].
    + apply Ascii.eqb_neq in Ec.
      destruct (py_split sep s) as [|piece pieces].
      * constructor; [|constructor]. intros [H|[]]. congruence.
      * inversion IH as [|? ? Hp Hps]; subst.
        constructor; [|exact Hps].
        cbn [list_ascii_of_string]. intros [H|H]; [congruence | exact (Hp H)].
Qed.

Lemma py_split_whole (sep : ascii) (piece : string) :
  ~ In sep (list_ascii_of_string piece) -> py_split sep piece = [piece].
Proof.
  induction piece as [|c piece IH]; intro H; [reflexivity|].
  cbn [py_split]. cbn [list_ascii_of_string] in H.
  destruct (Ascii.eqb c sep) eqn:Ec.
  - apply Ascii.eqb_eq in Ec. exfalso. apply H. left. exact Ec.
  - rewrite IH; [reflexivity|]. intro H'. apply H. right. exact H'.
Qed.

Lemma py_split_first (sep : ascii) (piece rest : string) :
  ~ In sep (list_ascii_of_string piece) ->
  py_split sep (piece ++ String sep rest) = piece :: py_split sep rest.
Proof.
  induction piece as [|c piece IH]; intro H.
  - cbn [append py_split]. rewrite Ascii.eqb_refl. reflexivity.
  - cbn [append py_split]. cbn [list_ascii_of_string] in H.
    destruct (Ascii.eqb c sep) eqn:Ec.
    + apply Ascii.eqb_eq in Ec. exfalso. apply H. left. exact Ec.
    + rewrite IH; [reflexivity|]. intro H'. apply H. right. exact H'.
Qed.

Lemma py_split_three (sep : ascii) (a b c : string) :
  ~ In sep (list_ascii_of_string a) ->
  ~ In sep (list_ascii_of_string b) ->
  ~ In sep (list_ascii_of_string c) ->
  py_split sep (a ++ String sep (b ++ String sep c)) = [a; b; c].
Proof.
  intros Ha Hb Hc.
  rewrite (py_split_first sep a _ Ha), (py_split_first sep b _ Hb),
    (py_split_whole sep c Hc).
  reflexivity.
Qed.

Lemma Forall2_three {A B : Type} (R : A -> B -> Prop) (l : list A)
  (x y z : B) :
  Forall2 R l [x; y; z] ->
  exists a b c, l = [a; b; c] /\ R a x /\ R b y /\ R c z.
Proof.
  intro H.
  inversion H as [|a ? l1 ? Ha H1]; subst.
  inversion H1 as [|b ? l2 ? Hb H2]; subst.
  inversion H2 as [|c ? l3 ? Hc H3]; subst.
  inversion H3; subst.
  exists a, b, c. repeat split; assumption.
Qed.

Lemma three_ints (py_int : string -> result Z) (s : string) (sep : ascii)
  (x y z : Z) :
  (parts <- mapM py_int (py_split sep s) ;; unpack3 parts) = Ok (x, y, z) <->
  exists a b c,
    s = (a ++ String sep (b ++ String sep c))%string /\
    ~ In sep (list_ascii_of_string a) /\
    ~ In sep (list_ascii_of_string b) /\
    ~ In sep (list_ascii_of_string c) /\
    py_int a = Ok x /\ py_int b = Ok y /\ py_int c = Ok z.
Proof.
  split.
  - intro H. apply bind_Ok in H. destruct H as [parts [Hm Hu]].
    destruct parts as [|x' [|y' [|z' [|? ?]]]]; try discriminate Hu.
    injection Hu as -> -> ->.
    apply mapM_Forall2 in Hm.
    destruct (Forall2_three _ _ _ _ _ Hm) as [a [b [c [Es [Ha [Hb Hc]]]]]].
    pose proof (py_split_join sep s) as Hj.
    pose proof (py_split_pieces sep s) as Hp.
    rewrite Es in Hj, Hp. cbn [py_join] in Hj.
    inversion Hp as [|? ? Pa Hp1]; subst.
    inversion Hp1 as [|? ? Pb Hp2]; subst.
    inversion Hp2 as [|? ? Pc _]; subst.
    exists a, b, c.
    split; [reflexivity|]. repeat split; assumption.
  - intros [a [b [c [-> [Pa [Pb [Pc [Ha [Hb Hc]]]]]]]]].
    rewrite (py_split_three sep a b c Pa Pb Pc).
    cbn [mapM]. rewrite Ha, Hb, Hc. reflexivity.
Qed.

Lemma mapM_Raise {A B : Type} (f : A -> result B) (l : list A) (e : error) :
  mapM f l = Raise e -> exists a, In a l /\ f a = Raise e.
Proof.
  induction l as [|a l IH]; [discriminate|].
  cbn [mapM]. destruct (f a) as [b|e'] eqn:Ea; cbn [bind].
  - destruct (mapM f l) as [bs|e'] eqn:El; cbn [bind]; [discriminate|].
    intro H. injection H as ->.
    destruct (IH eq_refl) as [a' [Hin Ha']].
    exists a'. split; [right; exact Hin | exact Ha'].
  - intro H. injection H as ->. exists a. split; [left; reflexivity | exact Ea].
Qed.

(** X28: [parse_date_time] returns exactly when the date is three pieces
    joined by two hyphens and the time three pieces joined by two colons,
    no piece holding its separator, and [int] accepts the six pieces; it
    returns their six values in order.  When it raises, the exception is
    [ValueError] from an unpacking of the wrong length or the exception
    [int] raised on a piece. *)
Theorem parse_date_time_returns_iff (py_int : string -> result Z)
  (date_str time_str : string) :
  (forall y m d hh mm ss : Z,
     parse_date_time py_int date_str time_str = Ok (y, m, d, hh, mm, ss) <->
     exists a b c p q r : string,
       date_str = (a ++ "-" ++ b ++ "-" ++ c)%string /\
       time_str = (p ++ ":" ++ q ++ ":" ++ r)%string /\
       Forall (fun piece => ~ In "-"%char (list_ascii_of_string piece))
         [a; b; c] /\
       Forall (fun piece => ~ In ":"%char (list_ascii_of_string piece))
         [p; q; r] /\
       py_int a = Ok y /\ py_int b = Ok m /\ py_int c = Ok d /\
       py_int p = Ok hh /\ py_int q = Ok mm /\ py_int r = Ok ss) /\
  (forall e : error,
     parse_date_time py_int date_str time_str = Raise e ->
     e = ValueError \/ exists piece, py_int piece = Raise e).
Proof.
  split.
  - intros y m d hh mm ss.
    assert (Shape :
      parse_date_time py_int date_str time_str = Ok (y, m, d, hh, mm, ss) <->
      (parts <- mapM py_int (py_split "-" date_str) ;; unpack3 parts) =
        Ok (y, m, d) /\
      (parts <- mapM py_int (py_split ":" time_str) ;; unpack3 parts) =
        Ok (hh, mm, ss)).
    { unfold parse_date_time.
      destruct (mapM py_int (py_split "-" date_str)) as [dp|e]; cbn [bind];
        [|split; [discriminate | intros [H _]; discriminate H]].
      destruct (unpack3 dp) as [[[y' m'] d']|e]; cbn [bind];
        [|split; [discriminate | intros [H _]; discriminate H]].
      destruct (mapM py_int (py_split ":" time_str)) as [tp|e]; cbn [bind];
        [|split; [discriminate | intros [_ H]; discriminate H]].
      destruct (unpack3 tp) as [[[hh' mm'] ss']|e]; cbn [bind];
        [|split; [discriminate | intros [_ H]; discriminate H]].
      split.
      - intro H. injection H as -> -> -> -> -> ->. split; reflexivity.
      - intros [H1 H2]. injection H1 as -> -> ->. injection H2 as -> -> ->.
        reflexivity. }
    rewrite Shape, !three_ints. split.
    + intros [(a & b & c & Ed & Pa & Pb & Pc & Ha & Hb & Hc)
              (p & q & r & Et & Pp & Pq & Pr & Hp & Hq & Hr)].
      exists a, b, c, p, q, r.
      split; [exact Ed|]. split; [exact Et|].
      split; [repeat constructor; assumption|].
      split; [repeat constructor; assumption|].
      repeat split; assumption.
    + intros (a & b & c & p & q & r & Ed & Et & Fd & Ft & Ha & Hb & Hc & Hp &
              Hq & Hr).
      inversion Fd as [|? ? Pa Fd1]; subst.
      inversion Fd1 as [|? ? Pb Fd2]; subst.
      inversion Fd2 as [|? ? Pc _]; subst.
      inversion Ft as [|? ? Pp Ft1]; subst.
      inversion Ft1 as [|? ? Pq Ft2]; subst.
      inversion Ft2 as [|? ? Pr _]; subst.
      split.
      * exists a, b, c. repeat split; assumption.
      * exists p, q, r. repeat split; assumption.
  - intros e. unfold parse_date_time.
    destruct (mapM py_int (py_split "-" date_str)) as [dp|e'] eqn:Ed;
      cbn [bind].
    + destruct (unpack3 dp) as [[[y' m'] d']|e'] eqn:Eu; cbn [bind].
      * destruct (mapM py_int (py_split ":" time_str)) as [tp|e'] eqn:Et;
          cbn [bind].
        -- destruct (unpack3 tp) as [[[hh' mm'] ss']|e'] eqn:Ev; cbn [bind];
             [discriminate|].
           intro H. injection H as ->. left.
           destruct tp as [|x [|x' [|x'' [|? ?]]]]; cbn [unpack3] in Ev;
             congruence.
        -- intro H. injection H as ->.
           destruct (mapM_Raise _ _ _ Et) as [piece [_ Hp]].
           right. exists piece. exact Hp.
      * intro H. injection H as ->. left.
        destruct dp as [|x [|x' [|x'' [|? ?]]]]; cbn [unpack3] in Eu;
          congruence.
    + intro H. injection H as ->.
      destruct (mapM_Raise _ _ _ Ed) as [piece [_ Hp]].
      right. exists piece. exact Hp.
Qed.
